(** * DNS lookup client: message codec and iterative resolver

    A shallow embedding of [mydns.py]: the query encoder
    ([build_dns_query]), the response decoder ([parse_name],
    [parse_resource_records], [parse_dns_response]), the selection
    functions ([choose_next_server], [extract_answer_ips]) and the
    resolution loop of [main].

    Conventions.
    - A Python [bytes] object is a [list byte]; offsets, lengths and
      unpacked integers are [N] (Python integers that are never negative
      here: offsets start at 12 or at a 14-bit pointer value and only grow).
    - A Python [str] is a [string]; each [ascii] stands for the code point
      of the same number (code points above 255 behave like 128..255 in
      the ASCII operations modelled: they have no ASCII encoding).  The
      name given to [build_query_packet] of [dns.py], which encodes in
      UTF-8, is a list of code points.
    - A call either returns, raises an exception, or is cut off by the
      fuel that bounds the [while True] loops ([OutOfFuel]). *)

From Stdlib Require Import List Arith NArith Bool String Ascii Lia.
From Stdlib.Strings Require Import Byte.
From Stdlib Require Import DecimalString.
Import ListNotations.

Local Open Scope N_scope.

(** ** Results of a call *)

Inductive exn : Type :=
| IndexError
| StructError
| UnicodeDecodeError
| UnicodeEncodeError
| OSError
| ValueError.

Inductive result (A : Type) : Type :=
| Ret (a : A)
| Raise (e : exn)
| OutOfFuel.

Arguments Ret {A} a.
Arguments Raise {A} e.
Arguments OutOfFuel {A}.

Definition bind {A B : Type} (c : result A) (k : A -> result B) : result B :=
  match c with
  | Ret a => k a
  | Raise e => Raise e
  | OutOfFuel => OutOfFuel
  end.

Notation "x <- c ;; k" := (bind c (fun x => k))
  (at level 61, c at next level, right associativity).
Notation "' p <- c ;; k" := (bind c (fun x => let p := x in k))
  (at level 61, p pattern, c at next level, right associativity).

(** ** Python primitives on [bytes] and [str] *)

Definition bytes : Type := list byte.

(** [message[i]]: an [IndexError] past the end. *)
Definition index (message : bytes) (i : N) : result N :=
  match nth_error message (N.to_nat i) with
  | Some b => Ret (Byte.to_N b)
  | None => Raise IndexError
  end.

(** [message[a:b]] for non-negative bounds: clipped to the buffer, never
    an error. *)
Definition slice (message : bytes) (a b : N) : bytes :=
  firstn (N.to_nat b - N.to_nat a) (skipn (N.to_nat a) message).

Definition is_ascii_byte (b : byte) : bool := Byte.to_N b <? 128.

(** [bs.decode("ascii")] *)
Definition decode_ascii (bs : bytes) : result string :=
  if forallb is_ascii_byte bs then Ret (string_of_list_byte bs)
  else Raise UnicodeDecodeError.

Definition is_ascii_char (c : ascii) : bool := N_of_ascii c <? 128.

Fixpoint string_forallb (p : ascii -> bool) (s : string) : bool :=
  match s with
  | EmptyString => true
  | String c r => p c && string_forallb p r
  end.

(** [s.encode("ascii")] *)
Definition encode_ascii (s : string) : result bytes :=
  if string_forallb is_ascii_char s then Ret (list_byte_of_string s)
  else Raise UnicodeEncodeError.

(** [sep.join(parts)] *)
Definition join (sep : string) (parts : list string) : string :=
  String.concat sep parts.

(** [s.split(".")]: always at least one part; an empty string gives one
    empty part. *)
Fixpoint split_dot (s : string) : list string :=
  match s with
  | EmptyString => [EmptyString]
  | String c r =>
      if Ascii.eqb c "."%char then EmptyString :: split_dot r
      else match split_dot r with
           | h :: t => String c h :: t
           | [] => [String c EmptyString]
           end
  end.

(** [str(n)] for a non-negative integer. *)
Definition str_of_N (n : N) : string :=
  NilEmpty.string_of_uint (N.to_uint n).

(** Big-endian unsigned integer held in a byte string. *)
Definition be_uint (bs : bytes) : N :=
  fold_left (fun acc b => acc * 256 + Byte.to_N b) bs 0.

(** [struct.pack("B", n)]: a [struct.error] outside 0..255. *)
Definition pack_B (n : N) : result bytes :=
  match Byte.of_N n with
  | Some b => Ret [b]
  | None => Raise StructError
  end.

(** [struct.pack(">H", n)]: a [struct.error] outside 0..65535. *)
Definition pack_H (n : N) : result bytes :=
  match Byte.of_N (n / 256), Byte.of_N (n mod 256) with
  | Some hi, Some lo => Ret [hi; lo]
  | _, _ => Raise StructError
  end.

Fixpoint pack_Hs (ns : list N) : result bytes :=
  match ns with
  | [] => Ret []
  | n :: rest =>
      b <- pack_H n ;;
      bs <- pack_Hs rest ;;
      Ret (b ++ bs)%list
  end.

(** [struct.unpack] of a format of total size [size]: the buffer must have
    exactly that many bytes. *)
Definition unpack_sized (size : nat) (bs : bytes) : result bytes :=
  if Nat.eqb (List.length bs) size then Ret bs else Raise StructError.

(** ** Name decoding *)

Definition is_pointer (length : N) : bool :=
  N.land length 192 =? 192.

Definition pointer_target (length b1 : N) : N :=
  N.lor (N.shiftl (N.land length 63) 8) b1.

(** The [while True] loop of [parse_name]; the state is the one of the
    source: [offset], [original_offset], [jumped] and [labels]. *)
Fixpoint parse_name_loop (fuel : nat) (message : bytes)
    (offset original_offset : N) (jumped : bool) (labels : list string)
    : result (string * N) :=
  match fuel with
  | O => OutOfFuel
  | S fuel' =>
      length <- index message offset ;;
      if is_pointer length then
        b1 <- index message (offset + 1) ;;
        let pointer := pointer_target length b1 in
        let offset := offset + 2 in
        let original_offset := if jumped then original_offset else offset in
        parse_name_loop fuel' message pointer original_offset true labels
      else if length =? 0 then
        let offset := offset + 1 in
        let decoded_name := join "." labels in
        if jumped then Ret (decoded_name, original_offset)
        else Ret (decoded_name, offset)
      else
        let offset := offset + 1 in
        label <- decode_ascii (slice message offset (offset + length)) ;;
        parse_name_loop fuel' message (offset + length) original_offset jumped
          (labels ++ [label])%list
  end.

Definition parse_name (fuel : nat) (message : bytes) (offset : N)
    : result (string * N) :=
  parse_name_loop fuel message offset offset false [].

(** Byte strings written as lists of numbers, for the examples. *)
Definition byte_of_N (n : N) : byte :=
  match Byte.of_N n with Some b => b | None => x00 end.

Definition bytes_of (ns : list N) : bytes := map byte_of_N ns.

(** ** Resource records *)

(** The value stored under ["rdata"]: a Python [str] (a dotted address or a
    decoded name) or a Python [bytes] object (the raw payload). *)
Inductive pyval : Type :=
| VStr (s : string)
| VBytes (b : bytes).

Definition is_str (v : pyval) : bool :=
  match v with VStr _ => true | VBytes _ => false end.

(** Python [==] on these values: a [str] never equals a [bytes]. *)
Definition pyval_eqb (a b : pyval) : bool :=
  match a, b with
  | VStr s, VStr t => String.eqb s t
  | VBytes x, VBytes y =>
      if list_eq_dec Byte.byte_eq_dec x y then true else false
  | _, _ => false
  end.

(** The dictionary built for one record, with its six fixed keys. *)
Record rr : Type := mk_rr {
  rr_name : string;
  rr_type : N;
  rr_class : N;
  rr_ttl : N;
  rr_rdlength : N;
  rr_rdata : pyval
}.

(** The body of the [for] loop of [parse_resource_records]: one record
    decoded at [offset], and the offset of the next one. *)
Definition parse_resource_record (fuel : nat) (message : bytes) (offset : N)
    : result (rr * N) :=
  '(name, offset) <- parse_name fuel message offset ;;
  hdr <- unpack_sized 10 (slice message offset (offset + 10)) ;;
  let rtype := be_uint (firstn 2 hdr) in
  let rclass := be_uint (firstn 2 (skipn 2 hdr)) in
  let ttl := be_uint (firstn 4 (skipn 4 hdr)) in
  let rdlength := be_uint (firstn 2 (skipn 8 hdr)) in
  let offset := offset + 10 in
  let rdata_start := offset in
  rdata <-
    (if (rtype =? 1) && (rdlength =? 4) then
       let rdata_bytes := slice message offset (offset + 4) in
       let ip_parts := map (fun b => str_of_N (Byte.to_N b)) rdata_bytes in
       Ret (VStr (join "." ip_parts))
     else if rtype =? 2 then
       '(rdata, _) <- parse_name fuel message offset ;;
       Ret (VStr rdata)
     else
       Ret (VBytes (slice message offset (offset + rdlength)))) ;;
  let offset := rdata_start + rdlength in
  Ret (mk_rr name rtype rclass ttl rdlength rdata, offset).

Fixpoint parse_rr_loop (fuel : nat) (message : bytes) (count : nat)
    (offset : N) (records : list rr) : result (list rr * N) :=
  match count with
  | O => Ret (records, offset)
  | S count' =>
      '(record, offset) <- parse_resource_record fuel message offset ;;
      parse_rr_loop fuel message count' offset (records ++ [record])%list
  end.

Definition parse_resource_records (fuel : nat) (message : bytes) (count : N)
    (offset : N) : result (list rr * N) :=
  parse_rr_loop fuel message (N.to_nat count) offset [].

(** ** Whole responses *)

Record parsed_response : Type := mk_parsed {
  p_id : N;
  p_flags : N;
  p_answers : list rr;
  p_authorities : list rr;
  p_additionals : list rr
}.

(** The question loop of [parse_dns_response]. *)
Fixpoint skip_questions (fuel : nat) (message : bytes) (qdcount : nat)
    (offset : N) : result N :=
  match qdcount with
  | O => Ret offset
  | S qdcount' =>
      '(_, offset) <- parse_name fuel message offset ;;
      skip_questions fuel message qdcount' (offset + 4)
  end.

Definition parse_dns_response (fuel : nat) (message : bytes)
    : result parsed_response :=
  header <- unpack_sized 12 (slice message 0 12) ;;
  let transaction_id := be_uint (firstn 2 header) in
  let flags := be_uint (firstn 2 (skipn 2 header)) in
  let qdcount := be_uint (firstn 2 (skipn 4 header)) in
  let ancount := be_uint (firstn 2 (skipn 6 header)) in
  let nscount := be_uint (firstn 2 (skipn 8 header)) in
  let arcount := be_uint (firstn 2 (skipn 10 header)) in
  let offset := 12 in
  offset <- skip_questions fuel message (N.to_nat qdcount) offset ;;
  '(answers, offset) <- parse_resource_records fuel message ancount offset ;;
  '(authorities, offset) <- parse_resource_records fuel message nscount offset ;;
  '(additionals, offset) <- parse_resource_records fuel message arcount offset ;;
  Ret (mk_parsed transaction_id flags answers authorities additionals).

(** ** Query encoding *)

(** [random.getrandbits(k)]: [k] bits drawn from the generator, whose
    output is the injected [entropy]. *)
Definition getrandbits (k : N) (entropy : N) : N := entropy mod 2 ^ k.

(** The [for label in qname_parts] loop of [build_dns_query]. *)
Fixpoint encode_labels (qname_parts : list string) (qname_bytes : bytes)
    : result bytes :=
  match qname_parts with
  | [] => Ret qname_bytes
  | label :: rest =>
      let length := N.of_nat (String.length label) in
      len_byte <- pack_B length ;;
      let qname_bytes := (qname_bytes ++ len_byte)%list in
      encoded <- encode_ascii label ;;
      encode_labels rest (qname_bytes ++ encoded)%list
  end.

Definition build_dns_query (entropy : N) (domain_name : string)
    : result (N * bytes) :=
  let transaction_id := getrandbits 16 entropy in
  let flags := 256 in
  let qdcount := 1 in
  let ancount := 0 in
  let nscount := 0 in
  let arcount := 0 in
  header <- pack_Hs [transaction_id; flags; qdcount; ancount; nscount; arcount] ;;
  let qname_parts := split_dot domain_name in
  qname_bytes <- encode_labels qname_parts [] ;;
  let qname_bytes := (qname_bytes ++ [x00])%list in
  let qtype := 1 in
  let qclass := 1 in
  tail <- pack_Hs [qtype; qclass] ;;
  let question := (qname_bytes ++ tail)%list in
  let full_query := (header ++ question)%list in
  Ret (transaction_id, full_query).

(** *** The earlier encoder, [build_query_packet] of [dns.py]

    It differs in three places: the id is drawn by [random.randint(0,
    65535)], the labels are encoded by [str.encode()] (UTF-8), and the pair
    is returned the other way round.  UTF-8 tells apart code points that
    the ASCII codec rejects alike, so the name is taken here as a Python
    [str] in full: the list of its code points, each below 0x110000. *)

Definition pystr : Type := list N.

(** The code points of a string of characters below 256. *)
Definition str_codes (s : string) : pystr :=
  map N_of_ascii (list_ascii_of_string s).

(** [domain.split(".")] *)
Fixpoint split_codes (s : pystr) : list pystr :=
  match s with
  | [] => [[]]
  | c :: r =>
      if c =? 46 then [] :: split_codes r
      else match split_codes r with
           | h :: t => (c :: h) :: t
           | [] => [[c]]
           end
  end.

(** The code points U+D800 to U+DFFF, which UTF-8 does not encode. *)
Definition is_surrogate (c : N) : bool := (55296 <=? c) && (c <=? 57343).

(** UTF-8 of one code point other than a surrogate: one byte below 0x80,
    two below 0x800, three below 0x10000, four from there on. *)
Definition utf8_char (c : N) : bytes :=
  if c <? 128 then [byte_of_N c]
  else if c <? 2048 then
    [byte_of_N (192 + c / 64); byte_of_N (128 + c mod 64)]
  else if c <? 65536 then
    [byte_of_N (224 + c / 4096); byte_of_N (128 + (c / 64) mod 64);
     byte_of_N (128 + c mod 64)]
  else
    [byte_of_N (240 + c / 262144); byte_of_N (128 + (c / 4096) mod 64);
     byte_of_N (128 + (c / 64) mod 64); byte_of_N (128 + c mod 64)].

(** [part.encode()]: UTF-8 with strict error handling; a surrogate anywhere
    in the string raises [UnicodeEncodeError]. *)
Definition encode_utf8 (s : pystr) : result bytes :=
  if existsb is_surrogate s then Raise UnicodeEncodeError
  else Ret (flat_map utf8_char s).

(** [Random._randbelow(n)], by which [randint] draws: [k] bits at a time,
    [k] being the bit length of [n], until the number drawn is below [n].
    [draws j] is the output of the generator at the [j]-th call of
    [getrandbits]. *)
Fixpoint randbelow (fuel : nat) (n : N) (draws : nat -> N) (j : nat)
    : result N :=
  match fuel with
  | O => OutOfFuel
  | S fuel' =>
      let k := N.size n in
      let r := getrandbits k (draws j) in
      if r <? n then Ret r else randbelow fuel' n draws (S j)
  end.

(** [random.randint(a, b)], which is [randrange(a, b + 1)]: [a] plus a
    number below the width of the range, and a [ValueError] for an empty
    range. *)
Definition randint (fuel : nat) (a b : N) (draws : nat -> N) : result N :=
  let width := b + 1 - a in
  if 0 <? width then
    r <- randbelow fuel width draws 0 ;;
    Ret (a + r)
  else Raise ValueError.

(** The [for part in domain.split(".")] loop. *)
Fixpoint packet_labels (parts : list pystr) (qname : bytes) : result bytes :=
  match parts with
  | [] => Ret qname
  | part :: rest =>
      len_byte <- pack_B (N.of_nat (List.length part)) ;;
      let qname := (qname ++ len_byte)%list in
      encoded <- encode_utf8 part ;;
      packet_labels rest (qname ++ encoded)%list
  end.

Definition build_query_packet (fuel : nat) (draws : nat -> N) (domain : pystr)
    : result (bytes * N) :=
  tid <- randint fuel 0 65535 draws ;;
  let flags := 256 in
  let qdcount := 1 in
  let ancount := 0 in
  let nscount := 0 in
  let arcount := 0 in
  header <- pack_Hs [tid; flags; qdcount; ancount; nscount; arcount] ;;
  qname <- packet_labels (split_codes domain) [] ;;
  let qname := (qname ++ [x00])%list in
  let qtype := 1 in
  let qclass := 1 in
  tail <- pack_Hs [qtype; qclass] ;;
  let question := (qname ++ tail)%list in
  Ret ((header ++ question)%list, tid).

(** ** Selection *)

(** The inner [for add in additional_as] loop: the first record whose name
    equals [ns]. *)
Fixpoint match_additional (ns : pyval) (additional_as : list rr)
    : option pyval :=
  match additional_as with
  | [] => None
  | add :: rest =>
      if pyval_eqb (VStr (rr_name add)) ns then Some (rr_rdata add)
      else match_additional ns rest
  end.

(** The outer [for ns in ns_names] loop. *)
Fixpoint match_ns_names (ns_names : list pyval) (additional_as : list rr)
    : option pyval :=
  match ns_names with
  | [] => None
  | ns :: rest =>
      match match_additional ns additional_as with
      | Some ip => Some ip
      | None => match_ns_names rest additional_as
      end
  end.

Definition choose_next_server (parsed : parsed_response) : option pyval :=
  let ns_names :=
    map rr_rdata (filter (fun r => rr_type r =? 2) (p_authorities parsed)) in
  let additional_as :=
    filter (fun r => rr_type r =? 1) (p_additionals parsed) in
  match match_ns_names ns_names additional_as with
  | Some ip => Some ip
  | None =>
      match additional_as with
      | first :: _ => Some (rr_rdata first)
      | [] => None
      end
  end.

(** The loop of [extract_answer_ips], with its accumulator [ips]. *)
Fixpoint extract_loop (answers : list rr) (ips : list pyval) : list pyval :=
  match answers with
  | [] => ips
  | r :: rest =>
      if rr_type r =? 1 then extract_loop rest (ips ++ [rr_rdata r])%list
      else extract_loop rest ips
  end.

Definition extract_answer_ips (parsed : parsed_response) : list pyval :=
  extract_loop (p_answers parsed) [].

(** ** The resolution loop of [main] *)

(** What [recvfrom] does once the query is out: it raises
    [socket.timeout], or a datagram arrives. *)
Inductive recv_result : Type :=
| RecvTimeout
| RecvData (datagram : bytes).

(** What the socket does at one iteration.  [sendto] is called with the
    current server value as the host, whatever that value is: it raises
    when the socket cannot use the value as an address ([socket.gaierror]
    for a host that does not resolve, [PermissionError] for a broadcast
    address, both of class [OSError]), and nothing is sent then.
    Otherwise the query goes out and [recvfrom] is called. *)
Inductive socket_step : Type :=
| SendRaises (e : exn)
| Sent (r : recv_result).

(** A [recv_result] where a [socket_step] is expected is the step whose
    [sendto] went through: [reply_at tr i = RecvTimeout] reads "at
    iteration [i] the query goes out and the receive times out". *)
Coercion Sent : recv_result >-> socket_step.

(** The world around the loop, indexed by the iteration number: the output
    of the random generator and the behaviour of the socket. *)
Record transport : Type := mk_transport {
  entropy_at : nat -> N;
  reply_at : nat -> socket_step
}.

(** What the run does to the socket and the console, in order.  The lines
    that only display a reply are one event, [EvPrintReply]. *)
Inductive event : Type :=
| EvSetTimeout (seconds : N)
| EvPrintServer (current_server_ip : pyval)
| EvSendTo (query : bytes) (server : pyval) (port : N)
| EvRecvFrom (bufsize : N) (r : recv_result)
| EvPrintReply (parsed : parsed_response)
| EvPrint (line : string)
| EvClose.

Definition timed_out_line : string := "Reply timed out. Stopping resolution.".
Definition no_server_line : string :=
  "No intermediate DNS server IP found. Stopping resolution.".

(** The three [break]s of the loop. *)
Inductive stop : Type :=
| StopAnswered (answer_ips : list pyval)
| StopTimedOut
| StopNoServer.

(** How one pass through the loop body ends. *)
Inductive step_result : Type :=
| Break (s : stop)
| Continue (next_server_ip : pyval)
| Abort (e : exn)
| Stuck.

(** The decision taken on a parsed reply (the end of the loop body). *)
Definition decide (parsed : parsed_response) : list event * step_result :=
  let answer_ips := extract_answer_ips parsed in
  match answer_ips with
  | _ :: _ => ([], Break (StopAnswered answer_ips))
  | [] =>
      match choose_next_server parsed with
      | None => ([EvPrint no_server_line], Break StopNoServer)
      | Some next_server_ip => ([], Continue next_server_ip)
      end
  end.

(** One pass through the body of [while True].  Only [socket.timeout] is
    caught, and only around [recvfrom]: an exception of [build_dns_query],
    of [sendto] or of [parse_dns_response] leaves the loop and [main].
    [recvfrom] hands over the first 512 bytes of a datagram. *)
Definition iteration (pfuel : nat) (tr : transport) (domain_name : string)
    (i : nat) (current_server_ip : pyval) : list event * step_result :=
  let ev0 := [EvPrintServer current_server_ip] in
  match build_dns_query (entropy_at tr i) domain_name with
  | Raise e => (ev0, Abort e)
  | OutOfFuel => (ev0, Stuck)
  | Ret (transaction_id, query) =>
      match reply_at tr i with
      | SendRaises e => (ev0, Abort e)
      | Sent received =>
          let ev1 := (ev0 ++ [EvSendTo query current_server_ip 53])%list in
          match received with
          | RecvTimeout =>
              ((ev1 ++ [EvRecvFrom 512 RecvTimeout;
                        EvPrint timed_out_line])%list,
               Break StopTimedOut)
          | RecvData datagram =>
              let response_data := firstn 512 datagram in
              let ev2 :=
                (ev1 ++ [EvRecvFrom 512 (RecvData datagram)])%list in
              match parse_dns_response pfuel response_data with
              | Raise e => (ev2, Abort e)
              | OutOfFuel => (ev2, Stuck)
              | Ret parsed =>
                  let '(ev3, r) := decide parsed in
                  ((ev2 ++ EvPrintReply parsed :: ev3)%list, r)
              end
          end
      end
  end.

(** How the run ends: at a [break], by an exception nobody catches, or not
    within the fuel given. *)
Inductive outcome : Type :=
| Stopped (s : stop)
| Uncaught (e : exn)
| Unfinished.

Fixpoint resolve (fuel pfuel : nat) (tr : transport) (domain_name : string)
    (i : nat) (current_server_ip : pyval) : list event * outcome :=
  match fuel with
  | O => ([], Unfinished)
  | S fuel' =>
      let '(evs, r) := iteration pfuel tr domain_name i current_server_ip in
      match r with
      | Break s => (evs, Stopped s)
      | Abort e => (evs, Uncaught e)
      | Stuck => (evs, Unfinished)
      | Continue next_server_ip =>
          let '(evs', o) :=
            resolve fuel' pfuel tr domain_name (S i) next_server_ip in
          ((evs ++ evs')%list, o)
      end
  end.

(** [main] after its argument check: the socket is set up, the loop runs,
    and the socket is closed when the loop was left by a [break]. *)
Definition main (fuel pfuel : nat) (tr : transport) (domain_name : string)
    (root_dns_ip : string) : list event * outcome :=
  let '(evs, o) := resolve fuel pfuel tr domain_name 0 (VStr root_dns_ip) in
  let closing := match o with Stopped _ => [EvClose] | _ => [] end in
  ((EvSetTimeout 5 :: evs ++ closing)%list, o).

(** The terminal states the specification names for a finished run. *)
Inductive engine_state : Type :=
| ANSWERED
| NO_PROGRESS.

Definition final_state (o : outcome) : option engine_state :=
  match o with
  | Stopped (StopAnswered _) => Some ANSWERED
  | Stopped StopTimedOut => Some NO_PROGRESS
  | Stopped StopNoServer => Some NO_PROGRESS
  | Uncaught _ => None
  | Unfinished => None
  end.

(** ** Vocabulary of the statements

    The buffer read byte by byte, and what a name, a name field and a run
    of records are in a buffer, stated on the bytes alone. *)

Definition byte_at (message : bytes) (i : N) : option N :=
  option_map Byte.to_N (nth_error message (N.to_nat i)).

(** The [len] bytes of a label that starts at [start] lie inside the buffer,
    are ASCII, and spell [s]. *)
Definition label_at (message : bytes) (start len : N) (s : string) : Prop :=
  start + len <= N.of_nat (List.length message) /\
  forallb is_ascii_byte (slice message start (start + len)) = true /\
  s = string_of_list_byte (slice message start (start + len)).

(** [labels_at message offset labels]: the name that starts at [offset] has
    the labels [labels], in this order, compression pointers followed.  A
    length byte of 192 or more is the first byte of a pointer, whose target
    is the 14-bit number it forms with the next byte. *)
Inductive labels_at (message : bytes) : N -> list string -> Prop :=
| labels_end : forall offset,
    byte_at message offset = Some 0 ->
    labels_at message offset []
| labels_label : forall offset len s rest,
    byte_at message offset = Some len ->
    0 < len < 192 ->
    label_at message (offset + 1) len s ->
    labels_at message (offset + 1 + len) rest ->
    labels_at message offset (s :: rest)
| labels_pointer : forall offset b0 b1 labels,
    byte_at message offset = Some b0 ->
    192 <= b0 ->
    byte_at message (offset + 1) = Some b1 ->
    labels_at message ((b0 - 192) * 256 + b1) labels ->
    labels_at message offset labels.

(** [field_end message offset next]: the field that holds the name at
    [offset] ends just before [next].  The field is read forwards only: it
    stops after the zero byte, or after the two bytes of the first pointer
    met. *)
Inductive field_end (message : bytes) : N -> N -> Prop :=
| field_zero : forall offset,
    byte_at message offset = Some 0 ->
    field_end message offset (offset + 1)
| field_pointer : forall offset b0 b1,
    byte_at message offset = Some b0 ->
    192 <= b0 ->
    byte_at message (offset + 1) = Some b1 ->
    field_end message offset (offset + 2)
| field_label : forall offset len next,
    byte_at message offset = Some len ->
    0 < len < 192 ->
    field_end message (offset + 1 + len) next ->
    field_end message offset next.

(** A big-endian 16-bit number read at [i]. *)
Definition be16_at (message : bytes) (i : N) : option N :=
  match byte_at message i, byte_at message (i + 1) with
  | Some hi, Some lo => Some (hi * 256 + lo)
  | _, _ => None
  end.

(** [records_span message n offset next]: [n] records laid out from
    [offset], each one a name field, ten bytes of fixed header whose last
    two give the declared rdata length, and that many bytes of rdata; the
    last one ends just before [next].  The record type plays no part. *)
Inductive records_span (message : bytes) : nat -> N -> N -> Prop :=
| span_none : forall offset,
    records_span message 0 offset offset
| span_record : forall n offset name_end rdlength next,
    field_end message offset name_end ->
    be16_at message (name_end + 8) = Some rdlength ->
    records_span message n (name_end + 10 + rdlength) next ->
    records_span message (S n) offset next.

(** A buffer holds [n] well-formed records from [offset]: each owner name
    decodes, each fixed header is complete, and the rdata of a record of
    type NS (2) holds a name that decodes.  Nothing is asked of the rdata of
    other types. *)
Inductive wf_records (message : bytes) : nat -> N -> Prop :=
| wf_none : forall offset,
    wf_records message 0 offset
| wf_record : forall n offset owner name_end rtype rdlength,
    labels_at message offset owner ->
    field_end message offset name_end ->
    name_end + 10 <= N.of_nat (List.length message) ->
    be16_at message name_end = Some rtype ->
    be16_at message (name_end + 8) = Some rdlength ->
    (rtype = 2 -> exists target, labels_at message (name_end + 10) target) ->
    wf_records message n (name_end + 10 + rdlength) ->
    wf_records message (S n) offset.

(** How the rdata of a decoded record was produced from the buffer, given
    where the rdata starts. *)
Definition rdata_of (fuel : nat) (message : bytes) (rdata_start : N) (r : rr)
    : Prop :=
  (rr_type r = 1 -> rr_rdlength r = 4 ->
   rr_rdata r =
     VStr (join "." (map (fun b => str_of_N (Byte.to_N b))
                         (slice message rdata_start (rdata_start + 4))))) /\
  (rr_type r = 2 ->
   exists target next,
     parse_name fuel message rdata_start = Ret (target, next) /\
     rr_rdata r = VStr target) /\
  (rr_type r = 1 -> rr_rdlength r <> 4 ->
   rr_rdata r =
     VBytes (slice message rdata_start (rdata_start + rr_rdlength r))) /\
  (rr_type r <> 1 -> rr_type r <> 2 ->
   rr_rdata r =
     VBytes (slice message rdata_start (rdata_start + rr_rdlength r))).

(** The rdata of a decoded A record whose rdata starts at [rdata_start]:
    the dotted decimal string of the four bytes from [rdata_start] when the
    declared length is 4, and otherwise the declared number of bytes from
    [rdata_start], as a bytes object (a slice: as many of them as the
    buffer holds). *)
Definition a_rdata_at (message : bytes) (rdata_start : N) (r : rr) : Prop :=
  (rr_rdlength r = 4 ->
   rr_rdata r =
     VStr (join "." (map (fun b => str_of_N (Byte.to_N b))
                         (slice message rdata_start (rdata_start + 4))))) /\
  (rr_rdlength r <> 4 ->
   rr_rdata r =
     VBytes (slice message rdata_start (rdata_start + rr_rdlength r))).

(** [records_at message offset records next]: the decoded records
    [records] are the records laid out from [offset], in this order.  The
    first one has its name field at [offset]; its type and its declared
    rdata length are the numbers at 0 and 8 bytes after the name field; its
    rdata starts 10 bytes after the name field, and when the type is A (1)
    the decoded rdata is read there; the next record starts where the
    declared rdata length ends, and the last one ends just before
    [next]. *)
Inductive records_at (message : bytes) : N -> list rr -> N -> Prop :=
| records_at_none : forall offset,
    records_at message offset [] offset
| records_at_record : forall offset name_end r rest next,
    field_end message offset name_end ->
    be16_at message name_end = Some (rr_type r) ->
    be16_at message (name_end + 8) = Some (rr_rdlength r) ->
    (rr_type r = 1 -> a_rdata_at message (name_end + 10) r) ->
    records_at message (name_end + 10 + rr_rdlength r) rest next ->
    records_at message offset (r :: rest) next.

(** A dotted IPv4 address string: four octets in decimal. *)
Definition ipv4_string (v : pyval) : Prop :=
  exists a b c d : byte,
    v = VStr (join "." (map (fun x => str_of_N (Byte.to_N x)) [a; b; c; d])).

(** A label that [build_dns_query] can encode: ASCII, at most 255
    characters. *)
Definition encodable_label (label : string) : bool :=
  (N.of_nat (String.length label) <=? 255) && string_forallb is_ascii_char label.

(** A label that survives encoding and decoding: encodable, not empty, and
    short enough for its length byte not to read as a pointer. *)
Definition plain_label (label : string) : bool :=
  (0 <? N.of_nat (String.length label)) &&
  (N.of_nat (String.length label) <? 192) &&
  string_forallb is_ascii_char label.

(** The question name on the wire: each label after a byte with its
    length. *)
Definition wire_labels (labels : list string) : bytes :=
  flat_map (fun label =>
              byte_of_N (N.of_nat (String.length label))
                :: list_byte_of_string label) labels.

(** The NS target names of the authority section and the A records of the
    additional section, each in section order. *)
Definition ns_targets (parsed : parsed_response) : list pyval :=
  map rr_rdata (filter (fun r => rr_type r =? 2) (p_authorities parsed)).

Definition additional_a_records (parsed : parsed_response) : list rr :=
  filter (fun r => rr_type r =? 1) (p_additionals parsed).

(** [ip] is the rdata of the first exact match: of the record at the least
    position [j] among the A records whose owner name is the NS name at the
    least position [i] that has any match at all. *)
Definition first_glue_match (ns_names : list pyval) (additional_as : list rr)
    (ip : pyval) : Prop :=
  exists (i : nat) (ns : pyval) (j : nat) (add : rr),
    nth_error ns_names i = Some ns /\
    nth_error additional_as j = Some add /\
    VStr (rr_name add) = ns /\
    ip = rr_rdata add /\
    (forall j' add', (j' < j)%nat -> nth_error additional_as j' = Some add' ->
                     VStr (rr_name add') <> ns) /\
    (forall i' ns' add', (i' < i)%nat -> nth_error ns_names i' = Some ns' ->
                         In add' additional_as -> VStr (rr_name add') <> ns').

Definition no_glue_match (ns_names : list pyval) (additional_as : list rr)
    : Prop :=
  forall ns add, In ns ns_names -> In add additional_as ->
                 VStr (rr_name add) <> ns.

(** Iteration [i] receives [datagram] in reply to [query]: the query is
    built, [sendto] takes it, and [recvfrom] hands over the datagram
    (which decodes or not). *)
Definition receives (tr : transport) (domain_name : string) (i : nat)
    (query : bytes) (datagram : bytes) : Prop :=
  (exists transaction_id,
      build_dns_query (entropy_at tr i) domain_name
      = Ret (transaction_id, query)) /\
  reply_at tr i = Sent (RecvData datagram).

(** A record that the decoder produced from [message]. *)
Definition decoded_in (fuel : nat) (message : bytes) (r : rr) : Prop :=
  exists offset next, parse_resource_record fuel message offset = Ret (r, next).

(** Events that are neither a socket configuration nor a receive that timed
    out. *)
Definition plain_event (ev : event) : Prop :=
  match ev with
  | EvSetTimeout _ => False
  | EvRecvFrom _ RecvTimeout => False
  | EvClose => False
  | _ => True
  end.

(** Events of the loop itself: everything but the configuration and the
    closing of the socket. *)
Definition loop_event (ev : event) : Prop :=
  match ev with
  | EvSetTimeout _ => False
  | EvClose => False
  | _ => True
  end.

(** ** Sample messages *)

(** ["www.a"] at 0, a pointer to ["a"] at 7, and ["b"] followed by a pointer
    to that pointer at 9. *)
Definition sample_names : bytes :=
  bytes_of [3; 119; 119; 119; 1; 97; 0;  192; 4;  1; 98; 192; 7].

(** ["example.com"] at 0, then three records from 13: an A record, an NS
    record whose compressed target takes 5 of its 7 declared bytes, and a
    record of a type the decoder does not interpret (16). *)
Definition sample_records : bytes :=
  bytes_of ([7; 101; 120; 97; 109; 112; 108; 101; 3; 99; 111; 109; 0]
            ++ [192; 0;  0; 1;  0; 1;  0; 0; 1; 0;  0; 4;  93; 184; 216; 34]
            ++ [192; 0;  0; 2;  0; 1;  0; 0; 1; 0;  0; 7;
                2; 110; 115; 192; 0; 255; 255]
            ++ [192; 0;  0; 16;  0; 1;  0; 0; 1; 0;  0; 3;  2; 104; 105]).

(** The header of a reply with one question and the given section counts,
    followed by the question ["example.com"], type A, class IN. *)
Definition sample_head (ancount nscount arcount : N) : list N :=
  [18; 52;  129; 128;  0; 1;  0; ancount;  0; nscount;  0; arcount]
  ++ [7; 101; 120; 97; 109; 112; 108; 101; 3; 99; 111; 109; 0;  0; 1;  0; 1].

(** An answer: one A record for ["example.com"], address 93.184.216.34, with
    an authority and an additional section as well. *)
Definition sample_answer : bytes :=
  bytes_of (sample_head 1 1 1
            ++ [192; 12;  0; 1;  0; 1;  0; 0; 1; 0;  0; 4;  93; 184; 216; 34]
            ++ [192; 12;  0; 2;  0; 1;  0; 0; 1; 0;  0; 5;  2; 110; 115; 192; 12]
            ++ [2; 110; 115; 192; 12;  0; 1;  0; 1;  0; 0; 0; 9;  0; 4;
                10; 0; 0; 2]).

(** An answer whose A record declares two bytes of rdata. *)
Definition sample_answer_raw : bytes :=
  bytes_of (sample_head 1 0 0
            ++ [192; 12;  0; 1;  0; 1;  0; 0; 1; 0;  0; 2;  1; 2]).

(** A referral: NS records ["ns1.example.com"] and ["ns2.example.com"], and
    the address 10.0.0.2 of the second one. *)
Definition sample_referral : bytes :=
  bytes_of (sample_head 0 2 1
            ++ [192; 12;  0; 2;  0; 1;  0; 0; 1; 0;  0; 6;
                3; 110; 115; 49; 192; 12]
            ++ [192; 12;  0; 2;  0; 1;  0; 0; 1; 0;  0; 6;
                3; 110; 115; 50; 192; 12]
            ++ [3; 110; 115; 50; 192; 12;  0; 1;  0; 1;  0; 0; 0; 9;  0; 4;
                10; 0; 0; 2]).

(** A referral with an A record that matches no NS name (["x.example.com"],
    10.0.0.9). *)
Definition sample_referral_unrelated : bytes :=
  bytes_of (sample_head 0 1 1
            ++ [192; 12;  0; 2;  0; 1;  0; 0; 1; 0;  0; 6;
                3; 110; 115; 49; 192; 12]
            ++ [1; 120; 192; 12;  0; 1;  0; 1;  0; 0; 0; 9;  0; 4;
                10; 0; 0; 9]).

(** A referral without any additional record. *)
Definition sample_referral_no_glue : bytes :=
  bytes_of (sample_head 0 1 0
            ++ [192; 12;  0; 2;  0; 1;  0; 0; 1; 0;  0; 6;
                3; 110; 115; 49; 192; 12]).

(** Replies that do not decode: ten bytes only; a question name whose label
    length runs past the end; a question name that is a pointer past the
    end. *)
Definition sample_truncated : bytes :=
  bytes_of [18; 52;  129; 128;  0; 1;  0; 0;  0; 0].

Definition sample_label_overrun : bytes :=
  bytes_of [18; 52;  129; 128;  0; 1;  0; 0;  0; 0;  0; 0;  7; 101; 120].

Definition sample_bad_pointer : bytes :=
  bytes_of [18; 52;  129; 128;  0; 1;  0; 0;  0; 0;  0; 0;  192; 255].

(** A socket on which [datagram] arrives at every iteration. *)
Definition always_replies (datagram : bytes) : transport :=
  mk_transport (fun _ => 7) (fun _ => RecvData datagram).

(** A socket on which [datagram] arrives once, and nothing afterwards. *)
Definition replies_once (datagram : bytes) : transport :=
  mk_transport (fun _ => 7)
    (fun i => match i with O => RecvData datagram | S _ => RecvTimeout end).

(** A string of [n] letters [a]. *)
Fixpoint letters (n : nat) : string :=
  match n with
  | O => EmptyString
  | S n' => String "a" (letters n')
  end.

(** The decoded samples. *)
Definition no_response : parsed_response := mk_parsed 0 0 [] [] [].

Definition decoded (datagram : bytes) : parsed_response :=
  match parse_dns_response 5 datagram with
  | Ret parsed => parsed
  | _ => no_response
  end.

Definition sample_referral_parsed : parsed_response :=
  Eval vm_compute in decoded sample_referral.

Definition sample_referral_unrelated_parsed : parsed_response :=
  Eval vm_compute in decoded sample_referral_unrelated.

Definition sample_referral_no_glue_parsed : parsed_response :=
  Eval vm_compute in decoded sample_referral_no_glue.

Definition sample_answer_parsed : parsed_response :=
  Eval vm_compute in decoded sample_answer.

Definition sample_answer_raw_parsed : parsed_response :=
  Eval vm_compute in decoded sample_answer_raw.

(** The query that the samples answer. *)
Definition sample_query : bytes :=
  Eval vm_compute in
    match build_dns_query 7 "example.com" with
    | Ret (_, query) => query
    | _ => []
    end.

(** [wire_name labels bs]: [bs] is each label of [labels] in turn, as one
    byte that holds its length followed by its characters as bytes. *)
Inductive wire_name : list string -> bytes -> Prop :=
| wire_nil : wire_name [] []
| wire_cons : forall label len rest bs,
    Byte.to_N len = N.of_nat (String.length label) ->
    wire_name rest bs ->
    wire_name (label :: rest) (len :: list_byte_of_string label ++ bs).

(** The bytes of the query built for a name, when it is built. *)
Definition query_of (entropy : N) (domain_name : string) : bytes :=
  match build_dns_query entropy domain_name with
  | Ret (_, query) => query
  | _ => []
  end.

(** ** More samples *)

(** A reply whose question name is a pointer to itself. *)
Definition sample_pointer_loop : bytes :=
  bytes_of [18; 52;  129; 128;  0; 1;  0; 0;  0; 0;  0; 0;  192; 12;
            0; 1;  0; 1].

(** A referral whose additional A record declares two bytes of rdata: the
    next server it names is a bytes object, the two bytes 1 and 2. *)
Definition sample_referral_raw : bytes :=
  bytes_of (sample_head 0 1 1
            ++ [192; 12;  0; 2;  0; 1;  0; 0; 1; 0;  0; 6;
                3; 110; 115; 49; 192; 12]
            ++ [3; 110; 115; 49; 192; 12;  0; 1;  0; 1;  0; 0; 0; 9;  0; 2;
                1; 2]).

Definition sample_referral_raw_parsed : parsed_response :=
  Eval vm_compute in decoded sample_referral_raw.

(** A socket on which [datagram] arrives once, and whose [sendto] raises
    from the second iteration on. *)
Definition refuses_second_send (datagram : bytes) : transport :=
  mk_transport (fun _ => 7)
    (fun i => match i with
              | O => Sent (RecvData datagram)
              | S _ => SendRaises OSError
              end).

(** [pointer_cycle message P]: every offset in [P] holds a pointer whose target is
    in [P] again. *)
Definition pointer_cycle (message : bytes) (P : N -> Prop) : Prop :=
  forall offset,
    P offset ->
    exists b0 b1,
      byte_at message offset = Some b0 /\ 192 <= b0 /\
      byte_at message (offset + 1) = Some b1 /\
      P ((b0 - 192) * 256 + b1).

(** The exceptions that decoding can raise. *)
Definition decode_error (e : exn) : Prop :=
  e = IndexError \/ e = StructError \/ e = UnicodeDecodeError.

(** A record whose numeric fields fit the widths they were unpacked from. *)
Definition fields_in_range (r : rr) : Prop :=
  rr_type r < 65536 /\ rr_class r < 65536 /\
  rr_ttl r < 4294967296 /\ rr_rdlength r < 65536.


(** [questions_span message n offset next]: [n] question entries laid out
    from [offset], each a name field followed by four bytes of type and
    class; the last one ends just before [next]. *)
Inductive questions_span (message : bytes) : nat -> N -> N -> Prop :=
| questions_none : forall offset,
    questions_span message 0 offset offset
| questions_one : forall n offset name_end next,
    field_end message offset name_end ->
    questions_span message n (name_end + 4) next ->
    questions_span message (S n) offset next.

(** ** Vocabulary for runs *)

Definition is_send (ev : event) : Prop :=
  match ev with
  | EvSendTo _ _ _ => True
  | _ => False
  end.

Definition is_sendb (ev : event) : bool :=
  match ev with
  | EvSendTo _ _ _ => true
  | _ => false
  end.

(** The number of queries sent in a trace. *)
Definition count_sends (events : list event) : nat :=
  List.length (filter is_sendb events).

(** Every query goes out and every reply is a referral: at each iteration
    [sendto] takes the query, a datagram arrives, decodes, holds no answer
    of type A and names a next server. *)
Definition always_referred (pfuel : nat) (tr : transport)
    (domain_name : string) : Prop :=
  forall i : nat,
    exists query datagram parsed ip,
      receives tr domain_name i query datagram /\
      parse_dns_response pfuel (firstn 512 datagram) = Ret parsed /\
      extract_answer_ips parsed = [] /\
      choose_next_server parsed = Some ip.

(** The sends of a trace: each goes to port 53, carries a query built for
    the domain name, follows the line that names its server and is followed
    at once by a receive. *)
Definition sends_are_paired (domain_name : string) (evs : list event) : Prop :=
  forall pre query server port post,
    evs = (pre ++ EvSendTo query server port :: post)%list ->
    port = 53 /\
    (exists entropy transaction_id,
        build_dns_query entropy domain_name = Ret (transaction_id, query)) /\
    (exists pre', pre = (pre' ++ [EvPrintServer server])%list) /\
    (exists reply post', post = EvRecvFrom 512 reply :: post').

(** ** Vocabulary for the earlier encoder *)

(** [randint(0, 65535)] takes its id at the [j]-th draw: that draw of 17
    bits is the first one below 65536, and it is [tid]. *)
Definition id_drawn (draws : nat -> N) (j : nat) (tid : N) : Prop :=
  getrandbits 17 (draws j) = tid /\ tid < 65536 /\
  forall j' : nat, (j' < j)%nat -> 65536 <= getrandbits 17 (draws j').




(** Seventeen-bit draws of which the first two are too large for an id. *)
Definition sample_draws (j : nat) : N :=
  match j with
  | O => 70000
  | S O => 131071
  | S (S _) => 4660
  end.

(** * Properties *)

(** ** The result monad *)

Lemma bind_Ret {A B : Type} (c : result A) (k : A -> result B) (b : B) :
  bind c k = Ret b -> exists a, c = Ret a /\ k a = Ret b.
Proof.
  destruct c as [a | e | ]; simpl; intros H; try discriminate.
  exists a; split; [reflexivity | exact H].
Qed.

(** Peels the binds of a computation that is known to return. *)
Ltac unbind H :=
  let a := fresh "v" in
  let Ha := fresh "Hv" in
  apply bind_Ret in H; destruct H as (a & Ha & H).

Tactic Notation "unbind_in" hyp(H) "as" simple_intropattern(a) ident(Ha) :=
  apply bind_Ret in H; destruct H as (a & Ha & H); cbv beta iota zeta in H.

(** ** Reading the buffer *)

Lemma index_Ret (message : bytes) (i b : N) :
  index message i = Ret b <-> byte_at message i = Some b.
Proof.
  unfold index, byte_at.
  destruct (nth_error message (N.to_nat i)); simpl; split; intros H;
    try discriminate; inversion H; reflexivity.
Qed.

Lemma byte_at_in_range (message : bytes) (i b : N) :
  byte_at message i = Some b -> i < N.of_nat (List.length message).
Proof.
  unfold byte_at. intros H.
  destruct (nth_error message (N.to_nat i)) eqn:E; [ | discriminate].
  assert (Hn : nth_error message (N.to_nat i) <> None) by congruence.
  apply nth_error_Some in Hn. lia.
Qed.

Lemma byte_at_is_byte (message : bytes) (i b : N) :
  byte_at message i = Some b -> exists x : byte, b = Byte.to_N x.
Proof.
  unfold byte_at. destruct (nth_error message (N.to_nat i)) as [x | ]; simpl;
    intros H; inversion H. exists x; reflexivity.
Qed.

Lemma byte_at_out_of_range (message : bytes) (i : N) :
  N.of_nat (List.length message) <= i -> index message i = Raise IndexError.
Proof.
  intros H. unfold index.
  destruct (nth_error message (N.to_nat i)) eqn:E; [ | reflexivity].
  assert (Hn : nth_error message (N.to_nat i) <> None) by congruence.
  apply nth_error_Some in Hn. lia.
Qed.

Lemma slice_length (message : bytes) (a b : N) :
  a <= b -> b <= N.of_nat (List.length message) ->
  List.length (slice message a b) = N.to_nat (b - a).
Proof.
  intros Hab Hb. unfold slice. rewrite length_firstn, length_skipn. lia.
Qed.

(** ** Length bytes and pointers *)

Lemma is_pointer_byte (x : byte) :
  is_pointer (Byte.to_N x) = (192 <=? Byte.to_N x).
Proof. destruct x; reflexivity. Qed.

Lemma land_63_byte (x : byte) :
  (192 <=? Byte.to_N x) = true -> N.land (Byte.to_N x) 63 = Byte.to_N x - 192.
Proof. destruct x; intros H; (reflexivity || discriminate H). Qed.

Lemma lor_shiftl_8 (x y : N) :
  y < 256 -> N.lor (N.shiftl x 8) y = x * 256 + y.
Proof.
  intros Hy.
  assert (Hland : N.land (N.shiftl x 8) y = 0).
  { apply N.bits_inj_0. intros n. rewrite N.land_spec.
    destruct (N.lt_ge_cases n 8) as [Hn | Hn].
    - rewrite N.shiftl_spec_low by exact Hn. reflexivity.
    - destruct (N.eq_dec y 0) as [-> | Hy0].
      + rewrite N.bits_0. apply andb_false_r.
      + rewrite (N.bits_above_log2 y n), andb_false_r; [reflexivity | ].
        apply N.lt_le_trans with 8; [ | exact Hn].
        apply N.log2_lt_pow2; [lia | exact Hy]. }
  rewrite <- N.lxor_lor by exact Hland.
  rewrite <- N.add_nocarry_lxor by exact Hland.
  rewrite N.shiftl_mul_pow2. reflexivity.
Qed.

Lemma pointer_target_arith (x y : byte) :
  192 <= Byte.to_N x ->
  pointer_target (Byte.to_N x) (Byte.to_N y)
  = (Byte.to_N x - 192) * 256 + Byte.to_N y.
Proof.
  intros H. unfold pointer_target.
  rewrite land_63_byte by (apply N.leb_le; exact H).
  apply lor_shiftl_8. pose proof (Byte.to_N_bounded y). lia.
Qed.

(** The three branches of the loop, told apart on the length byte. *)
Lemma length_byte_cases (x : byte) :
  (is_pointer (Byte.to_N x) = true /\ 192 <= Byte.to_N x) \/
  (is_pointer (Byte.to_N x) = false /\ Byte.to_N x = 0) \/
  (is_pointer (Byte.to_N x) = false /\ 0 < Byte.to_N x < 192).
Proof.
  rewrite is_pointer_byte.
  destruct (192 <=? Byte.to_N x) eqn:E.
  - left. split; [reflexivity | apply N.leb_le; exact E].
  - apply N.leb_gt in E. destruct (N.eq_dec (Byte.to_N x) 0) as [H0 | H0].
    + right; left. split; [reflexivity | exact H0].
    + right; right. split; [reflexivity | lia].
Qed.

Lemma decode_ascii_Ret (bs : bytes) (s : string) :
  decode_ascii bs = Ret s ->
  forallb is_ascii_byte bs = true /\ s = string_of_list_byte bs.
Proof.
  unfold decode_ascii. destruct (forallb is_ascii_byte bs); intros H;
    inversion H. split; reflexivity.
Qed.

(** ** Names *)

Lemma labels_at_in_range (message : bytes) (offset : N) (labels : list string) :
  labels_at message offset labels -> offset < N.of_nat (List.length message).
Proof.
  intros H; destruct H; eapply byte_at_in_range; eassumption.
Qed.

Ltac same_byte :=
  repeat match goal with
         | Ha : byte_at ?m ?o = Some ?a, Hb : byte_at ?m ?o = Some ?b |- _ =>
             rewrite Ha in Hb; inversion Hb; subst; clear Hb
         end.

Lemma field_end_deterministic (message : bytes) (offset e1 e2 : N) :
  field_end message offset e1 -> field_end message offset e2 -> e1 = e2.
Proof.
  intros H1. revert e2.
  induction H1 as [offset Hz | offset b0 b1 Hb Hp Hb1 | offset len next Hb Hl Hf IH];
    intros e2 H2; inversion H2; subst; same_byte; try reflexivity; try lia.
  apply IH. assumption.
Qed.

Lemma labels_at_deterministic (message : bytes) (offset : N)
    (l1 l2 : list string) :
  labels_at message offset l1 -> labels_at message offset l2 -> l1 = l2.
Proof.
  intros H1. revert l2.
  induction H1 as [offset Hz | offset len s rest Hb Hl Hs Hr IH
                  | offset b0 b1 labels Hb Hp Hb1 Hr IH];
    intros l2 H2; inversion H2; subst; same_byte; try reflexivity; try lia.
  - f_equal.
    + destruct Hs as (_ & _ & ->).
      match goal with H : label_at _ _ _ _ |- _ => destruct H as (_ & _ & ->) end.
      reflexivity.
    + apply IH. assumption.
  - apply IH. assumption.
Qed.

(** What a returning run of the loop has read, from any state of the loop. *)
Lemma parse_name_loop_sound (fuel : nat) (message : bytes) :
  forall (offset original_offset : N) (jumped : bool) (labels : list string)
         (name : string) (next : N),
    parse_name_loop fuel message offset original_offset jumped labels
    = Ret (name, next) ->
    (exists rest, labels_at message offset rest /\
                  name = join "." (labels ++ rest)) /\
    (if jumped then next = original_offset else field_end message offset next).
Proof.
  induction fuel as [ | fuel IH]; intros offset orig jumped labels name next H;
    simpl in H; [discriminate | ].
  unbind H. rename v into len. apply index_Ret in Hv.
  destruct (byte_at_is_byte _ _ _ Hv) as (x & ->).
  destruct (length_byte_cases x) as [(Hp & Hx) | [(Hp & Hx) | (Hp & Hx)]];
    rewrite Hp in H.
  - (* pointer *)
    unbind H. rename v into b1. apply index_Ret in Hv0.
    destruct (byte_at_is_byte _ _ _ Hv0) as (y & ->).
    rewrite pointer_target_arith in H by exact Hx.
    apply IH in H. destruct H as ((rest & Hrest & Hname) & Hnext).
    split.
    + exists rest. split; [ | exact Hname].
      eapply labels_pointer; eassumption.
    + destruct jumped; [exact Hnext | ].
      subst next. eapply field_pointer; eassumption.
  - (* terminator *)
    rewrite Hx in H. simpl in H. split.
    + exists []. split.
      * apply labels_end. rewrite Hv, Hx. reflexivity.
      * rewrite app_nil_r. destruct jumped; inversion H; reflexivity.
    + destruct jumped; inversion H; [reflexivity | ].
      apply field_zero. rewrite Hv, Hx. reflexivity.
  - (* label *)
    assert (Hnz : (Byte.to_N x =? 0) = false) by (apply N.eqb_neq; lia).
    rewrite Hnz in H. unbind H. rename v into label.
    apply decode_ascii_Ret in Hv0. destruct Hv0 as (Hascii & Hlabel).
    apply IH in H. destruct H as ((rest & Hrest & Hname) & Hnext).
    pose proof (labels_at_in_range _ _ _ Hrest) as Hin.
    split.
    + exists (label :: rest). split.
      * eapply labels_label; try eassumption.
        repeat split; [lia | exact Hascii | exact Hlabel].
      * rewrite Hname, <- app_assoc. reflexivity.
    + destruct jumped; [exact Hnext | ].
      eapply field_label; eassumption.
Qed.

Lemma parse_name_sound (fuel : nat) (message : bytes) (offset : N)
    (name : string) (next : N) :
  parse_name fuel message offset = Ret (name, next) ->
  (exists labels, labels_at message offset labels /\ name = join "." labels) /\
  field_end message offset next.
Proof.
  intros H. apply parse_name_loop_sound in H. exact H.
Qed.

Lemma is_pointer_true (message : bytes) (offset b : N) :
  byte_at message offset = Some b -> 192 <= b -> is_pointer b = true.
Proof.
  intros Hb Hp. destruct (byte_at_is_byte _ _ _ Hb) as (x & ->).
  rewrite is_pointer_byte. apply N.leb_le. exact Hp.
Qed.

Lemma is_pointer_false (message : bytes) (offset b : N) :
  byte_at message offset = Some b -> b < 192 -> is_pointer b = false.
Proof.
  intros Hb Hp. destruct (byte_at_is_byte _ _ _ Hb) as (x & ->).
  rewrite is_pointer_byte. apply N.leb_gt. exact Hp.
Qed.

Lemma pointer_target_at (message : bytes) (o0 o1 b0 b1 : N) :
  byte_at message o0 = Some b0 -> byte_at message o1 = Some b1 ->
  192 <= b0 -> pointer_target b0 b1 = (b0 - 192) * 256 + b1.
Proof.
  intros H0 H1 Hp.
  destruct (byte_at_is_byte _ _ _ H0) as (x & ->).
  destruct (byte_at_is_byte _ _ _ H1) as (y & ->).
  apply pointer_target_arith. exact Hp.
Qed.

(** A name that is there is decoded, given fuel for each length byte read. *)
Lemma parse_name_loop_complete (message : bytes) (offset : N)
    (labels : list string) :
  labels_at message offset labels ->
  exists (n : nat) (e : N),
    field_end message offset e /\
    forall (fuel : nat) (original_offset : N) (jumped : bool)
           (acc : list string),
      (n <= fuel)%nat ->
      parse_name_loop fuel message offset original_offset jumped acc
      = Ret (join "." (acc ++ labels),
             if jumped then original_offset else e).
Proof.
  induction 1 as [offset Hz | offset len s rest Hb Hl Hs Hr IH
                 | offset b0 b1 labels Hb Hp Hb1 Hr IH].
  - exists 1%nat, (offset + 1). split; [apply field_zero; exact Hz | ].
    intros [ | fuel] orig jumped acc Hfuel; [lia | ]. simpl.
    apply index_Ret in Hz. rewrite Hz. simpl. rewrite app_nil_r.
    destruct jumped; reflexivity.
  - destruct IH as (n & e & He & IH).
    exists (S n), e. split; [eapply field_label; eassumption | ].
    intros [ | fuel] orig jumped acc Hfuel; [lia | ]. simpl.
    rewrite (proj2 (index_Ret _ _ _) Hb). simpl.
    rewrite (is_pointer_false _ _ _ Hb) by lia.
    replace (len =? 0) with false by (symmetry; apply N.eqb_neq; lia).
    destruct Hs as (_ & Hascii & Hlabel).
    unfold decode_ascii. rewrite Hascii. simpl. rewrite <- Hlabel.
    rewrite IH by lia. rewrite <- app_assoc. reflexivity.
  - destruct IH as (n & e & He & IH).
    exists (S n), (offset + 2). split; [eapply field_pointer; eassumption | ].
    intros [ | fuel] orig jumped acc Hfuel; [lia | ]. simpl.
    rewrite (proj2 (index_Ret _ _ _) Hb). simpl.
    rewrite (is_pointer_true _ _ _ Hb Hp).
    rewrite (proj2 (index_Ret _ _ _) Hb1). simpl.
    rewrite (pointer_target_at _ _ _ _ _ Hb Hb1 Hp).
    rewrite IH by lia. destruct jumped; reflexivity.
Qed.

Lemma parse_name_complete (message : bytes) (offset : N)
    (labels : list string) :
  labels_at message offset labels ->
  exists (n : nat) (e : N),
    field_end message offset e /\
    forall fuel : nat,
      (n <= fuel)%nat ->
      parse_name fuel message offset = Ret (join "." labels, e).
Proof.
  intros H. destruct (parse_name_loop_complete _ _ _ H) as (n & e & He & Hrun).
  exists n, e. split; [exact He | ].
  intros fuel Hfuel. unfold parse_name. rewrite Hrun by exact Hfuel.
  reflexivity.
Qed.

(** ** Forward progress *)

Lemma field_end_progress (message : bytes) (offset next : N) :
  field_end message offset next ->
  offset + 1 <= next /\
  (forall b, byte_at message offset = Some b -> 192 <= b -> next = offset + 2).
Proof.
  induction 1 as [offset Hz | offset b0 b1 Hb Hp Hb1
                 | offset len next Hb Hl Hf IH].
  - split; [lia | ]. intros b Hb Hp. same_byte. lia.
  - split; [lia | ]. intros; reflexivity.
  - split; [lia | ]. intros b Hb' Hp. same_byte. lia.
Qed.

Lemma parse_name_progress (fuel : nat) (message : bytes) (offset : N)
    (name : string) (next : N) :
  parse_name fuel message offset = Ret (name, next) -> offset + 1 <= next.
Proof.
  intros H. apply parse_name_sound in H.
  destruct H as (_ & H). apply field_end_progress in H. tauto.
Qed.

(** ** Fixed-size fields *)

Lemma unpack_sized_Ret (size : nat) (bs hdr : bytes) :
  unpack_sized size bs = Ret hdr -> hdr = bs /\ List.length bs = size.
Proof.
  unfold unpack_sized. destruct (Nat.eqb (List.length bs) size) eqn:E;
    intros H; inversion H; subst. apply Nat.eqb_eq in E.
  split; [reflexivity | exact E].
Qed.

Lemma slice_full (message : bytes) (a n : N) :
  List.length (slice message a (a + n)) = N.to_nat n ->
  0 < n -> a + n <= N.of_nat (List.length message).
Proof.
  unfold slice. rewrite length_firstn, length_skipn. lia.
Qed.

(** Two bytes of a complete slice, as the big-endian number they hold. *)
Lemma be_uint_slice16 (message : bytes) (o n : N) (k : nat) :
  N.of_nat k + 2 <= n ->
  o + n <= N.of_nat (List.length message) ->
  be16_at message (o + N.of_nat k)
  = Some (be_uint (firstn 2 (skipn k (slice message o (o + n))))).
Proof.
  intros Hk Hn. unfold slice.
  rewrite skipn_firstn_comm, firstn_firstn, skipn_skipn.
  replace (Nat.min 2 (N.to_nat (o + n) - N.to_nat o - k)) with 2%nat by lia.
  assert (Hlen : (2 <= List.length (skipn (k + N.to_nat o) message))%nat)
    by (rewrite length_skipn; lia).
  unfold be16_at, byte_at.
  replace (N.to_nat (o + N.of_nat k)) with (k + N.to_nat o + 0)%nat by lia.
  replace (N.to_nat (o + N.of_nat k + 1)) with (k + N.to_nat o + 1)%nat by lia.
  rewrite <- !nth_error_skipn.
  destruct (skipn (k + N.to_nat o) message) as [ | x [ | y r]];
    simpl in Hlen; try lia.
  simpl. unfold be_uint. simpl. f_equal.
Qed.

(** ** One record *)

Lemma parse_resource_record_Ret (fuel : nat) (message : bytes) (offset : N)
    (r : rr) (next : N) :
  parse_resource_record fuel message offset = Ret (r, next) ->
  exists name_end,
    parse_name fuel message offset = Ret (rr_name r, name_end) /\
    name_end + 10 <= N.of_nat (List.length message) /\
    be16_at message name_end = Some (rr_type r) /\
    be16_at message (name_end + 8) = Some (rr_rdlength r) /\
    next = name_end + 10 + rr_rdlength r /\
    rdata_of fuel message (name_end + 10) r.
Proof.
  unfold parse_resource_record. intros H.
  unbind H. destruct v as (name, name_end). cbv beta iota zeta in H.
  unbind H. rename v into hdr.
  apply unpack_sized_Ret in Hv0. destruct Hv0 as (-> & Hlen).
  assert (Hin : name_end + 10 <= N.of_nat (List.length message))
    by (apply slice_full; [exact Hlen | lia]).
  pose proof (be_uint_slice16 message name_end 10 0) as Htype.
  pose proof (be_uint_slice16 message name_end 10 8) as Hrdlen.
  simpl N.of_nat in Htype, Hrdlen. rewrite N.add_0_r in Htype.
  specialize (Htype ltac:(lia) Hin). specialize (Hrdlen ltac:(lia) Hin).
  simpl skipn in Htype.
  set (hdr := slice message name_end (name_end + 10)) in *.
  set (rtype := be_uint (firstn 2 hdr)) in *.
  set (rdlength := be_uint (firstn 2 (skipn 8 hdr))) in *.
  unbind H. rename v into rdata. inversion H; subst r next; clear H.
  cbn [rr_name rr_type rr_rdlength rr_rdata].
  exists name_end. unfold rdata_of.
  cbn [rr_name rr_type rr_rdlength rr_rdata].
  repeat split; try assumption.
  - intros Ht Hl. rewrite Ht, Hl in Hv0. cbn [N.eqb Pos.eqb andb] in Hv0.
    inversion Hv0. reflexivity.
  - intros Ht. rewrite Ht in Hv0. cbn [N.eqb Pos.eqb andb] in Hv0.
    unbind Hv0. destruct v as (target, next'). cbn beta iota in Hv0.
    inversion Hv0. exists target, next'. split; [exact Hv1 | reflexivity].
  - intros Ht Hl. rewrite Ht in Hv0.
    replace (rdlength =? 4) with false in Hv0
      by (symmetry; apply N.eqb_neq; exact Hl).
    cbn [N.eqb Pos.eqb andb] in Hv0. inversion Hv0. reflexivity.
  - intros Ht1 Ht2.
    replace (rtype =? 1) with false in Hv0
      by (symmetry; apply N.eqb_neq; exact Ht1).
    replace (rtype =? 2) with false in Hv0
      by (symmetry; apply N.eqb_neq; exact Ht2).
    cbn [andb] in Hv0. inversion Hv0. reflexivity.
Qed.

Lemma parse_resource_record_complete (message : bytes)
    (offset name_end rtype rdlength : N) (owner : list string) :
  labels_at message offset owner ->
  field_end message offset name_end ->
  name_end + 10 <= N.of_nat (List.length message) ->
  be16_at message name_end = Some rtype ->
  be16_at message (name_end + 8) = Some rdlength ->
  (rtype = 2 -> exists target, labels_at message (name_end + 10) target) ->
  exists n : nat,
    forall fuel : nat,
      (n <= fuel)%nat ->
      exists r,
        parse_resource_record fuel message offset
        = Ret (r, name_end + 10 + rdlength).
Proof.
  intros Howner Hend Hin Htype Hrdlen Hns.
  destruct (parse_name_complete _ _ _ Howner) as (n1 & e & He & Hrun1).
  assert (e = name_end) by (eapply field_end_deterministic; eassumption).
  subst e.
  assert (Hrd : exists n2, rtype = 2 ->
            exists target e2, forall fuel, (n2 <= fuel)%nat ->
              parse_name fuel message (name_end + 10) = Ret (target, e2)).
  { destruct (N.eq_dec rtype 2) as [E | E].
    - destruct (Hns E) as (target & Ht).
      destruct (parse_name_complete _ _ _ Ht) as (n2 & e2 & _ & Hrun2).
      exists n2. intros _. exists (join "." target), e2. exact Hrun2.
    - exists 0%nat. intros E'. contradiction. }
  destruct Hrd as (n2 & Hrd).
  exists (Nat.max n1 n2). intros fuel Hfuel.
  unfold parse_resource_record.
  rewrite Hrun1 by lia. cbn [bind].
  unfold unpack_sized. rewrite slice_length by lia.
  replace (N.to_nat (name_end + 10 - name_end)) with 10%nat by lia.
  cbn [Nat.eqb bind].
  pose proof (be_uint_slice16 message name_end 10 0) as Htype'.
  pose proof (be_uint_slice16 message name_end 10 8) as Hrdlen'.
  cbn [N.of_nat Pos.of_succ_nat Pos.succ] in Htype', Hrdlen'.
  rewrite N.add_0_r in Htype'.
  specialize (Htype' ltac:(lia) Hin). specialize (Hrdlen' ltac:(lia) Hin).
  cbn [skipn] in Htype'.
  assert (Ht : be_uint (firstn 2 (slice message name_end (name_end + 10)))
               = rtype) by congruence.
  assert (Hl : be_uint (firstn 2 (skipn 8 (slice message name_end
                                              (name_end + 10))))
               = rdlength) by congruence.
  cbv zeta. rewrite Ht, Hl.
  destruct ((rtype =? 1) && (rdlength =? 4)).
  - cbn [bind]. eexists. reflexivity.
  - destruct (rtype =? 2) eqn:E2.
    + apply N.eqb_eq in E2. destruct (Hrd E2) as (target & e2 & Hrun2).
      rewrite Hrun2 by lia. cbn [bind]. eexists. reflexivity.
    + cbn [bind]. eexists. reflexivity.
Qed.

(** ** Runs of records *)

Lemma parse_rr_loop_sound (fuel : nat) (message : bytes) :
  forall (count : nat) (offset : N) (acc records : list rr) (next : N),
    parse_rr_loop fuel message count offset acc = Ret (records, next) ->
    exists new,
      records = (acc ++ new)%list /\
      List.length new = count /\
      records_span message count offset next /\
      Forall (fun r => exists o e,
                  parse_resource_record fuel message o = Ret (r, e)) new.
Proof.
  induction count as [ | count IH]; intros offset acc records next H.
  - simpl in H. inversion H; subst. exists []. rewrite app_nil_r.
    repeat split; [apply span_none | constructor].
  - cbn [parse_rr_loop] in H. unbind H. destruct v as (r, offset').
    cbv beta iota zeta in H.
    apply IH in H. destruct H as (new & -> & Hlen & Hspan & Hall).
    exists (r :: new). rewrite <- app_assoc.
    destruct (parse_resource_record_Ret _ _ _ _ _ Hv)
      as (name_end & Hname & Hin & Htype & Hrdlen & -> & Hrdata).
    apply parse_name_sound in Hname. destruct Hname as (_ & Hfield).
    repeat split.
    + simpl. f_equal. exact Hlen.
    + eapply span_record; eassumption.
    + constructor; [ | exact Hall]. exists offset, (name_end + 10 + rr_rdlength r).
      exact Hv.
Qed.

Lemma parse_rr_loop_complete (message : bytes) (count : nat) (offset : N) :
  wf_records message count offset ->
  exists n : nat,
    forall (fuel : nat) (acc : list rr),
      (n <= fuel)%nat ->
      exists new next,
        parse_rr_loop fuel message count offset acc
        = Ret ((acc ++ new)%list, next).
Proof.
  induction 1 as [offset | count offset owner name_end rtype rdlength
                             Howner Hend Hin Htype Hrdlen Hns Hrest IH].
  - exists 0%nat. intros fuel acc _. exists [], offset. simpl.
    rewrite app_nil_r. reflexivity.
  - destruct IH as (n2 & IH).
    destruct (parse_resource_record_complete _ _ _ _ _ _
                Howner Hend Hin Htype Hrdlen Hns) as (n1 & Hrec).
    exists (Nat.max n1 n2). intros fuel acc Hfuel.
    destruct (Hrec fuel ltac:(lia)) as (r & Hr).
    cbn [parse_rr_loop]. rewrite Hr. cbn [bind].
    destruct (IH fuel (acc ++ [r])%list ltac:(lia)) as (new & next & Hloop).
    exists (r :: new), next. rewrite Hloop, <- app_assoc. reflexivity.
Qed.

Lemma records_span_deterministic (message : bytes) (count : nat)
    (offset e1 e2 : N) :
  records_span message count offset e1 ->
  records_span message count offset e2 -> e1 = e2.
Proof.
  intros H1. revert e2.
  induction H1 as [offset | n offset name_end rdlength next Hf Hl Hs IH];
    intros e2 H2; inversion H2; subst; [reflexivity | ].
  match goal with
  | Hf' : field_end _ offset ?ne |- _ =>
      assert (ne = name_end) by (eapply field_end_deterministic; eassumption)
  end.
  subst. apply IH.
  match goal with
  | Ha : be16_at _ ?o = Some ?a, Hb : be16_at _ ?o = Some ?b |- _ =>
      rewrite Ha in Hb; inversion Hb; subst
  end.
  assumption.
Qed.

Lemma records_span_progress (message : bytes) (count : nat) (offset next : N) :
  records_span message count offset next ->
  offset + 11 * N.of_nat count <= next.
Proof.
  induction 1 as [offset | n offset name_end rdlength next Hf Hl Hs IH].
  - lia.
  - apply field_end_progress in Hf. destruct Hf as (Hf & _). lia.
Qed.

Lemma skip_questions_progress (fuel : nat) (message : bytes) :
  forall (qdcount : nat) (offset next : N),
    skip_questions fuel message qdcount offset = Ret next ->
    offset + 5 * N.of_nat qdcount <= next.
Proof.
  induction qdcount as [ | qdcount IH]; intros offset next H.
  - simpl in H. inversion H. lia.
  - cbn [skip_questions] in H. unbind H. destruct v as (name, e).
    cbv beta iota zeta in H.
    apply parse_name_progress in Hv. apply IH in H. lia.
Qed.

(** ** Selection of the next server *)

Lemma pyval_eqb_eq (a b : pyval) : pyval_eqb a b = true <-> a = b.
Proof.
  destruct a as [s | x], b as [t | y]; simpl; split; intros H;
    try discriminate; try reflexivity.
  - apply String.eqb_eq in H. congruence.
  - inversion H. apply String.eqb_refl.
  - destruct (list_eq_dec byte_eq_dec x y); [congruence | discriminate].
  - inversion H; subst. destruct (list_eq_dec byte_eq_dec y y);
      [reflexivity | contradiction].
Qed.

Lemma pyval_eqb_neq (a b : pyval) : pyval_eqb a b = false <-> a <> b.
Proof.
  split.
  - intros H E. apply pyval_eqb_eq in E. congruence.
  - intros H. destruct (pyval_eqb a b) eqn:E; [ | reflexivity].
    apply pyval_eqb_eq in E. contradiction.
Qed.

Lemma match_additional_first (ns : pyval) (additional_as : list rr) :
  forall (j : nat) (add : rr),
    nth_error additional_as j = Some add ->
    VStr (rr_name add) = ns ->
    (forall j' add', (j' < j)%nat -> nth_error additional_as j' = Some add' ->
                     VStr (rr_name add') <> ns) ->
    match_additional ns additional_as = Some (rr_rdata add).
Proof.
  induction additional_as as [ | a rest IH]; intros j add Hj Hname Hfirst.
  - destruct j; discriminate.
  - destruct j as [ | j]; simpl in Hj.
    + inversion Hj; subst a. cbn [match_additional].
      rewrite (proj2 (pyval_eqb_eq _ _) Hname). reflexivity.
    + cbn [match_additional]. rewrite (proj2 (pyval_eqb_neq _ _)).
      * apply (IH j); [exact Hj | exact Hname | ].
        intros j' add' Hlt Hn. apply (Hfirst (S j')); [lia | exact Hn].
      * apply (Hfirst 0%nat); [lia | reflexivity].
Qed.

Lemma match_additional_none (ns : pyval) (additional_as : list rr) :
  (forall add, In add additional_as -> VStr (rr_name add) <> ns) ->
  match_additional ns additional_as = None.
Proof.
  induction additional_as as [ | a rest IH]; intros H; [reflexivity | ].
  cbn [match_additional]. rewrite (proj2 (pyval_eqb_neq _ _)).
  - apply IH. intros add Hin. apply H. right. exact Hin.
  - apply H. left. reflexivity.
Qed.

Lemma match_ns_names_first (ns_names : list pyval) (additional_as : list rr)
    (ip : pyval) :
  first_glue_match ns_names additional_as ip ->
  match_ns_names ns_names additional_as = Some ip.
Proof.
  intros (i & ns & j & add & Hi & Hj & Hname & -> & Hfirst & Hbefore).
  revert i Hi Hbefore.
  induction ns_names as [ | n rest IH]; intros i Hi Hbefore.
  - destruct i; discriminate.
  - destruct i as [ | i]; simpl in Hi.
    + inversion Hi; subst n. cbn [match_ns_names].
      rewrite (match_additional_first ns additional_as j add Hj Hname Hfirst).
      reflexivity.
    + cbn [match_ns_names]. rewrite match_additional_none.
      * apply (IH i Hi). intros i' ns' add' Hlt Hn Hin.
        apply (Hbefore (S i')); [lia | exact Hn | exact Hin].
      * intros add' Hin. apply (Hbefore 0%nat); [lia | reflexivity | exact Hin].
Qed.

Lemma match_ns_names_none (ns_names : list pyval) (additional_as : list rr) :
  no_glue_match ns_names additional_as ->
  match_ns_names ns_names additional_as = None.
Proof.
  unfold no_glue_match.
  induction ns_names as [ | n rest IH]; intros H; [reflexivity | ].
  cbn [match_ns_names]. rewrite match_additional_none.
  - apply IH. intros ns add Hns Hadd. apply H; [right; exact Hns | exact Hadd].
  - intros add Hadd. apply H; [left; reflexivity | exact Hadd].
Qed.

(** Every pair of lists has a first match or none. *)
Lemma match_additional_cases (ns : pyval) (additional_as : list rr) :
  (exists j add,
      nth_error additional_as j = Some add /\ VStr (rr_name add) = ns /\
      (forall j' add', (j' < j)%nat ->
                       nth_error additional_as j' = Some add' ->
                       VStr (rr_name add') <> ns)) \/
  (forall add, In add additional_as -> VStr (rr_name add) <> ns).
Proof.
  induction additional_as as [ | a rest IH].
  - right. intros add [].
  - destruct (pyval_eqb (VStr (rr_name a)) ns) eqn:E.
    + left. exists 0%nat, a. apply pyval_eqb_eq in E.
      repeat split; [exact E | intros j' add' Hlt; lia].
    + apply pyval_eqb_neq in E. destruct IH as [(j & add & Hj & Hn & Hf) | IH].
      * left. exists (S j), add. repeat split; [exact Hj | exact Hn | ].
        intros [ | j'] add' Hlt Hnth; simpl in Hnth.
        -- inversion Hnth; subst. exact E.
        -- apply (Hf j'); [lia | exact Hnth].
      * right. intros add [<- | Hin]; [exact E | apply IH; exact Hin].
Qed.

Lemma glue_match_cases (ns_names : list pyval) (additional_as : list rr) :
  (exists ip, first_glue_match ns_names additional_as ip) \/
  no_glue_match ns_names additional_as.
Proof.
  induction ns_names as [ | n rest IH].
  - right. intros ns add [].
  - destruct (match_additional_cases n additional_as)
      as [(j & add & Hj & Hn & Hf) | Hnone].
    + left. exists (rr_rdata add), 0%nat, n, j, add.
      repeat split; try assumption. intros i' ns' add' Hlt. lia.
    + destruct IH as [(ip & i & ns & j & add & Hi & Hj & Hn & Hip & Hf & Hb) | IH].
      * left. exists ip, (S i), ns, j, add.
        repeat split; try assumption.
        intros [ | i'] ns' add' Hlt Hnth Hin; simpl in Hnth.
        -- inversion Hnth; subst. apply Hnone. exact Hin.
        -- apply (Hb i'); [lia | exact Hnth | exact Hin].
      * right. intros ns add [<- | Hns] Hadd;
          [apply Hnone; exact Hadd | apply IH; assumption].
Qed.

(** ** Collection of the answers *)

Lemma extract_loop_filter (answers : list rr) :
  forall ips,
    extract_loop answers ips
    = (ips ++ map rr_rdata (filter (fun r => rr_type r =? 1) answers))%list.
Proof.
  induction answers as [ | r rest IH]; intros ips; simpl.
  - rewrite app_nil_r. reflexivity.
  - destruct (rr_type r =? 1); rewrite IH; [ | reflexivity].
    simpl. rewrite <- app_assoc. reflexivity.
Qed.

Lemma extract_answer_ips_filter (parsed : parsed_response) :
  extract_answer_ips parsed
  = map rr_rdata (filter (fun r => rr_type r =? 1) (p_answers parsed)).
Proof. unfold extract_answer_ips. rewrite extract_loop_filter. reflexivity. Qed.

(** ** Whole responses *)

Lemma parse_resource_records_sound (fuel : nat) (message : bytes)
    (count offset : N) (records : list rr) (next : N) :
  parse_resource_records fuel message count offset = Ret (records, next) ->
  List.length records = N.to_nat count /\
  records_span message (N.to_nat count) offset next /\
  Forall (decoded_in fuel message) records.
Proof.
  unfold parse_resource_records. intros H.
  apply parse_rr_loop_sound in H.
  destruct H as (new & -> & Hlen & Hspan & Hall). simpl.
  repeat split; assumption.
Qed.

Lemma parse_dns_response_Ret (fuel : nat) (message : bytes)
    (parsed : parsed_response) :
  parse_dns_response fuel message = Ret parsed ->
  (12 <= List.length message)%nat /\
  Forall (decoded_in fuel message) (p_answers parsed) /\
  Forall (decoded_in fuel message) (p_authorities parsed) /\
  Forall (decoded_in fuel message) (p_additionals parsed).
Proof.
  unfold parse_dns_response. intros H.
  unbind_in H as header Hh. apply unpack_sized_Ret in Hh.
  destruct Hh as (-> & Hlen).
  unbind_in H as o0 Hq.
  unbind_in H as [answers o1] Han.
  unbind_in H as [authorities o2] Hns.
  unbind_in H as [additionals o3] Har.
  inversion H; subst parsed; clear H. cbn [p_answers p_authorities p_additionals].
  apply parse_resource_records_sound in Han, Hns, Har.
  split; [ | tauto].
  unfold slice in Hlen. rewrite length_firstn, length_skipn in Hlen. lia.
Qed.

Lemma parse_dns_response_short (fuel : nat) (message : bytes) :
  (List.length message < 12)%nat ->
  parse_dns_response fuel message = Raise StructError.
Proof.
  intros H. unfold parse_dns_response, unpack_sized.
  replace (Nat.eqb (List.length (slice message 0 12)) 12) with false;
    [reflexivity | ].
  symmetry. apply Nat.eqb_neq. unfold slice.
  rewrite length_firstn, length_skipn. lia.
Qed.

(** ** One pass through the loop *)

Lemma iteration_decoded (pfuel : nat) (tr : transport) (domain_name : string)
    (i : nat) (server : pyval) (query datagram : bytes)
    (parsed : parsed_response) :
  receives tr domain_name i query datagram ->
  parse_dns_response pfuel (firstn 512 datagram) = Ret parsed ->
  iteration pfuel tr domain_name i server
  = (([EvPrintServer server; EvSendTo query server 53;
       EvRecvFrom 512 (RecvData datagram); EvPrintReply parsed]
        ++ fst (decide parsed))%list,
     snd (decide parsed)).
Proof.
  intros ((tid & Hq) & Hr) Hp. unfold iteration.
  rewrite Hq, Hr, Hp. destruct (decide parsed) as (ev3, r). reflexivity.
Qed.

Lemma iteration_decode_error (pfuel : nat) (tr : transport)
    (domain_name : string) (i : nat) (server : pyval)
    (query datagram : bytes) (e : exn) :
  receives tr domain_name i query datagram ->
  parse_dns_response pfuel (firstn 512 datagram) = Raise e ->
  iteration pfuel tr domain_name i server
  = ([EvPrintServer server; EvSendTo query server 53;
      EvRecvFrom 512 (RecvData datagram)],
     Abort e).
Proof.
  intros ((tid & Hq) & Hr) Hp. unfold iteration.
  rewrite Hq, Hr, Hp. reflexivity.
Qed.

Lemma iteration_timeout (pfuel : nat) (tr : transport) (domain_name : string)
    (i : nat) (server : pyval) (transaction_id : N) (query : bytes) :
  build_dns_query (entropy_at tr i) domain_name = Ret (transaction_id, query) ->
  reply_at tr i = RecvTimeout ->
  iteration pfuel tr domain_name i server
  = ([EvPrintServer server; EvSendTo query server 53;
      EvRecvFrom 512 RecvTimeout; EvPrint timed_out_line],
     Break StopTimedOut).
Proof.
  intros Hq Hr. unfold iteration. rewrite Hq, Hr. reflexivity.
Qed.

(** The events of one pass: plain ones, followed, when and only when the
    receive timed out, by that receive and the report. *)
Lemma iteration_shape (pfuel : nat) (tr : transport) (domain_name : string)
    (i : nat) (server : pyval) (evs : list event) (r : step_result) :
  iteration pfuel tr domain_name i server = (evs, r) ->
  exists pre tail,
    evs = (pre ++ tail)%list /\ Forall plain_event pre /\
    ((r = Break StopTimedOut /\
      tail = [EvRecvFrom 512 RecvTimeout; EvPrint timed_out_line]) \/
     (r <> Break StopTimedOut /\ tail = [])).
Proof.
  unfold iteration.
  destruct (build_dns_query (entropy_at tr i) domain_name)
    as [(tid, query) | e | ].
  - destruct (reply_at tr i) as [e | [ | datagram]].
    + intros H; inversion H; subst. eexists; exists [].
      split; [rewrite app_nil_r; reflexivity | ].
      split; [repeat constructor | right; split; [discriminate | reflexivity]].
    + intros H; inversion H; subst.
      exists [EvPrintServer server; EvSendTo query server 53], 
             [EvRecvFrom 512 RecvTimeout; EvPrint timed_out_line].
      repeat split; [repeat constructor | left; split; reflexivity].
    + destruct (parse_dns_response pfuel (firstn 512 datagram)) as [parsed | e | ].
      * unfold decide.
        destruct (extract_answer_ips parsed);
          [destruct (choose_next_server parsed) | ];
          intros H; inversion H; subst; eexists; exists [];
          (split; [rewrite app_nil_r; reflexivity | ]);
          (split; [cbn; repeat constructor | right; split; [discriminate | reflexivity]]).
      * intros H; inversion H; subst. eexists; exists [].
        split; [rewrite app_nil_r; reflexivity | ].
        split; [cbn; repeat constructor | right; split; [discriminate | reflexivity]].
      * intros H; inversion H; subst. eexists; exists [].
        split; [rewrite app_nil_r; reflexivity | ].
        split; [cbn; repeat constructor | right; split; [discriminate | reflexivity]].
  - intros H; inversion H; subst. eexists; exists [].
    split; [rewrite app_nil_r; reflexivity | ].
    split; [repeat constructor | right; split; [discriminate | reflexivity]].
  - intros H; inversion H; subst. eexists; exists [].
    split; [rewrite app_nil_r; reflexivity | ].
    split; [repeat constructor | right; split; [discriminate | reflexivity]].
Qed.

(** ** The trace of a run *)

Lemma split_after_plain (a b pre post : list event) (x : event) :
  Forall plain_event a -> ~ plain_event x ->
  (a ++ b)%list = (pre ++ x :: post)%list ->
  exists pre', pre = (a ++ pre')%list /\ b = (pre' ++ x :: post)%list.
Proof.
  intros Ha Hx. revert pre.
  induction Ha as [ | y a Hy Ha IH]; intros pre H; simpl in H.
  - exists pre. split; [reflexivity | exact H].
  - destruct pre as [ | p pre]; simpl in H; inversion H; subst.
    + contradiction.
    + destruct (IH pre H2) as (pre' & -> & Hb).
      exists pre'. split; [reflexivity | exact Hb].
Qed.

Lemma split_before_suffix (l c pre post : list event) (x : event) :
  ~ In x c ->
  (l ++ c)%list = (pre ++ x :: post)%list ->
  exists post', l = (pre ++ x :: post')%list /\ post = (post' ++ c)%list.
Proof.
  intros Hx. revert pre.
  induction l as [ | y l IH]; intros pre H; simpl in H.
  - exfalso. apply Hx. rewrite H. apply in_or_app. right. left. reflexivity.
  - destruct pre as [ | p pre]; simpl in H; inversion H; subst.
    + exists l. split; reflexivity.
    + destruct (IH pre H2) as (post' & -> & Hp).
      exists post'. split; [reflexivity | exact Hp].
Qed.

Lemma plain_is_loop_event (ev : event) : plain_event ev -> loop_event ev.
Proof. destruct ev as [ | | | ? [ | ] | | | ]; simpl; tauto. Qed.

Lemma resolve_trace (pfuel : nat) (tr : transport) (domain_name : string) :
  forall (fuel i : nat) (server : pyval) (evs : list event) (o : outcome),
    resolve fuel pfuel tr domain_name i server = (evs, o) ->
    Forall loop_event evs /\
    forall pre bufsize post,
      evs = (pre ++ EvRecvFrom bufsize RecvTimeout :: post)%list ->
      post = [EvPrint timed_out_line] /\ o = Stopped StopTimedOut.
Proof.
  induction fuel as [ | fuel IH]; intros i server evs o H.
  - simpl in H. inversion H; subst. split; [constructor | ].
    intros [ | ? ?] ? ? Hsplit; discriminate Hsplit.
  - cbn [resolve] in H.
    destruct (iteration pfuel tr domain_name i server) as (evs0, r) eqn:Hit.
    destruct (iteration_shape _ _ _ _ _ _ _ Hit)
      as (pre0 & tail & -> & Hplain & Htail).
    assert (Hloop0 : Forall loop_event (pre0 ++ tail)).
    { apply Forall_app. split.
      - eapply Forall_impl; [apply plain_is_loop_event | exact Hplain].
      - destruct Htail as [(_ & ->) | (_ & ->)]; repeat constructor. }
    assert (Hlast : forall o',
               (r = Break StopTimedOut -> o' = Stopped StopTimedOut) ->
               forall pre bufsize post,
                 (pre0 ++ tail)%list
                 = (pre ++ EvRecvFrom bufsize RecvTimeout :: post)%list ->
                 post = [EvPrint timed_out_line] /\ o' = Stopped StopTimedOut).
    { intros o' Ho pre bufsize post Hsplit.
      apply split_after_plain in Hsplit; [ | exact Hplain | simpl; tauto].
      destruct Hsplit as (pre' & -> & Hsplit).
      destruct Htail as [(Hr & ->) | (_ & ->)].
      - specialize (Ho Hr).
        destruct pre' as [ | ? [ | ? [ | ? ?]]]; inversion Hsplit; subst.
        split; reflexivity.
      - destruct pre'; discriminate Hsplit. }
    destruct r as [s | next_server | e | ].
    + inversion H; subst. split; [exact Hloop0 | ].
      apply Hlast. intros Hr. inversion Hr. reflexivity.
    + destruct (resolve fuel pfuel tr domain_name (S i) next_server)
        as (evs', o') eqn:Hrest.
      inversion H; subst. apply IH in Hrest. destruct Hrest as (Hloop' & Hlast').
      split; [apply Forall_app; split; assumption | ].
      intros pre bufsize post Hsplit.
      destruct Htail as [(Hr & _) | (_ & ->)]; [discriminate Hr | ].
      rewrite app_nil_r in Hsplit.
      apply split_after_plain in Hsplit; [ | exact Hplain | simpl; tauto].
      destruct Hsplit as (pre' & -> & Hsplit).
      eapply Hlast'. exact Hsplit.
    + inversion H; subst. split; [exact Hloop0 | ].
      apply Hlast. intros Hr. discriminate Hr.
    + inversion H; subst. split; [exact Hloop0 | ].
      apply Hlast. intros Hr. discriminate Hr.
Qed.

(** ** Packing *)

Lemma byte_of_N_small (n : N) :
  n <= 255 -> Byte.of_N n = Some (byte_of_N n) /\ Byte.to_N (byte_of_N n) = n.
Proof.
  intros H. pose proof (Byte.to_of_N_option_map n) as E.
  replace (n <=? 255) with true in E by (symmetry; apply N.leb_le; exact H).
  unfold byte_of_N. destruct (Byte.of_N n) as [b | ]; simpl in E;
    inversion E. split; reflexivity.
Qed.

Lemma of_N_big (n : N) : 255 < n -> Byte.of_N n = None.
Proof.
  intros H. pose proof (Byte.to_of_N_option_map n) as E.
  replace (n <=? 255) with false in E by (symmetry; apply N.leb_gt; exact H).
  destruct (Byte.of_N n); [discriminate E | reflexivity].
Qed.

Lemma pack_B_small (n : N) : n <= 255 -> pack_B n = Ret [byte_of_N n].
Proof.
  intros H. unfold pack_B. destruct (byte_of_N_small n H) as (-> & _).
  reflexivity.
Qed.

Lemma pack_B_big (n : N) : 255 < n -> pack_B n = Raise StructError.
Proof. intros H. unfold pack_B. rewrite of_N_big by exact H. reflexivity. Qed.

Lemma pack_H_small (n : N) :
  n < 65536 -> pack_H n = Ret [byte_of_N (n / 256); byte_of_N (n mod 256)].
Proof.
  intros H. unfold pack_H.
  assert (Hhi : n / 256 <= 255).
  { apply N.lt_succ_r. apply N.Div0.div_lt_upper_bound. lia. }
  assert (Hlo : n mod 256 <= 255).
  { pose proof (N.mod_upper_bound n 256). lia. }
  destruct (byte_of_N_small _ Hhi) as (-> & _).
  destruct (byte_of_N_small _ Hlo) as (-> & _).
  reflexivity.
Qed.

(** ** Strings *)

Lemma split_dot_nonempty (s : string) : split_dot s <> [].
Proof.
  destruct s as [ | c r]; simpl; [discriminate | ].
  destruct (Ascii.eqb c "."); [discriminate | ].
  destruct (split_dot r); discriminate.
Qed.

Lemma concat_cons2 (sep x y : string) (r : list string) :
  String.concat sep (x :: y :: r)
  = (x ++ sep ++ String.concat sep (y :: r))%string.
Proof. reflexivity. Qed.

Lemma join_split_dot (s : string) : join "." (split_dot s) = s.
Proof.
  unfold join. induction s as [ | c r IH]; [reflexivity | ].
  cbn [split_dot]. destruct (Ascii.eqb c ".") eqn:E.
  - apply Ascii.eqb_eq in E. subst c.
    destruct (split_dot r) as [ | h t] eqn:Er;
      [exfalso; exact (split_dot_nonempty r Er) | ].
    rewrite concat_cons2, IH. reflexivity.
  - destruct (split_dot r) as [ | h t] eqn:Er;
      [exfalso; exact (split_dot_nonempty r Er) | ].
    destruct t as [ | h' t'].
    + simpl in IH. simpl. rewrite IH. reflexivity.
    + rewrite concat_cons2 in IH. rewrite concat_cons2, <- IH. reflexivity.
Qed.

Lemma ascii_char_byte (c : ascii) :
  is_ascii_byte (byte_of_ascii c) = is_ascii_char c.
Proof.
  unfold is_ascii_byte, is_ascii_char. f_equal.
  pose proof (byte_of_ascii_via_N c) as E. symmetry in E.
  apply Byte.to_of_N in E. exact E.
Qed.

Lemma list_byte_of_string_cons (c : ascii) (s : string) :
  list_byte_of_string (String c s) = byte_of_ascii c :: list_byte_of_string s.
Proof. reflexivity. Qed.

Lemma ascii_string_bytes (s : string) :
  forallb is_ascii_byte (list_byte_of_string s) = string_forallb is_ascii_char s.
Proof.
  induction s as [ | c r IH]; [reflexivity | ].
  rewrite list_byte_of_string_cons. cbn [forallb string_forallb].
  rewrite ascii_char_byte, IH. reflexivity.
Qed.

Lemma list_byte_of_string_length (s : string) :
  List.length (list_byte_of_string s) = String.length s.
Proof.
  induction s as [ | c r IH]; [reflexivity | ].
  rewrite list_byte_of_string_cons. simpl. rewrite IH. reflexivity.
Qed.

(** ** Encoding of the question name *)

Lemma encodable_label_true (label : string) :
  encodable_label label = true ->
  N.of_nat (String.length label) <= 255 /\
  string_forallb is_ascii_char label = true.
Proof.
  unfold encodable_label. intros H. apply andb_true_iff in H.
  destruct H as (H1 & H2). apply N.leb_le in H1. split; assumption.
Qed.

Lemma encode_labels_ok (labels : list string) :
  forallb encodable_label labels = true ->
  forall acc, encode_labels labels acc = Ret (acc ++ wire_labels labels)%list.
Proof.
  induction labels as [ | label rest IH]; intros H acc.
  - simpl. rewrite app_nil_r. reflexivity.
  - cbn [forallb] in H. apply andb_true_iff in H. destruct H as (Hl & Hrest).
    apply encodable_label_true in Hl. destruct Hl as (Hlen & Hascii).
    cbn [encode_labels]. rewrite pack_B_small by exact Hlen. cbn [bind].
    unfold encode_ascii. rewrite Hascii. cbn [bind].
    rewrite IH by exact Hrest. cbn [wire_labels flat_map].
    f_equal. rewrite <- !app_assoc. reflexivity.
Qed.

Lemma encode_labels_fails (labels : list string) :
  forallb encodable_label labels = false ->
  forall acc, exists e, encode_labels labels acc = Raise e.
Proof.
  induction labels as [ | label rest IH]; intros H acc; [discriminate H | ].
  cbn [forallb] in H. cbn [encode_labels].
  destruct (N.of_nat (String.length label) <=? 255) eqn:Elen.
  - apply N.leb_le in Elen. rewrite pack_B_small by exact Elen. cbn [bind].
    unfold encode_ascii.
    destruct (string_forallb is_ascii_char label) eqn:Eascii.
    + cbn [bind]. apply IH. unfold encodable_label in H.
      apply N.leb_le in Elen. rewrite Elen, Eascii in H. exact H.
    + exists UnicodeEncodeError. reflexivity.
  - apply N.leb_gt in Elen. rewrite pack_B_big by exact Elen.
    exists StructError. reflexivity.
Qed.

Lemma build_dns_query_ok (entropy : N) (domain_name : string) :
  forallb encodable_label (split_dot domain_name) = true ->
  build_dns_query entropy domain_name
  = Ret (entropy mod 65536,
         ([byte_of_N (entropy mod 65536 / 256);
           byte_of_N ((entropy mod 65536) mod 256);
           x01; x00; x00; x01; x00; x00; x00; x00; x00; x00]
            ++ wire_labels (split_dot domain_name)
            ++ [x00; x00; x01; x00; x01])%list).
Proof.
  intros H. unfold build_dns_query, getrandbits.
  change (2 ^ 16) with 65536.
  cbn [pack_Hs]. rewrite pack_H_small
    by (apply N.mod_upper_bound; discriminate).
  cbn [bind].
  change (pack_H 256) with (Ret [x01; x00] : result bytes).
  change (pack_H 1) with (Ret [x00; x01] : result bytes).
  change (pack_H 0) with (Ret [x00; x00] : result bytes).
  cbn [bind app].
  rewrite encode_labels_ok by exact H. cbn [bind app].
  rewrite <- app_assoc. reflexivity.
Qed.

Lemma build_dns_query_fails (entropy : N) (domain_name : string) :
  forallb encodable_label (split_dot domain_name) = false ->
  exists e, build_dns_query entropy domain_name = Raise e.
Proof.
  intros H. unfold build_dns_query, getrandbits.
  change (2 ^ 16) with 65536.
  cbn [pack_Hs]. rewrite pack_H_small
    by (apply N.mod_upper_bound; discriminate).
  cbn [bind].
  change (pack_H 256) with (Ret [x01; x00] : result bytes).
  change (pack_H 1) with (Ret [x00; x01] : result bytes).
  change (pack_H 0) with (Ret [x00; x00] : result bytes).
  cbn [bind app].
  destruct (encode_labels_fails _ H []) as (e & ->).
  exists e. reflexivity.
Qed.

(** ** Decoding what the encoder wrote *)

Lemma byte_at_middle (pre post : bytes) (x : byte) :
  byte_at (pre ++ x :: post) (N.of_nat (List.length pre)) = Some (Byte.to_N x).
Proof.
  unfold byte_at. rewrite Nat2N.id, nth_error_app2 by lia.
  rewrite Nat.sub_diag. reflexivity.
Qed.

Lemma slice_middle (pre mid post : bytes) :
  slice (pre ++ mid ++ post) (N.of_nat (List.length pre))
        (N.of_nat (List.length pre) + N.of_nat (List.length mid))
  = mid.
Proof.
  unfold slice. rewrite Nat2N.id.
  replace (N.to_nat (N.of_nat (List.length pre) + N.of_nat (List.length mid))
           - List.length pre)%nat with (List.length mid) by lia.
  rewrite skipn_app, skipn_all, Nat.sub_diag. simpl.
  rewrite firstn_app, firstn_all, Nat.sub_diag. simpl.
  apply app_nil_r.
Qed.

Lemma plain_label_true (label : string) :
  plain_label label = true ->
  0 < N.of_nat (String.length label) < 192 /\
  string_forallb is_ascii_char label = true.
Proof.
  unfold plain_label. intros H.
  apply andb_true_iff in H. destruct H as (H & H3).
  apply andb_true_iff in H. destruct H as (H1 & H2).
  apply N.ltb_lt in H1, H2. repeat split; assumption.
Qed.

Lemma plain_labels_encodable (labels : list string) :
  forallb plain_label labels = true -> forallb encodable_label labels = true.
Proof.
  induction labels as [ | l rest IH]; [reflexivity | ].
  cbn [forallb]. intros H. apply andb_true_iff in H. destruct H as (Hl & Hr).
  apply plain_label_true in Hl. destruct Hl as (Hlen & Hascii).
  rewrite (IH Hr), andb_true_r. unfold encodable_label.
  rewrite Hascii, andb_true_r. apply N.leb_le. lia.
Qed.

Lemma wire_name_decodes (labels : list string) :
  forallb plain_label labels = true ->
  forall pre post : bytes,
    let message := (pre ++ wire_labels labels ++ x00 :: post)%list in
    labels_at message (N.of_nat (List.length pre)) labels /\
    field_end message (N.of_nat (List.length pre))
      (N.of_nat (List.length pre) + N.of_nat (List.length (wire_labels labels))
       + 1).
Proof.
  induction labels as [ | l rest IH]; intros H pre post message.
  - subst message. cbn [wire_labels flat_map app]. split.
    + apply labels_end. apply byte_at_middle.
    + replace (N.of_nat (List.length pre) + N.of_nat (@List.length byte []) + 1)
        with (N.of_nat (List.length pre) + 1) by (simpl; lia).
      apply field_zero. apply byte_at_middle.
  - cbn [forallb] in H. apply andb_true_iff in H. destruct H as (Hl & Hrest).
    apply plain_label_true in Hl. destruct Hl as (Hlen & Hascii).
    set (lb := byte_of_N (N.of_nat (String.length l))).
    set (bl := list_byte_of_string l).
    assert (Hlb : Byte.to_N lb = N.of_nat (String.length l))
      by (apply byte_of_N_small; lia).
    assert (Hbl : List.length bl = String.length l)
      by apply list_byte_of_string_length.
    assert (Hm : message
                 = (pre ++ lb :: (bl ++ wire_labels rest ++ x00 :: post))%list).
    { subst message. cbn [wire_labels flat_map]. fold (wire_labels rest).
      fold lb bl. rewrite <- !app_assoc. reflexivity. }
    assert (Hm1 : message
                  = ((pre ++ [lb]) ++ bl ++ wire_labels rest ++ x00 :: post)%list).
    { rewrite Hm, <- app_assoc. reflexivity. }
    assert (Hm2 : message
                  = ((pre ++ lb :: bl) ++ wire_labels rest ++ x00 :: post)%list).
    { rewrite Hm, <- app_assoc. reflexivity. }
    assert (Hb : byte_at message (N.of_nat (List.length pre))
                 = Some (N.of_nat (String.length l))).
    { rewrite Hm, byte_at_middle, Hlb. reflexivity. }
    assert (Hslice : slice message (N.of_nat (List.length pre) + 1)
                       (N.of_nat (List.length pre) + 1
                        + N.of_nat (String.length l)) = bl).
    { rewrite Hm1, <- Hbl.
      replace (N.of_nat (List.length pre) + 1)
        with (N.of_nat (List.length (pre ++ [lb])))
        by (rewrite length_app; simpl; lia).
      apply slice_middle. }
    destruct (IH Hrest (pre ++ lb :: bl)%list post) as (IHl & IHf).
    rewrite <- Hm2 in IHl, IHf.
    replace (N.of_nat (List.length (pre ++ lb :: bl)))
      with (N.of_nat (List.length pre) + 1 + N.of_nat (String.length l))
      in IHl, IHf by (rewrite length_app; simpl; lia).
    split.
    + eapply labels_label; [exact Hb | exact Hlen | | exact IHl].
      unfold label_at. rewrite Hslice. split; [ | split].
      * rewrite Hm1, !length_app. simpl. lia.
      * subst bl. rewrite ascii_string_bytes. exact Hascii.
      * subst bl. symmetry. apply string_of_list_byte_of_string.
    + eapply field_label; [exact Hb | exact Hlen | ].
      replace (N.of_nat (List.length pre)
               + N.of_nat (List.length (wire_labels (l :: rest))) + 1)
        with (N.of_nat (List.length pre) + 1 + N.of_nat (String.length l)
              + N.of_nat (List.length (wire_labels rest)) + 1).
      * exact IHf.
      * cbn [wire_labels flat_map]. fold (wire_labels rest). fold bl.
        rewrite length_app. simpl. lia.
Qed.

(** More fuel does not change a result that is not a lack of fuel. *)
Lemma parse_name_loop_fuel (message : bytes) :
  forall (fuel fuel' : nat) (offset original_offset : N) (jumped : bool)
         (labels : list string) (r : result (string * N)),
    parse_name_loop fuel message offset original_offset jumped labels = r ->
    r <> OutOfFuel -> (fuel <= fuel')%nat ->
    parse_name_loop fuel' message offset original_offset jumped labels = r.
Proof.
  induction fuel as [ | fuel IH];
    intros fuel' offset orig jumped labels r H Hr Hle.
  - simpl in H. congruence.
  - destruct fuel' as [ | fuel']; [lia | ].
    cbn [parse_name_loop] in H |- *.
    destruct (index message offset) as [len | e | ]; cbn [bind] in H |- *;
      try exact H.
    destruct (is_pointer len).
    + destruct (index message (offset + 1)) as [b1 | e | ];
        cbn [bind] in H |- *; try exact H.
      apply (IH fuel'); [exact H | exact Hr | lia].
    + destruct (len =? 0); [exact H | ].
      destruct (decode_ascii (slice message (offset + 1) (offset + 1 + len)))
        as [label | e | ]; cbn [bind] in H |- *; try exact H.
      apply (IH fuel'); [exact H | exact Hr | lia].
Qed.

(** A run of records that the decoder got through is well formed. *)
Lemma parse_rr_loop_wf (fuel : nat) (message : bytes) :
  forall (count : nat) (offset : N) (acc records : list rr) (next : N),
    parse_rr_loop fuel message count offset acc = Ret (records, next) ->
    wf_records message count offset.
Proof.
  induction count as [ | count IH]; intros offset acc records next H.
  - apply wf_none.
  - cbn [parse_rr_loop] in H. unbind_in H as [r offset'] Hr.
    apply IH in H.
    destruct (parse_resource_record_Ret _ _ _ _ _ Hr)
      as (name_end & Hname & Hin & Htype & Hrdlen & -> & Hrdata).
    apply parse_name_sound in Hname.
    destruct Hname as ((owner & Howner & _) & Hfield).
    eapply wf_record; try eassumption.
    intros Hns. destruct Hrdata as (_ & Hrd & _).
    destruct (Hrd Hns) as (target & e & Ht & _).
    apply parse_name_sound in Ht. destruct Ht as ((labels & Hl & _) & _).
    exists labels. exact Hl.
Qed.

(** * Main results *)

(** C1.  Whenever [parse_name] returns, the name it returns is the labels of
    the name at the start offset joined by dots, in their order (pointers
    followed), and the offset it returns is the end of the original field:
    just after the two bytes of the first pointer met, whatever pointers
    follow the jump, or just after the zero byte when the field holds no
    pointer. *)
Theorem parse_name_returns_name_and_field_end :
  forall (fuel : nat) (message : bytes) (offset : N) (name : string) (next : N),
    parse_name fuel message offset = Ret (name, next) ->
    (exists labels, labels_at message offset labels /\ name = join "." labels) /\
    field_end message offset next.
Proof.
  intros fuel message offset name next H.
  unfold parse_name in H. apply parse_name_loop_sound in H.
  destruct H as (Hname & Hnext). split; [ | exact Hnext].
  destruct Hname as (labels & Hlabels & Hjoin).
  exists labels. split; [exact Hlabels | exact Hjoin].
Qed.

Lemma parse_name_returns_name_and_field_end_witness :
  parse_name 10 sample_names 9 = Ret ("b.a"%string, 13) /\
  ((exists labels,
       labels_at sample_names 9 labels /\ "b.a"%string = join "." labels) /\
   field_end sample_names 9 13).
Proof.
  split; [reflexivity | ].
  apply (parse_name_returns_name_and_field_end 10 sample_names 9 "b.a" 13).
  reflexivity.
Defined.

(** C2.  On a buffer that holds [count] well-formed records,
    [parse_resource_records] returns, with one record per count, and the
    offset it returns is the end of the last record's declared rdata: each
    record moves the offset by its name field, the ten header bytes and the
    declared rdata length, whatever its type and whatever its rdata
    decoding read.  Any run that returns, returns this offset. *)
Theorem parse_resource_records_offset :
  forall (message : bytes) (count offset : N),
    wf_records message (N.to_nat count) offset ->
    exists next,
      records_span message (N.to_nat count) offset next /\
      (exists fuel records,
          parse_resource_records fuel message count offset
          = Ret (records, next) /\
          List.length records = N.to_nat count) /\
      (forall fuel records next',
          parse_resource_records fuel message count offset
          = Ret (records, next') ->
          next' = next).
Proof.
  intros message count offset Hwf.
  destruct (parse_rr_loop_complete _ _ _ Hwf) as (n & Hrun).
  destruct (Hrun n [] (le_n n)) as (new & next & Hret).
  change (parse_rr_loop n message (N.to_nat count) offset [])
    with (parse_resource_records n message count offset) in Hret.
  pose proof (parse_resource_records_sound _ _ _ _ _ _ Hret)
    as (Hlen & Hspan & _).
  exists next. split; [exact Hspan | ]. split.
  - exists n, ([] ++ new)%list. split; [exact Hret | exact Hlen].
  - intros fuel records next' H.
    apply parse_resource_records_sound in H. destruct H as (_ & Hspan' & _).
    eapply records_span_deterministic; eassumption.
Qed.

Lemma parse_resource_records_offset_witness :
  wf_records sample_records (N.to_nat 3) 13 /\
  exists next,
    records_span sample_records (N.to_nat 3) 13 next /\
    (exists fuel records,
        parse_resource_records fuel sample_records 3 13 = Ret (records, next) /\
        List.length records = N.to_nat 3) /\
    (forall fuel records next',
        parse_resource_records fuel sample_records 3 13 = Ret (records, next') ->
        next' = next).
Proof.
  assert (Hwf : wf_records sample_records (N.to_nat 3) 13).
  { eapply (parse_rr_loop_wf 5 sample_records (N.to_nat 3) 13 []).
    vm_compute. reflexivity. }
  split; [exact Hwf | ].
  apply (parse_resource_records_offset sample_records 3 13 Hwf).
Defined.

(** C9.  Whenever [parse_name] returns, the offset it returns is beyond the
    start offset: by one byte at least, and by two when the first byte read
    is a pointer.  So a run of one or more records started there ends ten
    bytes or more beyond the name, and a run of one or more questions four
    bytes or more beyond it. *)
Theorem parse_name_makes_progress :
  forall (fuel : nat) (message : bytes) (offset : N) (name : string) (next : N),
    parse_name fuel message offset = Ret (name, next) ->
    offset + 1 <= next /\
    (forall b, byte_at message offset = Some b -> 192 <= b ->
               offset + 2 <= next) /\
    (forall count records e,
        0 < count ->
        parse_resource_records fuel message count offset = Ret (records, e) ->
        next + 10 <= e) /\
    (forall qdcount e,
        skip_questions fuel message (S qdcount) offset = Ret e ->
        next + 4 <= e).
Proof.
  intros fuel message offset name next H.
  pose proof (parse_name_sound _ _ _ _ _ H) as (_ & Hfield).
  pose proof (field_end_progress _ _ _ Hfield) as (Hone & Htwo).
  split; [exact Hone | ]. split; [ | split].
  - intros b Hb Hp. rewrite (Htwo b Hb Hp). lia.
  - intros count records e Hpos Hrun. unfold parse_resource_records in Hrun.
    destruct (N.to_nat count) as [ | n] eqn:En; [lia | ].
    cbn [parse_rr_loop] in Hrun. unbind_in Hrun as [r offset'] Hr.
    destruct (parse_resource_record_Ret _ _ _ _ _ Hr)
      as (name_end & Hname & _ & _ & _ & -> & _).
    rewrite H in Hname. inversion Hname; subst name_end.
    apply parse_rr_loop_sound in Hrun.
    destruct Hrun as (_ & _ & _ & Hspan & _).
    apply records_span_progress in Hspan. lia.
  - intros qdcount e Hrun. cbn [skip_questions] in Hrun.
    rewrite H in Hrun. cbn [bind] in Hrun.
    apply skip_questions_progress in Hrun. lia.
Qed.

Lemma parse_name_makes_progress_witness :
  parse_name 10 sample_names 7 = Ret ("a"%string, 9) /\
  7 + 1 <= 9 /\
  (forall b, byte_at sample_names 7 = Some b -> 192 <= b -> 7 + 2 <= 9) /\
  (forall count records e,
      0 < count ->
      parse_resource_records 10 sample_names count 7 = Ret (records, e) ->
      9 + 10 <= e) /\
  (forall qdcount e,
      skip_questions 10 sample_names (S qdcount) 7 = Ret e -> 9 + 4 <= e).
Proof.
  split; [reflexivity | ].
  apply (parse_name_makes_progress 10 sample_names 7 "a" 9).
  reflexivity.
Defined.

(** C3.  [choose_next_server] returns the rdata of the first additional A
    record whose owner name equals an NS target name of the authority
    section, NS names taken in section order and, for each, the A records in
    section order; with no such match and some additional A record, the
    rdata of the first additional A record; with no additional A record,
    nothing, and a run that has found no answer then stops with the report
    that no server was found (NO_PROGRESS).  One of the first two cases
    applies whenever there is an additional A record. *)
Theorem choose_next_server_selection :
  forall parsed : parsed_response,
    let ns_names := ns_targets parsed in
    let additional_as := additional_a_records parsed in
    (forall ip,
        first_glue_match ns_names additional_as ip ->
        choose_next_server parsed = Some ip) /\
    (no_glue_match ns_names additional_as ->
     forall first rest,
       additional_as = first :: rest ->
       choose_next_server parsed = Some (rr_rdata first)) /\
    (additional_as = [] ->
     choose_next_server parsed = None /\
     forall fuel pfuel tr domain_name i server query datagram,
       receives tr domain_name i query datagram ->
       parse_dns_response pfuel (firstn 512 datagram) = Ret parsed ->
       extract_answer_ips parsed = [] ->
       exists evs o,
         resolve (S fuel) pfuel tr domain_name i server = (evs, o) /\
         o = Stopped StopNoServer /\
         final_state o = Some NO_PROGRESS /\
         In (EvPrint no_server_line) evs) /\
    ((exists ip, first_glue_match ns_names additional_as ip) \/
     no_glue_match ns_names additional_as).
Proof.
  intros parsed ns_names additional_as.
  assert (Hunfold : choose_next_server parsed
                    = match match_ns_names ns_names additional_as with
                      | Some ip => Some ip
                      | None => match additional_as with
                                | first :: _ => Some (rr_rdata first)
                                | [] => None
                                end
                      end) by reflexivity.
  split; [ | split; [ | split]].
  - intros ip Hmatch. rewrite Hunfold.
    rewrite (match_ns_names_first _ _ _ Hmatch). reflexivity.
  - intros Hnone first rest Hadds. rewrite Hunfold.
    rewrite (match_ns_names_none _ _ Hnone), Hadds. reflexivity.
  - intros Hempty.
    assert (Hchoose : choose_next_server parsed = None).
    { rewrite Hunfold, Hempty. rewrite match_ns_names_none; [reflexivity | ].
      intros ns add _ []. }
    split; [exact Hchoose | ].
    intros fuel pfuel tr domain_name i server query datagram Hrecv Hparse Hans.
    cbn [resolve].
    rewrite (iteration_decoded _ _ _ _ _ _ _ _ Hrecv Hparse).
    unfold decide. rewrite Hans, Hchoose. cbn [fst snd].
    eexists. eexists. split; [reflexivity | ].
    split; [reflexivity | ]. split; [reflexivity | ].
    apply in_or_app. right. left. reflexivity.
  - apply glue_match_cases.
Qed.

Lemma choose_next_server_selection_witness :
  choose_next_server sample_referral_parsed = Some (VStr "10.0.0.2") /\
  choose_next_server sample_referral_unrelated_parsed = Some (VStr "10.0.0.9") /\
  (choose_next_server sample_referral_no_glue_parsed = None /\
   exists evs o,
     resolve 1 5 (always_replies sample_referral_no_glue) "example.com" 0
       (VStr "198.41.0.4") = (evs, o) /\
     o = Stopped StopNoServer /\
     final_state o = Some NO_PROGRESS /\
     In (EvPrint no_server_line) evs).
Proof.
  split; [ | split].
  - apply (proj1 (choose_next_server_selection sample_referral_parsed)).
    exists 1%nat, (VStr "ns2.example.com"), 0%nat.
    eexists. split; [reflexivity | ]. split; [reflexivity | ].
    split; [reflexivity | ]. split; [reflexivity | ]. split.
    + intros j' add' Hlt. lia.
    + intros [ | i'] ns' add' Hlt Hnth Hin; [ | lia].
      inversion Hnth; subst. destruct Hin as [<- | []]. discriminate.
  - apply (proj1 (proj2 (choose_next_server_selection
                           sample_referral_unrelated_parsed))
             ltac:(intros ns add [<- | []] [<- | []]; discriminate)
             _ [] eq_refl).
  - destruct (proj1 (proj2 (proj2 (choose_next_server_selection
                                     sample_referral_no_glue_parsed)))
                eq_refl) as (Hnone & Hrun).
    split; [exact Hnone | ].
    apply (Hrun 0%nat 5%nat (always_replies sample_referral_no_glue)
             "example.com"%string 0%nat (VStr "198.41.0.4") sample_query
             sample_referral_no_glue).
    + split; [exists 7; reflexivity | reflexivity].
    + reflexivity.
    + reflexivity.
Defined.

Lemma skip_questions_span (fuel : nat) (message : bytes) :
  forall (qdcount : nat) (offset next : N),
    skip_questions fuel message qdcount offset = Ret next ->
    questions_span message qdcount offset next.
Proof.
  induction qdcount as [ | qdcount IH]; intros offset next H.
  - simpl in H. inversion H. apply questions_none.
  - cbn [skip_questions] in H. unbind_in H as [name name_end] Hname.
    apply parse_name_sound in Hname. destruct Hname as (_ & Hfield).
    eapply questions_one; [exact Hfield | exact (IH _ _ H)].
Qed.

Lemma header_field (message : bytes) (k : nat) :
  (12 <= List.length message)%nat ->
  N.of_nat k + 2 <= 12 ->
  be16_at message (N.of_nat k)
  = Some (be_uint (firstn 2 (skipn k (slice message 0 12)))).
Proof.
  intros Hlen Hk.
  pose proof (be_uint_slice16 message 0 12 k Hk) as H.
  rewrite !N.add_0_l in H. apply H. lia.
Qed.

(** ** Where the records lie *)

Lemma parse_rr_loop_records_at (fuel : nat) (message : bytes) :
  forall (count : nat) (offset : N) (acc records : list rr) (next : N),
    parse_rr_loop fuel message count offset acc = Ret (records, next) ->
    exists new,
      records = (acc ++ new)%list /\ records_at message offset new next.
Proof.
  induction count as [ | count IH]; intros offset acc records next H.
  - simpl in H. inversion H; subst. exists []. rewrite app_nil_r.
    split; [reflexivity | apply records_at_none].
  - cbn [parse_rr_loop] in H. unbind H. destruct v as (r, offset').
    cbv beta iota zeta in H.
    apply IH in H. destruct H as (new & -> & Hat).
    exists (r :: new). rewrite <- app_assoc. split; [reflexivity | ].
    destruct (parse_resource_record_Ret _ _ _ _ _ Hv)
      as (name_end & Hname & Hin & Htype & Hrdlen & -> & Hrdata).
    apply parse_name_sound in Hname. destruct Hname as (_ & Hfield).
    destruct Hrdata as (Hip & _ & Hraw & _).
    eapply records_at_record; try eassumption.
    intros Ha. split; intros Hlen; [exact (Hip Ha Hlen) | exact (Hraw Ha Hlen)].
Qed.

Lemma records_at_split (message : bytes) :
  forall (before : list rr) (r : rr) (after : list rr) (offset next : N),
    records_at message offset (before ++ r :: after) next ->
    exists record_start name_end,
      records_at message offset before record_start /\
      field_end message record_start name_end /\
      (rr_type r = 1 -> a_rdata_at message (name_end + 10) r).
Proof.
  induction before as [ | b before IH]; intros r after offset next H;
    simpl in H; inversion H; subst.
  - exists offset, name_end. split; [apply records_at_none | ].
    split; assumption.
  - match goal with
    | Hrest : records_at _ _ (before ++ r :: after) _ |- _ =>
        destruct (IH _ _ _ _ Hrest) as (record_start & name_end' & Hb & Hf & Ha)
    end.
    exists record_start, name_end'. split; [ | split; assumption].
    eapply records_at_record; eassumption.
Qed.

(** The answer records of a decoded response are the records laid out
    from the end of the question section. *)
Lemma answers_at (fuel : nat) (message : bytes) (parsed : parsed_response) :
  parse_dns_response fuel message = Ret parsed ->
  exists (qdcount answers_start answers_end : N),
    be16_at message 4 = Some qdcount /\
    questions_span message (N.to_nat qdcount) 12 answers_start /\
    be16_at message 6 = Some (N.of_nat (List.length (p_answers parsed))) /\
    records_at message answers_start (p_answers parsed) answers_end.
Proof.
  intros H.
  pose proof (parse_dns_response_Ret _ _ _ H) as (Hlen & _).
  unfold parse_dns_response in H.
  unbind_in H as header Hh. apply unpack_sized_Ret in Hh.
  destruct Hh as (-> & _).
  unbind_in H as o0 Hq.
  unbind_in H as [answers o1] Han.
  unbind_in H as [authorities o2] Hns.
  unbind_in H as [additionals o3] Har.
  inversion H; subst parsed; clear H.
  cbn [p_answers].
  pose proof (parse_resource_records_sound _ _ _ _ _ _ Han) as (Hcount & _).
  unfold parse_resource_records in Han.
  apply parse_rr_loop_records_at in Han. destruct Han as (new & -> & Hat).
  apply skip_questions_span in Hq.
  eexists. exists o0, o1.
  split; [exact (header_field message 4 Hlen ltac:(lia)) | ].
  split; [exact Hq | ].
  split; [ | exact Hat].
  cbn [app] in Hcount |- *. rewrite Hcount, N2Nat.id.
  exact (header_field message 6 Hlen ltac:(lia)).
Qed.

(** ** Answers *)

Lemma not_ipv4_bytes (raw : bytes) : ~ ipv4_string (VBytes raw).
Proof. intros (a & b & c & d & H). discriminate H. Qed.

Lemma a_record_collected (parsed : parsed_response) (r : rr) :
  In r (p_answers parsed) -> rr_type r = 1 ->
  In (rr_rdata r) (extract_answer_ips parsed).
Proof.
  intros Hin Htype. rewrite extract_answer_ips_filter.
  apply in_map. apply filter_In. split; [exact Hin | ].
  apply N.eqb_eq. exact Htype.
Qed.

Lemma resolve_answered (fuel pfuel : nat) (tr : transport)
    (domain_name : string) (i : nat) (server : pyval)
    (query datagram : bytes) (parsed : parsed_response) (r : rr) :
  receives tr domain_name i query datagram ->
  parse_dns_response pfuel (firstn 512 datagram) = Ret parsed ->
  In r (p_answers parsed) -> rr_type r = 1 ->
  resolve (S fuel) pfuel tr domain_name i server
  = ([EvPrintServer server; EvSendTo query server 53;
      EvRecvFrom 512 (RecvData datagram); EvPrintReply parsed],
     Stopped (StopAnswered (extract_answer_ips parsed))).
Proof.
  intros Hrecv Hparse Hin Htype. cbn [resolve].
  rewrite (iteration_decoded _ _ _ _ _ _ _ _ Hrecv Hparse).
  unfold decide.
  pose proof (a_record_collected _ _ Hin Htype) as Hips.
  destruct (extract_answer_ips parsed) as [ | ip ips]; [destruct Hips | ].
  reflexivity.
Qed.

(** C4, as the code has it.  When a reply decodes and its answer section
    holds a record of type A, the run stops there as answered, whatever the
    authority and additional sections hold, and its result is the rdata of
    the answer records of type A, in section order.  The answer records are
    the records that lie in the datagram from the end of the question
    section on, as many as the count at byte 6 says, and the rdata of each
    one of type A is read at its own place, ten bytes after its name field:
    the dotted decimal string of the four bytes there when the declared
    length is 4, the declared number of bytes there, as a bytes object, for
    any other length. *)
Theorem answer_records_end_the_run :
  forall (fuel pfuel : nat) (tr : transport) (domain_name : string) (i : nat)
         (server : pyval) (query datagram : bytes) (parsed : parsed_response),
    receives tr domain_name i query datagram ->
    parse_dns_response pfuel (firstn 512 datagram) = Ret parsed ->
    (exists r, In r (p_answers parsed) /\ rr_type r = 1) ->
    let ips :=
      map rr_rdata (filter (fun r => rr_type r =? 1) (p_answers parsed)) in
    (exists evs,
        resolve (S fuel) pfuel tr domain_name i server
        = (evs, Stopped (StopAnswered ips))) /\
    final_state (Stopped (StopAnswered ips)) = Some ANSWERED /\
    (exists (qdcount answers_start answers_end : N),
        be16_at (firstn 512 datagram) 4 = Some qdcount /\
        questions_span (firstn 512 datagram) (N.to_nat qdcount) 12
          answers_start /\
        be16_at (firstn 512 datagram) 6
        = Some (N.of_nat (List.length (p_answers parsed))) /\
        records_at (firstn 512 datagram) answers_start (p_answers parsed)
          answers_end).
Proof.
  intros fuel pfuel tr domain_name i server query datagram parsed
         Hrecv Hparse (r0 & Hin0 & Htype0) ips.
  split; [ | split; [reflexivity | ]].
  - eexists. subst ips. rewrite <- extract_answer_ips_filter.
    eapply resolve_answered; eassumption.
  - exact (answers_at _ _ _ Hparse).
Qed.

Lemma answer_records_end_the_run_witness :
  receives (always_replies sample_answer) "example.com" 0 sample_query
    sample_answer /\
  parse_dns_response 5 (firstn 512 sample_answer) = Ret sample_answer_parsed /\
  (exists r, In r (p_answers sample_answer_parsed) /\ rr_type r = 1) /\
  (exists evs,
      resolve 1 5 (always_replies sample_answer) "example.com" 0
        (VStr "198.41.0.4")
      = (evs, Stopped (StopAnswered [VStr "93.184.216.34"]))) /\
  (exists (qdcount answers_start answers_end : N),
      be16_at (firstn 512 sample_answer) 4 = Some qdcount /\
      questions_span (firstn 512 sample_answer) (N.to_nat qdcount) 12
        answers_start /\
      be16_at (firstn 512 sample_answer) 6
      = Some (N.of_nat (List.length (p_answers sample_answer_parsed))) /\
      records_at (firstn 512 sample_answer) answers_start
        (p_answers sample_answer_parsed) answers_end).
Proof.
  assert (Hrecv : receives (always_replies sample_answer) "example.com" 0
                    sample_query sample_answer)
    by (split; [exists 7; reflexivity | reflexivity]).
  assert (Hparse : parse_dns_response 5 (firstn 512 sample_answer)
                   = Ret sample_answer_parsed) by reflexivity.
  assert (Ha : exists r, In r (p_answers sample_answer_parsed) /\ rr_type r = 1)
    by (eexists; split; [left; reflexivity | reflexivity]).
  split; [exact Hrecv | ]. split; [exact Hparse | ]. split; [exact Ha | ].
  split.
  - exact (proj1 (answer_records_end_the_run 0 5 (always_replies sample_answer)
                    "example.com" 0 (VStr "198.41.0.4") sample_query
                    sample_answer sample_answer_parsed Hrecv Hparse Ha)).
  - exact (proj2 (proj2
             (answer_records_end_the_run 0 5 (always_replies sample_answer)
                "example.com" 0 (VStr "198.41.0.4") sample_query
                sample_answer sample_answer_parsed Hrecv Hparse Ha))).
Defined.

(** C4 as stated fails: this reply has an answer record of type A, the run
    stops as answered, and its result holds a bytes object, not an IPv4
    address string. *)
Lemma answered_result_not_address_strings :
  parse_dns_response 5 sample_answer_raw = Ret sample_answer_raw_parsed /\
  (exists r, In r (p_answers sample_answer_raw_parsed) /\ rr_type r = 1) /\
  snd (main 3 5 (always_replies sample_answer_raw) "example.com" "198.41.0.4")
  = Stopped (StopAnswered [VBytes [x01; x02]]) /\
  ~ Forall ipv4_string [VBytes [x01; x02]].
Proof.
  split; [reflexivity | ]. split.
  - eexists. split; [left; reflexivity | reflexivity].
  - split; [reflexivity | ].
    intros H. inversion H as [ | v l Hv Hl]. exact (not_ipv4_bytes _ Hv).
Qed.

(** C10.  An answer record of type A whose declared rdata length is not 4
    holds the raw rdata bytes, not an address string: the declared number
    of bytes that lie ten bytes after the name field of that record, the
    record being found in the datagram after the question section and the
    answer records before it.  [extract_answer_ips] selects by the type
    alone: what it returns is the rdata of the answer records of type A and
    of no other, whatever their length and rdata are, so this record is
    among them; and the run stops as answered with what
    [extract_answer_ips] returns as its result, the bytes object
    included. *)
Theorem raw_a_record_reaches_the_result :
  forall (fuel pfuel : nat) (tr : transport) (domain_name : string) (i : nat)
         (server : pyval) (query datagram : bytes) (parsed : parsed_response)
         (r : rr),
    receives tr domain_name i query datagram ->
    parse_dns_response pfuel (firstn 512 datagram) = Ret parsed ->
    In r (p_answers parsed) ->
    rr_type r = 1 ->
    rr_rdlength r <> 4 ->
    (exists (qdcount answers_start record_start name_end : N)
            (before after : list rr),
        be16_at (firstn 512 datagram) 4 = Some qdcount /\
        questions_span (firstn 512 datagram) (N.to_nat qdcount) 12
          answers_start /\
        p_answers parsed = (before ++ r :: after)%list /\
        records_at (firstn 512 datagram) answers_start before record_start /\
        field_end (firstn 512 datagram) record_start name_end /\
        rr_rdata r
        = VBytes (slice (firstn 512 datagram) (name_end + 10)
                        (name_end + 10 + rr_rdlength r))) /\
    ~ ipv4_string (rr_rdata r) /\
    extract_answer_ips parsed
    = map rr_rdata (filter (fun a => rr_type a =? 1) (p_answers parsed)) /\
    In (rr_rdata r) (extract_answer_ips parsed) /\
    (exists evs,
        resolve (S fuel) pfuel tr domain_name i server
        = (evs, Stopped (StopAnswered (extract_answer_ips parsed)))) /\
    final_state (Stopped (StopAnswered (extract_answer_ips parsed)))
    = Some ANSWERED.
Proof.
  intros fuel pfuel tr domain_name i server query datagram parsed r
         Hrecv Hparse Hin Htype Hlen.
  destruct (answers_at _ _ _ Hparse)
    as (qdcount & answers_start & answers_end & Hqd & Hq & _ & Hat).
  destruct (in_split _ _ Hin) as (before & after & Hsplit).
  rewrite Hsplit in Hat.
  destruct (records_at_split _ _ _ _ _ _ Hat)
    as (record_start & name_end & Hbefore & Hfield & Hrd).
  destruct (Hrd Htype) as (_ & Hraw). specialize (Hraw Hlen).
  split.
  { exists qdcount, answers_start, record_start, name_end, before, after.
    repeat split; assumption. }
  split; [rewrite Hraw; apply not_ipv4_bytes | ].
  split; [apply extract_answer_ips_filter | ].
  split; [exact (a_record_collected _ _ Hin Htype) | ].
  split; [ | reflexivity].
  eexists. eapply resolve_answered; eassumption.
Qed.

Lemma raw_a_record_reaches_the_result_witness :
  receives (always_replies sample_answer_raw) "example.com" 0 sample_query
    sample_answer_raw /\
  parse_dns_response 5 (firstn 512 sample_answer_raw)
  = Ret sample_answer_raw_parsed /\
  In (mk_rr "example.com" 1 1 256 2 (VBytes [x01; x02]))
     (p_answers sample_answer_raw_parsed) /\
  rr_rdlength (mk_rr "example.com" 1 1 256 2 (VBytes [x01; x02])) <> 4 /\
  extract_answer_ips sample_answer_raw_parsed = [VBytes [x01; x02]] /\
  exists evs,
    resolve 1 5 (always_replies sample_answer_raw) "example.com" 0
      (VStr "198.41.0.4")
    = (evs, Stopped (StopAnswered
                       (extract_answer_ips sample_answer_raw_parsed))).
Proof.
  assert (Hrecv : receives (always_replies sample_answer_raw) "example.com" 0
                    sample_query sample_answer_raw)
    by (split; [exists 7; reflexivity | reflexivity]).
  assert (Hparse : parse_dns_response 5 (firstn 512 sample_answer_raw)
                   = Ret sample_answer_raw_parsed) by reflexivity.
  assert (Hin : In (mk_rr "example.com" 1 1 256 2 (VBytes [x01; x02]))
                   (p_answers sample_answer_raw_parsed))
    by (left; reflexivity).
  assert (Hlen : rr_rdlength (mk_rr "example.com" 1 1 256 2
                                (VBytes [x01; x02])) <> 4) by discriminate.
  split; [exact Hrecv | ]. split; [exact Hparse | ]. split; [exact Hin | ].
  split; [exact Hlen | ].
  pose proof (raw_a_record_reaches_the_result 0 5
                (always_replies sample_answer_raw)
                "example.com" 0 (VStr "198.41.0.4") sample_query
                sample_answer_raw sample_answer_raw_parsed
                (mk_rr "example.com" 1 1 256 2 (VBytes [x01; x02]))
                Hrecv Hparse Hin eq_refl Hlen)
    as (_ & _ & Hsel & _ & Hrun & _).
  split; [exact Hsel | exact Hrun].
Defined.

(** C5, as the code has it.  When a reply does not decode, the exception of
    the decoder is caught nowhere: the run ends with it, uncaught, right
    after the receive, without any report and in none of the terminal
    states. *)
Theorem decode_failure_ends_the_run_uncaught :
  forall (fuel pfuel : nat) (tr : transport) (domain_name : string) (i : nat)
         (server : pyval) (query datagram : bytes) (e : exn),
    receives tr domain_name i query datagram ->
    parse_dns_response pfuel (firstn 512 datagram) = Raise e ->
    resolve (S fuel) pfuel tr domain_name i server
    = ([EvPrintServer server; EvSendTo query server 53;
        EvRecvFrom 512 (RecvData datagram)],
       Uncaught e) /\
    final_state (Uncaught e) = None.
Proof.
  intros fuel pfuel tr domain_name i server query datagram e Hrecv Hparse.
  split; [ | reflexivity]. cbn [resolve].
  rewrite (iteration_decode_error _ _ _ _ _ _ _ _ Hrecv Hparse). reflexivity.
Qed.

Lemma decode_failure_ends_the_run_uncaught_witness :
  receives (always_replies sample_label_overrun) "example.com" 0 sample_query
    sample_label_overrun /\
  parse_dns_response 5 (firstn 512 sample_label_overrun) = Raise IndexError /\
  resolve 1 5 (always_replies sample_label_overrun) "example.com" 0
    (VStr "198.41.0.4")
  = ([EvPrintServer (VStr "198.41.0.4");
      EvSendTo sample_query (VStr "198.41.0.4") 53;
      EvRecvFrom 512 (RecvData sample_label_overrun)],
     Uncaught IndexError) /\
  final_state (Uncaught IndexError) = None.
Proof.
  assert (Hrecv : receives (always_replies sample_label_overrun) "example.com"
                    0 sample_query sample_label_overrun)
    by (split; [exists 7; reflexivity | reflexivity]).
  assert (Hparse : parse_dns_response 5 (firstn 512 sample_label_overrun)
                   = Raise IndexError) by reflexivity.
  split; [exact Hrecv | ]. split; [exact Hparse | ].
  exact (decode_failure_ends_the_run_uncaught 0 5
           (always_replies sample_label_overrun) "example.com" 0
           (VStr "198.41.0.4") sample_query sample_label_overrun IndexError
           Hrecv Hparse).
Defined.

(** C5 as stated fails: each of these replies fails to decode (ten bytes
    only; a label that runs past the end; a pointer past the end), and the
    run ends by the uncaught exception, in no NO_PROGRESS state and with
    nothing reported after the receive. *)
Lemma decode_failure_is_not_no_progress :
  (snd (main 3 5 (always_replies sample_truncated) "example.com" "198.41.0.4")
   = Uncaught StructError /\
   snd (main 3 5 (always_replies sample_label_overrun) "example.com"
          "198.41.0.4")
   = Uncaught IndexError /\
   snd (main 3 5 (always_replies sample_bad_pointer) "example.com"
          "198.41.0.4")
   = Uncaught IndexError) /\
  final_state
    (snd (main 3 5 (always_replies sample_label_overrun) "example.com"
            "198.41.0.4"))
  <> Some NO_PROGRESS /\
  fst (main 3 5 (always_replies sample_label_overrun) "example.com"
         "198.41.0.4")
  = [EvSetTimeout 5; EvPrintServer (VStr "198.41.0.4");
     EvSendTo sample_query (VStr "198.41.0.4") 53;
     EvRecvFrom 512 (RecvData sample_label_overrun)].
Proof.
  split; [repeat split; reflexivity | ].
  split; [discriminate | reflexivity].
Qed.

(** C8.  The timeout of the socket is set once, before the loop, and no
    pass through the loop sets it again.  A receive that times out is
    followed by the report and the closing of the socket only: nothing is
    sent again, to the same server or to another, and the run ends in
    NO_PROGRESS.  This is what happens at any iteration whose receive times
    out. *)
Theorem timeout_is_set_once_and_ends_the_run :
  forall (fuel pfuel : nat) (tr : transport) (domain_name root_dns_ip : string)
         (events : list event) (o : outcome),
    main fuel pfuel tr domain_name root_dns_ip = (events, o) ->
    (exists rest,
        events = EvSetTimeout 5 :: rest /\
        forall seconds, ~ In (EvSetTimeout seconds) rest) /\
    (forall pre bufsize post,
        events = (pre ++ EvRecvFrom bufsize RecvTimeout :: post)%list ->
        post = [EvPrint timed_out_line; EvClose] /\
        o = Stopped StopTimedOut /\
        final_state o = Some NO_PROGRESS) /\
    (forall i server transaction_id query fuel',
        build_dns_query (entropy_at tr i) domain_name
        = Ret (transaction_id, query) ->
        reply_at tr i = RecvTimeout ->
        resolve (S fuel') pfuel tr domain_name i server
        = ([EvPrintServer server; EvSendTo query server 53;
            EvRecvFrom 512 RecvTimeout; EvPrint timed_out_line],
           Stopped StopTimedOut)).
Proof.
  intros fuel pfuel tr domain_name root_dns_ip events o H.
  unfold main in H.
  destruct (resolve fuel pfuel tr domain_name 0 (VStr root_dns_ip))
    as (evs, o') eqn:Hres.
  inversion H; subst events o'; clear H.
  destruct (resolve_trace _ _ _ _ _ _ _ _ Hres) as (Hloop & Hlast).
  set (closing := match o with Stopped _ => [EvClose] | _ => [] end).
  assert (Hclosing : Forall (fun ev => ev = EvClose) closing)
    by (subst closing; destruct o; repeat constructor).
  split; [ | split].
  - exists (evs ++ closing)%list. split; [reflexivity | ].
    intros seconds Hin. apply in_app_or in Hin. destruct Hin as [Hin | Hin].
    + rewrite Forall_forall in Hloop. exact (Hloop _ Hin).
    + rewrite Forall_forall in Hclosing. specialize (Hclosing _ Hin).
      discriminate Hclosing.
  - intros pre bufsize post Hsplit.
    destruct pre as [ | p pre]; [discriminate Hsplit | ].
    simpl in Hsplit. inversion Hsplit as [[Hp Hsplit']]. clear Hsplit.
    apply split_before_suffix in Hsplit'.
    + destruct Hsplit' as (post' & Hevs & ->).
      destruct (Hlast _ _ _ Hevs) as (-> & Ho).
      subst closing. rewrite Ho. repeat split.
    + intros Hin. rewrite Forall_forall in Hclosing.
      specialize (Hclosing _ Hin). discriminate Hclosing.
  - intros i server transaction_id query fuel' Hq Hr. cbn [resolve].
    rewrite (iteration_timeout _ _ _ _ _ _ _ Hq Hr). reflexivity.
Qed.

Lemma timeout_is_set_once_and_ends_the_run_witness :
  exists events,
    main 3 5 (replies_once sample_referral) "example.com" "198.41.0.4"
    = (events, Stopped StopTimedOut) /\
    (exists rest,
        events = EvSetTimeout 5 :: rest /\
        forall seconds, ~ In (EvSetTimeout seconds) rest) /\
    (forall pre bufsize post,
        events = (pre ++ EvRecvFrom bufsize RecvTimeout :: post)%list ->
        post = [EvPrint timed_out_line; EvClose]) /\
    resolve 2 5 (replies_once sample_referral) "example.com" 1 (VStr "10.0.0.2")
    = ([EvPrintServer (VStr "10.0.0.2");
        EvSendTo sample_query (VStr "10.0.0.2") 53;
        EvRecvFrom 512 RecvTimeout; EvPrint timed_out_line],
       Stopped StopTimedOut).
Proof.
  eexists. split; [vm_compute; reflexivity | ].
  pose proof (timeout_is_set_once_and_ends_the_run 3 5
                (replies_once sample_referral) "example.com" "198.41.0.4"
                _ _ eq_refl) as (Hset & Hlast & Hany).
  split; [exact Hset | ]. split.
  - intros pre bufsize post Hsplit. exact (proj1 (Hlast pre bufsize post Hsplit)).
  - exact (Hany 1%nat (VStr "10.0.0.2") 7 sample_query 1%nat eq_refl eq_refl).
Defined.

(** ** Queries *)

Lemma wire_labels_wire_name (labels : list string) :
  forallb encodable_label labels = true ->
  wire_name labels (wire_labels labels).
Proof.
  induction labels as [ | label rest IH]; intros H; [apply wire_nil | ].
  cbn [forallb] in H. apply andb_true_iff in H. destruct H as (Hl & Hrest).
  apply encodable_label_true in Hl. destruct Hl as (Hlen & _).
  cbn [wire_labels flat_map]. fold (wire_labels rest).
  change ((byte_of_N (N.of_nat (String.length label))
             :: list_byte_of_string label) ++ wire_labels rest)%list
    with (byte_of_N (N.of_nat (String.length label))
            :: list_byte_of_string label ++ wire_labels rest)%list.
  apply wire_cons; [ | exact (IH Hrest)].
  apply byte_of_N_small. exact Hlen.
Qed.

(** C7, as the code has it.  For a domain name whose labels are ASCII and
    at most 255 characters long, [build_dns_query] returns the transaction
    id it drew (16 random bits) together with these bytes exactly: the id
    as a big-endian 16-bit number, then flags 0x0100, qdcount 1, ancount 0,
    nscount 0 and arcount 0, then each label as one length byte and its
    ASCII bytes, then a zero byte, then type 1 and class 1 as big-endian
    16-bit numbers.  The result depends on the random bits and the name
    only. *)
Theorem build_dns_query_wire_format :
  forall (entropy : N) (domain_name : string),
    forallb encodable_label (split_dot domain_name) = true ->
    exists (hi lo : byte) (qname : bytes),
      getrandbits 16 entropy < 65536 /\
      Byte.to_N hi * 256 + Byte.to_N lo = getrandbits 16 entropy /\
      wire_name (split_dot domain_name) qname /\
      build_dns_query entropy domain_name
      = Ret (getrandbits 16 entropy,
             ([hi; lo; x01; x00; x00; x01; x00; x00; x00; x00; x00; x00]
                ++ qname ++ [x00; x00; x01; x00; x01])%list).
Proof.
  intros entropy domain_name H.
  assert (Hid : getrandbits 16 entropy < 65536)
    by (unfold getrandbits; apply N.mod_upper_bound; discriminate).
  assert (Hhi : getrandbits 16 entropy / 256 <= 255)
    by (apply N.lt_succ_r; apply N.Div0.div_lt_upper_bound; exact Hid).
  assert (Hlo : getrandbits 16 entropy mod 256 <= 255)
    by (pose proof (N.mod_upper_bound (getrandbits 16 entropy) 256); lia).
  exists (byte_of_N (getrandbits 16 entropy / 256)),
         (byte_of_N (getrandbits 16 entropy mod 256)),
         (wire_labels (split_dot domain_name)).
  split; [exact Hid | ]. split; [ | split].
  - rewrite (proj2 (byte_of_N_small _ Hhi)), (proj2 (byte_of_N_small _ Hlo)).
    pose proof (N.div_mod (getrandbits 16 entropy) 256). lia.
  - apply wire_labels_wire_name. exact H.
  - apply build_dns_query_ok. exact H.
Qed.

Lemma build_dns_query_wire_format_witness :
  forallb encodable_label (split_dot "example.com") = true /\
  exists (hi lo : byte) (qname : bytes),
    getrandbits 16 7 < 65536 /\
    Byte.to_N hi * 256 + Byte.to_N lo = getrandbits 16 7 /\
    wire_name (split_dot "example.com") qname /\
    build_dns_query 7 "example.com"
    = Ret (getrandbits 16 7,
           ([hi; lo; x01; x00; x00; x01; x00; x00; x00; x00; x00; x00]
              ++ qname ++ [x00; x00; x01; x00; x01])%list).
Proof.
  split; [reflexivity | ].
  apply (build_dns_query_wire_format 7 "example.com"). reflexivity.
Defined.

(** C7 as stated fails: a label of 256 characters has no one-byte length,
    and a character outside ASCII has no ASCII byte; the encoder raises on
    both and produces no bytes. *)
Lemma build_dns_query_raises :
  build_dns_query 7 (letters 256) = Raise StructError /\
  build_dns_query 7 (String (ascii_of_N 233) EmptyString)
  = Raise UnicodeEncodeError.
Proof. split; vm_compute; reflexivity. Qed.

(** C6, as the code has it.  For a domain name whose labels are ASCII, not
    empty and shorter than 192 characters, the query is built, the name at
    offset 12 of its bytes has the labels of the domain name, in order, and
    [parse_name] at offset 12 returns the domain name and the offset of the
    type field. *)
Theorem query_name_round_trip :
  forall (entropy : N) (domain_name : string),
    forallb plain_label (split_dot domain_name) = true ->
    exists (transaction_id : N) (query : bytes),
      build_dns_query entropy domain_name = Ret (transaction_id, query) /\
      labels_at query 12 (split_dot domain_name) /\
      exists n : nat,
        forall fuel : nat,
          (n <= fuel)%nat ->
          parse_name fuel query 12
          = Ret (domain_name, N.of_nat (List.length query) - 4).
Proof.
  intros entropy domain_name H.
  eexists. eexists.
  split; [apply build_dns_query_ok; apply plain_labels_encodable; exact H | ].
  set (header := [byte_of_N (entropy mod 65536 / 256);
                  byte_of_N ((entropy mod 65536) mod 256);
                  x01; x00; x00; x01; x00; x00; x00; x00; x00; x00]).
  destruct (wire_name_decodes _ H header [x00; x01; x00; x01])
    as (Hlabels & Hfield).
  change (N.of_nat (List.length header)) with 12 in Hlabels, Hfield.
  change (wire_labels (split_dot domain_name) ++ [x00; x00; x01; x00; x01])%list
    with (wire_labels (split_dot domain_name) ++ x00 :: [x00; x01; x00; x01])%list.
  split; [exact Hlabels | ].
  destruct (parse_name_complete _ _ _ Hlabels) as (n & e & He & Hrun).
  exists n. intros fuel Hfuel. rewrite (Hrun fuel Hfuel).
  rewrite join_split_dot. f_equal. f_equal.
  rewrite (field_end_deterministic _ _ _ _ He Hfield).
  rewrite !length_app.
  change (List.length header) with 12%nat.
  change (List.length [x00; x00; x01; x00; x01]) with 5%nat.
  lia.
Qed.

Lemma query_name_round_trip_witness :
  forallb plain_label (split_dot "example.com") = true /\
  exists (transaction_id : N) (query : bytes),
    build_dns_query 7 "example.com" = Ret (transaction_id, query) /\
    labels_at query 12 (split_dot "example.com") /\
    exists n : nat,
      forall fuel : nat,
        (n <= fuel)%nat ->
        parse_name fuel query 12
        = Ret ("example.com"%string, N.of_nat (List.length query) - 4).
Proof.
  split; [reflexivity | ].
  apply (query_name_round_trip 7 "example.com"). reflexivity.
Defined.

(** C6 as stated fails.  A label of 192 characters is within the 255 that
    the encoder accepts, but its length byte reads back as a pointer and
    [parse_name] raises, whatever the fuel.  And a name with a trailing dot
    has an empty last label, which reads back as the end of the name: the
    dot is lost. *)
Lemma query_name_does_not_round_trip :
  (build_dns_query 7 (letters 192) = Ret (7, query_of 7 (letters 192)) /\
   forall fuel name next,
     parse_name fuel (query_of 7 (letters 192)) 12 <> Ret (name, next)) /\
  (build_dns_query 7 "example.com." = Ret (7, query_of 7 "example.com.") /\
   forall fuel name next,
     parse_name fuel (query_of 7 "example.com.") 12 = Ret (name, next) ->
     name = "example.com"%string /\ name <> "example.com."%string).
Proof.
  split; split; try (vm_compute; reflexivity).
  - intros fuel name next H.
    assert (H10 : parse_name 10 (query_of 7 (letters 192)) 12
                  = Raise IndexError) by (vm_compute; reflexivity).
    unfold parse_name in H, H10.
    apply (parse_name_loop_fuel _ _ (Nat.max fuel 10)) in H;
      [ | discriminate | lia].
    apply (parse_name_loop_fuel _ _ (Nat.max fuel 10)) in H10;
      [ | discriminate | lia].
    rewrite H in H10. discriminate H10.
  - intros fuel name next H.
    assert (H10 : parse_name 10 (query_of 7 "example.com.") 12
                  = Ret ("example.com"%string, 25)) by (vm_compute; reflexivity).
    unfold parse_name in H, H10.
    apply (parse_name_loop_fuel _ _ (Nat.max fuel 10)) in H;
      [ | discriminate | lia].
    apply (parse_name_loop_fuel _ _ (Nat.max fuel 10)) in H10;
      [ | discriminate | lia].
    rewrite H in H10. inversion H10; subst. split; [reflexivity | discriminate].
Qed.

(** * Further properties of the decoder *)

Lemma bind_Raise {A B : Type} (c : result A) (k : A -> result B) (e : exn) :
  bind c k = Raise e -> c = Raise e \/ exists a, c = Ret a /\ k a = Raise e.
Proof.
  destruct c as [a | e' | ]; simpl; intros H; try discriminate.
  - right. exists a. split; [reflexivity | exact H].
  - left. inversion H. reflexivity.
Qed.

(** The name a run of the loop returns does not depend on the resume offset
    it carries. *)
Lemma parse_name_loop_jumped (message : bytes) :
  forall (fuel : nat) (offset original_offset : N) (jumped : bool)
         (labels : list string) (name : string) (next : N),
    parse_name_loop fuel message offset original_offset jumped labels
    = Ret (name, next) ->
    forall original_offset',
      parse_name_loop fuel message offset original_offset' true labels
      = Ret (name, original_offset').
Proof.
  induction fuel as [ | fuel IH];
    intros offset orig jumped labels name next H orig'; [discriminate H | ].
  cbn [parse_name_loop] in H |- *.
  destruct (index message offset) as [len | e | ]; cbn [bind] in H |- *;
    try discriminate H.
  destruct (is_pointer len).
  - destruct (index message (offset + 1)) as [b1 | e | ];
      cbn [bind] in H |- *; try discriminate H.
    exact (IH _ _ _ _ _ _ H orig').
  - destruct (len =? 0).
    + destruct jumped; inversion H; reflexivity.
    + destruct (decode_ascii (slice message (offset + 1) (offset + 1 + len)))
        as [label | e | ]; cbn [bind] in H |- *; try discriminate H.
      exact (IH _ _ _ _ _ _ H orig').
Qed.

(** X1.  Every name that is in the buffer is decoded: when the bytes at an
    offset spell the labels of a name, pointers followed, [parse_name]
    returns these labels joined by dots and the end of the name field, for
    every fuel from some bound on. *)
Theorem parse_name_decodes_every_name :
  forall (message : bytes) (offset : N) (labels : list string),
    labels_at message offset labels ->
    exists (n : nat) (next : N),
      field_end message offset next /\
      forall fuel : nat,
        (n <= fuel)%nat ->
        parse_name fuel message offset = Ret (join "." labels, next).
Proof.
  intros message offset labels H.
  destruct (parse_name_loop_complete _ _ _ H) as (n & e & He & Hrun).
  exists n, e. split; [exact He | ].
  intros fuel Hfuel. unfold parse_name.
  rewrite (Hrun fuel offset false [] Hfuel). reflexivity.
Qed.

Lemma parse_name_decodes_every_name_witness :
  labels_at sample_names 9 ["b"%string; "a"%string] /\
  exists (n : nat) (next : N),
    field_end sample_names 9 next /\
    forall fuel : nat,
      (n <= fuel)%nat ->
      parse_name fuel sample_names 9
      = Ret (join "." ["b"%string; "a"%string], next).
Proof.
  assert (H : labels_at sample_names 9 ["b"%string; "a"%string]).
  { eapply labels_label with (len := 1);
      [reflexivity | lia | repeat split; vm_compute; congruence | ].
    eapply labels_pointer with (b0 := 192) (b1 := 7);
      [reflexivity | lia | reflexivity | ].
    eapply labels_pointer with (b0 := 192) (b1 := 4);
      [reflexivity | lia | reflexivity | ].
    eapply labels_label with (len := 1);
      [reflexivity | lia | repeat split; vm_compute; congruence | ].
    apply labels_end. reflexivity. }
  split; [exact H | ].
  exact (parse_name_decodes_every_name sample_names 9 _ H).
Defined.

(** X2.  A pointer stands for the name it points to: when the two bytes at
    an offset are a pointer and [parse_name] decodes a name at the target,
    [parse_name] decodes the same name at the pointer, with one more unit of
    fuel, and resumes right after the two bytes. *)
Theorem pointer_decodes_as_its_target :
  forall (fuel : nat) (message : bytes) (offset b0 b1 : N) (name : string)
         (next : N),
    byte_at message offset = Some b0 ->
    192 <= b0 ->
    byte_at message (offset + 1) = Some b1 ->
    parse_name fuel message ((b0 - 192) * 256 + b1) = Ret (name, next) ->
    parse_name (S fuel) message offset = Ret (name, offset + 2).
Proof.
  intros fuel message offset b0 b1 name next Hb0 Hp Hb1 Htarget.
  unfold parse_name. cbn [parse_name_loop].
  rewrite (proj2 (index_Ret _ _ _) Hb0). cbn [bind].
  rewrite (is_pointer_true _ _ _ Hb0 Hp).
  rewrite (proj2 (index_Ret _ _ _) Hb1). cbn [bind].
  rewrite (pointer_target_at _ _ _ _ _ Hb0 Hb1 Hp).
  exact (parse_name_loop_jumped _ _ _ _ _ _ _ _ Htarget (offset + 2)).
Qed.

Lemma pointer_decodes_as_its_target_witness :
  byte_at sample_names 7 = Some 192 /\
  192 <= 192 /\
  byte_at sample_names (7 + 1) = Some 4 /\
  parse_name 3 sample_names ((192 - 192) * 256 + 4) = Ret ("a"%string, 7) /\
  parse_name 4 sample_names 7 = Ret ("a"%string, 7 + 2).
Proof.
  split; [reflexivity | ]. split; [lia | ]. split; [reflexivity | ].
  split; [reflexivity | ].
  apply (pointer_decodes_as_its_target 3 sample_names 7 192 4 "a" 7);
    [reflexivity | lia | reflexivity | reflexivity].
Defined.

Lemma parse_name_loop_cycle (message : bytes) (P : N -> Prop) :
  pointer_cycle message P ->
  forall (fuel : nat) (offset original_offset : N) (jumped : bool)
         (labels : list string),
    P offset ->
    parse_name_loop fuel message offset original_offset jumped labels
    = OutOfFuel.
Proof.
  intros Hcycle.
  induction fuel as [ | fuel IH]; intros offset orig jumped acc HP;
    [reflexivity | ].
  destruct (Hcycle offset HP) as (b0 & b1 & Hb0 & Hp & Hb1 & Hnext).
  cbn [parse_name_loop].
  rewrite (proj2 (index_Ret _ _ _) Hb0). cbn [bind].
  rewrite (is_pointer_true _ _ _ Hb0 Hp).
  rewrite (proj2 (index_Ret _ _ _) Hb1). cbn [bind].
  rewrite (pointer_target_at _ _ _ _ _ Hb0 Hb1 Hp).
  apply IH. exact Hnext.
Qed.

(** X3.  There is no guard against pointer loops: when the pointers of a
    buffer lead from a set of offsets back into that set, [parse_name]
    started at any of them neither returns nor raises, whatever the fuel. *)
Theorem pointer_cycle_never_ends :
  forall (message : bytes) (P : N -> Prop),
    pointer_cycle message P ->
    forall (fuel : nat) (offset : N),
      P offset ->
      parse_name fuel message offset = OutOfFuel.
Proof.
  intros message P Hcycle fuel offset HP. unfold parse_name.
  exact (parse_name_loop_cycle message P Hcycle fuel offset offset false []
           HP).
Qed.

Lemma pointer_cycle_never_ends_witness :
  pointer_cycle sample_pointer_loop (fun o => o = 12) /\
  forall fuel : nat, parse_name fuel sample_pointer_loop 12 = OutOfFuel.
Proof.
  assert (H : pointer_cycle sample_pointer_loop (fun o => o = 12)).
  { intros offset ->. exists 192, 12.
    split; [reflexivity | ]. split; [lia | ]. split; reflexivity. }
  split; [exact H | ].
  intros fuel.
  exact (pointer_cycle_never_ends sample_pointer_loop _ H fuel 12 eq_refl).
Defined.

(** ** What decoding raises *)

Lemma forallb_false {A : Type} (f : A -> bool) (l : list A) :
  forallb f l = false -> exists x, In x l /\ f x = false.
Proof.
  induction l as [ | a l IH]; simpl; intros H; [discriminate H | ].
  destruct (f a) eqn:E.
  - destruct (IH H) as (x & Hin & Hx). exists x. split; [right | ]; assumption.
  - exists a. split; [left; reflexivity | exact E].
Qed.

Lemma slice_incl (message : bytes) (a b : N) (x : byte) :
  In x (slice message a b) -> In x message.
Proof.
  unfold slice. intros H.
  rewrite <- (firstn_skipn (N.to_nat a) message). apply in_or_app. right.
  rewrite <- (firstn_skipn (N.to_nat b - N.to_nat a)
                (skipn (N.to_nat a) message)).
  apply in_or_app. left. exact H.
Qed.

Lemma decode_ascii_Raise (bs : bytes) (e : exn) :
  decode_ascii bs = Raise e ->
  e = UnicodeDecodeError /\ exists x, In x bs /\ 128 <= Byte.to_N x.
Proof.
  unfold decode_ascii. destruct (forallb is_ascii_byte bs) eqn:E;
    intros H; inversion H. split; [reflexivity | ].
  destruct (forallb_false _ _ E) as (x & Hin & Hx).
  exists x. split; [exact Hin | ].
  unfold is_ascii_byte in Hx. apply N.ltb_ge in Hx. exact Hx.
Qed.

Lemma index_Raise (message : bytes) (i : N) (e : exn) :
  index message i = Raise e -> e = IndexError.
Proof.
  unfold index. destruct (nth_error message (N.to_nat i));
    intros H; inversion H. reflexivity.
Qed.

Lemma parse_name_loop_Raise (message : bytes) :
  forall (fuel : nat) (offset original_offset : N) (jumped : bool)
         (labels : list string) (e : exn),
    parse_name_loop fuel message offset original_offset jumped labels
    = Raise e ->
    e = IndexError \/
    (e = UnicodeDecodeError /\ exists x, In x message /\ 128 <= Byte.to_N x).
Proof.
  induction fuel as [ | fuel IH]; intros offset orig jumped labels e H;
    [discriminate H | ].
  cbn [parse_name_loop] in H.
  apply bind_Raise in H. destruct H as [H | (len & _ & H)].
  { left. exact (index_Raise _ _ _ H). }
  destruct (is_pointer len).
  - apply bind_Raise in H. destruct H as [H | (b1 & _ & H)].
    + left. exact (index_Raise _ _ _ H).
    + exact (IH _ _ _ _ _ H).
  - destruct (len =? 0).
    + destruct jumped; discriminate H.
    + apply bind_Raise in H. destruct H as [H | (label & _ & H)].
      * right. apply decode_ascii_Raise in H.
        destruct H as (-> & x & Hin & Hx). split; [reflexivity | ].
        exists x. split; [exact (slice_incl _ _ _ _ Hin) | exact Hx].
      * exact (IH _ _ _ _ _ H).
Qed.

Lemma parse_name_Raise (fuel : nat) (message : bytes) (offset : N) (e : exn) :
  parse_name fuel message offset = Raise e -> decode_error e.
Proof.
  intros H. apply parse_name_loop_Raise in H. unfold decode_error.
  destruct H as [-> | (-> & _)]; tauto.
Qed.

Lemma unpack_sized_Raise (size : nat) (bs : bytes) (e : exn) :
  unpack_sized size bs = Raise e -> e = StructError.
Proof.
  unfold unpack_sized. destruct (Nat.eqb (List.length bs) size);
    intros H; inversion H. reflexivity.
Qed.

Lemma parse_resource_record_Raise (fuel : nat) (message : bytes) (offset : N)
    (e : exn) :
  parse_resource_record fuel message offset = Raise e -> decode_error e.
Proof.
  unfold parse_resource_record. intros H.
  apply bind_Raise in H. destruct H as [H | ((name, o1) & _ & H)].
  { exact (parse_name_Raise _ _ _ _ H). }
  cbv beta iota zeta in H.
  apply bind_Raise in H. destruct H as [H | (hdr & _ & H)].
  { apply unpack_sized_Raise in H. subst e. right. left. reflexivity. }
  apply bind_Raise in H. destruct H as [H | (rdata & _ & H)]; [ | discriminate H].
  destruct ((be_uint (firstn 2 hdr) =? 1)
            && (be_uint (firstn 2 (skipn 8 hdr)) =? 4)); [discriminate H | ].
  destruct (be_uint (firstn 2 hdr) =? 2); [ | discriminate H].
  apply bind_Raise in H. destruct H as [H | ((target, o2) & _ & H)].
  - exact (parse_name_Raise _ _ _ _ H).
  - discriminate H.
Qed.

Lemma parse_rr_loop_Raise (fuel : nat) (message : bytes) :
  forall (count : nat) (offset : N) (acc : list rr) (e : exn),
    parse_rr_loop fuel message count offset acc = Raise e -> decode_error e.
Proof.
  induction count as [ | count IH]; intros offset acc e H; [discriminate H | ].
  cbn [parse_rr_loop] in H.
  apply bind_Raise in H. destruct H as [H | ((r, o1) & _ & H)].
  - exact (parse_resource_record_Raise _ _ _ _ H).
  - exact (IH _ _ _ H).
Qed.

Lemma skip_questions_Raise (fuel : nat) (message : bytes) :
  forall (qdcount : nat) (offset : N) (e : exn),
    skip_questions fuel message qdcount offset = Raise e -> decode_error e.
Proof.
  induction qdcount as [ | qdcount IH]; intros offset e H; [discriminate H | ].
  cbn [skip_questions] in H.
  apply bind_Raise in H. destruct H as [H | ((name, o1) & _ & H)].
  - exact (parse_name_Raise _ _ _ _ H).
  - exact (IH _ _ H).
Qed.

(** X4.  Decoding signals a malformed reply by one of three exceptions only:
    [IndexError] (a read past the end), [struct.error] (a fixed-size header
    cut short) or [UnicodeDecodeError] (a label byte outside ASCII).  A name
    alone never raises [struct.error], and it raises [UnicodeDecodeError]
    only when the buffer holds a byte of 128 or more. *)
Theorem decoding_raises_three_exceptions :
  forall (fuel : nat) (message : bytes) (e : exn),
    (parse_dns_response fuel message = Raise e -> decode_error e) /\
    (forall count offset,
        parse_resource_records fuel message count offset = Raise e ->
        decode_error e) /\
    (forall offset,
        parse_name fuel message offset = Raise e ->
        e = IndexError \/
        (e = UnicodeDecodeError /\
         exists x, In x message /\ 128 <= Byte.to_N x)).
Proof.
  intros fuel message e. split; [ | split].
  - unfold parse_dns_response. intros H.
    apply bind_Raise in H. destruct H as [H | (header & _ & H)].
    { apply unpack_sized_Raise in H. subst e. right. left. reflexivity. }
    apply bind_Raise in H. destruct H as [H | (o0 & _ & H)].
    { exact (skip_questions_Raise _ _ _ _ _ H). }
    apply bind_Raise in H. destruct H as [H | ((answers, o1) & _ & H)].
    { exact (parse_rr_loop_Raise _ _ _ _ _ _ H). }
    cbv beta iota zeta in H.
    apply bind_Raise in H. destruct H as [H | ((authorities, o2) & _ & H)].
    { exact (parse_rr_loop_Raise _ _ _ _ _ _ H). }
    cbv beta iota zeta in H.
    apply bind_Raise in H. destruct H as [H | ((additionals, o3) & _ & H)].
    { exact (parse_rr_loop_Raise _ _ _ _ _ _ H). }
    discriminate H.
  - intros count offset H. exact (parse_rr_loop_Raise _ _ _ _ _ _ H).
  - intros offset H. exact (parse_name_loop_Raise _ _ _ _ _ _ _ H).
Qed.

Lemma decoding_raises_three_exceptions_witness :
  parse_dns_response 5 sample_label_overrun = Raise IndexError /\
  decode_error IndexError.
Proof.
  split; [reflexivity | ].
  exact (proj1 (decoding_raises_three_exceptions 5 sample_label_overrun
                  IndexError) eq_refl).
Defined.

(** X5.  A label whose length byte promises more bytes than the buffer
    holds is never returned shortened: [parse_name] raises, [IndexError] at
    the read after the label or [UnicodeDecodeError] on the bytes that are
    there. *)
Theorem label_past_the_end_raises :
  forall (fuel : nat) (message : bytes) (offset len : N),
    byte_at message offset = Some len ->
    0 < len < 192 ->
    N.of_nat (List.length message) <= offset + 1 + len ->
    parse_name (S (S fuel)) message offset = Raise IndexError \/
    parse_name (S (S fuel)) message offset = Raise UnicodeDecodeError.
Proof.
  intros fuel message offset len Hb Hlen Hend.
  unfold parse_name. cbn [parse_name_loop].
  rewrite (proj2 (index_Ret _ _ _) Hb). cbn [bind].
  rewrite (is_pointer_false _ _ _ Hb) by lia.
  replace (len =? 0) with false by (symmetry; apply N.eqb_neq; lia).
  unfold decode_ascii.
  destruct (forallb is_ascii_byte (slice message (offset + 1) (offset + 1 + len))).
  - left. cbn [bind]. rewrite byte_at_out_of_range by exact Hend. reflexivity.
  - right. reflexivity.
Qed.

Lemma label_past_the_end_raises_witness :
  byte_at sample_label_overrun 12 = Some 7 /\
  0 < 7 < 192 /\
  N.of_nat (List.length sample_label_overrun) <= 12 + 1 + 7 /\
  (parse_name 2 sample_label_overrun 12 = Raise IndexError \/
   parse_name 2 sample_label_overrun 12 = Raise UnicodeDecodeError).
Proof.
  split; [reflexivity | ]. split; [lia | ].
  assert (H : N.of_nat (List.length sample_label_overrun) <= 12 + 1 + 7)
    by (vm_compute; discriminate).
  split; [exact H | ].
  apply (label_past_the_end_raises 0 sample_label_overrun 12 7);
    [reflexivity | lia | exact H].
Defined.

(** ** What decoding returns *)

Lemma string_forallb_app (p : ascii -> bool) (s1 s2 : string) :
  string_forallb p (s1 ++ s2)
  = string_forallb p s1 && string_forallb p s2.
Proof.
  induction s1 as [ | c r IH]; [reflexivity | ].
  simpl. rewrite IH. apply andb_assoc.
Qed.

Lemma string_forallb_join (p : ascii -> bool) (sep : string)
    (parts : list string) :
  string_forallb p sep = true ->
  Forall (fun s => string_forallb p s = true) parts ->
  string_forallb p (join sep parts) = true.
Proof.
  intros Hsep. unfold join.
  induction 1 as [ | s rest Hs Hrest IH]; [reflexivity | ].
  destruct rest as [ | s' rest']; [exact Hs | ].
  rewrite concat_cons2, !string_forallb_app, Hs, Hsep, IH. reflexivity.
Qed.

Lemma ascii_bytes_string (bs : bytes) :
  forallb is_ascii_byte bs = true ->
  string_forallb is_ascii_char (string_of_list_byte bs) = true.
Proof.
  intros H. rewrite <- ascii_string_bytes.
  rewrite list_byte_of_string_of_list_byte. exact H.
Qed.

Lemma labels_at_ascii (message : bytes) (offset : N) (labels : list string) :
  labels_at message offset labels ->
  Forall (fun s => string_forallb is_ascii_char s = true) labels.
Proof.
  induction 1 as [offset Hz | offset len s rest Hb Hl Hs Hr IH
                 | offset b0 b1 labels Hb Hp Hb1 Hr IH].
  - constructor.
  - constructor; [ | exact IH].
    destruct Hs as (_ & Hascii & ->). apply ascii_bytes_string. exact Hascii.
  - exact IH.
Qed.

(** X6.  A name that [parse_name] returns is made of ASCII characters
    only. *)
Theorem decoded_name_is_ascii :
  forall (fuel : nat) (message : bytes) (offset : N) (name : string) (next : N),
    parse_name fuel message offset = Ret (name, next) ->
    string_forallb is_ascii_char name = true.
Proof.
  intros fuel message offset name next H.
  apply parse_name_sound in H. destruct H as ((labels & Hlabels & ->) & _).
  apply string_forallb_join; [reflexivity | ].
  exact (labels_at_ascii _ _ _ Hlabels).
Qed.

Lemma decoded_name_is_ascii_witness :
  parse_name 10 sample_names 0 = Ret ("www.a"%string, 7) /\
  string_forallb is_ascii_char "www.a" = true.
Proof.
  split; [reflexivity | ].
  exact (decoded_name_is_ascii 10 sample_names 0 "www.a" 7 eq_refl).
Defined.

Lemma fold_be_uint_lt (bs : bytes) :
  forall acc,
    fold_left (fun a b => a * 256 + Byte.to_N b) bs acc
    < (acc + 1) * 256 ^ N.of_nat (List.length bs).
Proof.
  induction bs as [ | b bs IH]; intros acc.
  - simpl. lia.
  - cbn [fold_left List.length]. rewrite Nat2N.inj_succ, N.pow_succ_r'.
    pose proof (Byte.to_N_bounded b) as Hb.
    eapply N.lt_le_trans; [apply IH | ].
    rewrite N.mul_assoc. apply N.mul_le_mono_r. lia.
Qed.

Lemma be_uint_firstn_lt (k : nat) (bs : bytes) :
  be_uint (firstn k bs) < 256 ^ N.of_nat k.
Proof.
  unfold be_uint. eapply N.lt_le_trans; [apply fold_be_uint_lt | ].
  rewrite N.mul_1_l. apply N.pow_le_mono_r; [discriminate | ].
  rewrite length_firstn. lia.
Qed.

Lemma parse_resource_record_fields (fuel : nat) (message : bytes) (offset : N)
    (r : rr) (next : N) :
  parse_resource_record fuel message offset = Ret (r, next) ->
  fields_in_range r.
Proof.
  unfold parse_resource_record. intros H.
  unbind_in H as [name name_end] Hname.
  unbind_in H as hdr Hhdr.
  unbind_in H as rdata Hrdata.
  inversion H; subst r next; clear H. unfold fields_in_range.
  cbn [rr_type rr_class rr_ttl rr_rdlength].
  repeat split.
  - exact (be_uint_firstn_lt 2 hdr).
  - exact (be_uint_firstn_lt 2 (skipn 2 hdr)).
  - exact (be_uint_firstn_lt 4 (skipn 4 hdr)).
  - exact (be_uint_firstn_lt 2 (skipn 8 hdr)).
Qed.

(** X7.  The numeric fields of every record that [parse_resource_records]
    returns fit the widths they are unpacked from: type, class and rdata
    length are below 65536 and the ttl is below 2^32. *)
Theorem decoded_fields_are_in_range :
  forall (fuel : nat) (message : bytes) (count offset : N)
         (records : list rr) (next : N),
    parse_resource_records fuel message count offset = Ret (records, next) ->
    Forall fields_in_range records.
Proof.
  intros fuel message count offset records next H.
  apply parse_resource_records_sound in H. destruct H as (_ & _ & Hall).
  eapply Forall_impl; [ | exact Hall].
  intros r (o & e & Hr). exact (parse_resource_record_fields _ _ _ _ _ Hr).
Qed.

Lemma decoded_fields_are_in_range_witness :
  exists records,
    parse_resource_records 5 sample_records 3 13 = Ret (records, 63) /\
    Forall fields_in_range records.
Proof.
  eexists. split; [vm_compute; reflexivity | ].
  exact (decoded_fields_are_in_range 5 sample_records 3 13 _ 63 eq_refl).
Defined.

Lemma parse_rr_loop_shift (fuel : nat) (message : bytes) :
  forall (count : nat) (offset : N) (acc acc' records : list rr) (next : N),
    parse_rr_loop fuel message count offset acc = Ret (records, next) ->
    exists new,
      records = (acc ++ new)%list /\
      parse_rr_loop fuel message count offset acc'
      = Ret ((acc' ++ new)%list, next).
Proof.
  induction count as [ | count IH]; intros offset acc acc' records next H.
  - simpl in H. inversion H; subst. exists []. rewrite !app_nil_r.
    split; reflexivity.
  - cbn [parse_rr_loop] in H |- *. unbind_in H as [r offset'] Hr.
    rewrite Hr. cbn [bind].
    destruct (IH _ _ (acc' ++ [r])%list _ _ H) as (new & -> & Hrun).
    exists (r :: new). rewrite <- !app_assoc in *.
    split; [reflexivity | exact Hrun].
Qed.

Lemma parse_rr_loop_add (fuel : nat) (message : bytes) :
  forall (n1 n2 : nat) (offset : N) (acc r1 : list rr) (o1 : N),
    parse_rr_loop fuel message n1 offset acc = Ret (r1, o1) ->
    parse_rr_loop fuel message (n1 + n2) offset acc
    = parse_rr_loop fuel message n2 o1 r1.
Proof.
  induction n1 as [ | n1 IH]; intros n2 offset acc r1 o1 H.
  - simpl in H. inversion H; subst. reflexivity.
  - cbn [parse_rr_loop Nat.add] in H |- *. unbind_in H as [r offset'] Hr.
    rewrite Hr. cbn [bind]. exact (IH _ _ _ _ _ H).
Qed.

(** X8.  Runs of records compose: decoding [count1] records and then
    [count2] records from where the first run ended gives what decoding
    [count1 + count2] records at once gives, the records of the first run
    followed by those of the second. *)
Theorem parse_resource_records_compose :
  forall (fuel : nat) (message : bytes) (count1 count2 offset : N)
         (records1 records2 : list rr) (middle next : N),
    parse_resource_records fuel message count1 offset
    = Ret (records1, middle) ->
    parse_resource_records fuel message count2 middle
    = Ret (records2, next) ->
    parse_resource_records fuel message (count1 + count2) offset
    = Ret ((records1 ++ records2)%list, next).
Proof.
  unfold parse_resource_records.
  intros fuel message count1 count2 offset records1 records2 middle next H1 H2.
  rewrite N2Nat.inj_add.
  rewrite (parse_rr_loop_add _ _ _ _ _ _ _ _ H1).
  destruct (parse_rr_loop_shift _ _ _ _ _ records1 _ _ H2) as (new & -> & Hrun).
  exact Hrun.
Qed.

Lemma parse_resource_records_compose_witness :
  exists records1 records2,
    parse_resource_records 5 sample_records 1 13 = Ret (records1, 29) /\
    parse_resource_records 5 sample_records 2 29 = Ret (records2, 63) /\
    parse_resource_records 5 sample_records (1 + 2) 13
    = Ret ((records1 ++ records2)%list, 63).
Proof.
  eexists. eexists.
  split; [vm_compute; reflexivity | ]. split; [vm_compute; reflexivity | ].
  exact (parse_resource_records_compose 5 sample_records 1 2 13 _ _ 29 63
           eq_refl eq_refl).
Defined.

Lemma slice_length_min (message : bytes) (a b : N) :
  List.length (slice message a b)
  = Nat.min (N.to_nat b - N.to_nat a) (List.length message - N.to_nat a).
Proof. unfold slice. rewrite length_firstn, length_skipn. reflexivity. Qed.

(** X9.  An A record whose four declared rdata bytes lie inside the buffer
    is given a dotted IPv4 address string as its rdata: the four bytes in
    decimal, joined by dots. *)
Theorem a_record_rdata_is_an_address :
  forall (fuel : nat) (message : bytes) (offset : N) (r : rr) (next : N),
    parse_resource_record fuel message offset = Ret (r, next) ->
    rr_type r = 1 ->
    rr_rdlength r = 4 ->
    next <= N.of_nat (List.length message) ->
    ipv4_string (rr_rdata r) /\
    exists a b c d : byte,
      slice message (next - 4) next = [a; b; c; d] /\
      rr_rdata r
      = VStr (str_of_N (Byte.to_N a) ++ "." ++ str_of_N (Byte.to_N b) ++ "."
              ++ str_of_N (Byte.to_N c) ++ "." ++ str_of_N (Byte.to_N d)).
Proof.
  intros fuel message offset r next H Htype Hlen Hin.
  destruct (parse_resource_record_Ret _ _ _ _ _ H)
    as (name_end & _ & _ & _ & _ & -> & Hrd).
  destruct Hrd as (Hip & _). rewrite (Hip Htype Hlen). rewrite Hlen in *.
  replace (name_end + 10 + 4 - 4) with (name_end + 10) by lia.
  assert (Hl : List.length (slice message (name_end + 10) (name_end + 10 + 4))
               = 4%nat) by (rewrite slice_length_min; lia).
  destruct (slice message (name_end + 10) (name_end + 10 + 4))
    as [ | a [ | b [ | c [ | d [ | x l]]]]]; try discriminate Hl.
  split.
  - exists a, b, c, d. reflexivity.
  - exists a, b, c, d. split; reflexivity.
Qed.

Lemma a_record_rdata_is_an_address_witness :
  exists r,
    parse_resource_record 5 sample_records 13 = Ret (r, 29) /\
    rr_type r = 1 /\ rr_rdlength r = 4 /\
    29 <= N.of_nat (List.length sample_records) /\
    rr_rdata r = VStr "93.184.216.34" /\
    ipv4_string (rr_rdata r).
Proof.
  eexists. split; [vm_compute; reflexivity | ].
  split; [reflexivity | ]. split; [reflexivity | ].
  assert (H : 29 <= N.of_nat (List.length sample_records))
    by (vm_compute; discriminate).
  split; [exact H | ]. split; [reflexivity | ].
  exact (proj1 (a_record_rdata_is_an_address 5 sample_records 13 _ 29
                  eq_refl eq_refl eq_refl H)).
Defined.



(** * Further properties of whole responses *)

(** X11.  A datagram shorter than the 12 bytes of a header, the empty one
    included, makes [parse_dns_response] raise [struct.error], whatever
    bytes it holds. *)
Theorem short_datagram_raises_struct_error :
  forall (fuel : nat) (message : bytes),
    (List.length message < 12)%nat ->
    parse_dns_response fuel message = Raise StructError.
Proof.
  intros fuel message H. unfold parse_dns_response, unpack_sized.
  rewrite slice_length_min.
  replace (Nat.eqb (Nat.min (N.to_nat 12 - N.to_nat 0)
                            (List.length message - N.to_nat 0)) 12)
    with false; [reflexivity | ].
  symmetry. apply Nat.eqb_neq. lia.
Qed.

Lemma short_datagram_raises_struct_error_witness :
  (List.length sample_truncated < 12)%nat /\
  parse_dns_response 0 sample_truncated = Raise StructError /\
  parse_dns_response 0 [] = Raise StructError.
Proof.
  assert (H : (List.length sample_truncated < 12)%nat) by (vm_compute; lia).
  split; [exact H | ]. split.
  - exact (short_datagram_raises_struct_error 0 sample_truncated H).
  - apply (short_datagram_raises_struct_error 0 []). simpl. lia.
Defined.

(** X12.  What [parse_dns_response] returns agrees with the header of the
    message: the id and the flags are the big-endian numbers at bytes 0 and
    2, and the answer, authority and additional sections have as many
    records as the counts at bytes 6, 8 and 10 say. *)
Theorem response_agrees_with_header :
  forall (fuel : nat) (message : bytes) (parsed : parsed_response),
    parse_dns_response fuel message = Ret parsed ->
    be16_at message 0 = Some (p_id parsed) /\
    be16_at message 2 = Some (p_flags parsed) /\
    be16_at message 6 = Some (N.of_nat (List.length (p_answers parsed))) /\
    be16_at message 8 = Some (N.of_nat (List.length (p_authorities parsed))) /\
    be16_at message 10 = Some (N.of_nat (List.length (p_additionals parsed))).
Proof.
  intros fuel message parsed H.
  pose proof (parse_dns_response_Ret _ _ _ H) as (Hlen & _).
  unfold parse_dns_response in H.
  unbind_in H as header Hh. apply unpack_sized_Ret in Hh.
  destruct Hh as (-> & _).
  unbind_in H as o0 Hq.
  unbind_in H as [answers o1] Han.
  unbind_in H as [authorities o2] Hns.
  unbind_in H as [additionals o3] Har.
  inversion H; subst parsed; clear H.
  cbn [p_id p_flags p_answers p_authorities p_additionals].
  apply parse_resource_records_sound in Han, Hns, Har.
  destruct Han as (-> & _). destruct Hns as (-> & _). destruct Har as (-> & _).
  rewrite !N2Nat.id.
  pose proof (header_field message 0 Hlen ltac:(lia)) as H0.
  pose proof (header_field message 2 Hlen ltac:(lia)) as H2.
  pose proof (header_field message 6 Hlen ltac:(lia)) as H6.
  pose proof (header_field message 8 Hlen ltac:(lia)) as H8.
  pose proof (header_field message 10 Hlen ltac:(lia)) as H10.
  repeat split; assumption.
Qed.

Lemma response_agrees_with_header_witness :
  parse_dns_response 5 sample_referral = Ret sample_referral_parsed /\
  be16_at sample_referral 0 = Some 4660 /\
  be16_at sample_referral 8 = Some 2.
Proof.
  split; [reflexivity | ].
  pose proof (response_agrees_with_header 5 sample_referral
                sample_referral_parsed eq_refl) as (H0 & _ & _ & H8 & _).
  split; [exact H0 | exact H8].
Defined.

(** X13.  The sections of a decoded response lie one after the other in the
    message: the questions, as many as the count at byte 4 says, from byte
    12, then the answer records from where the questions end, then the
    authority records, then the additional records, each record taking its
    name field, ten bytes and its declared rdata length. *)
Theorem response_sections_are_consecutive :
  forall (fuel : nat) (message : bytes) (parsed : parsed_response),
    parse_dns_response fuel message = Ret parsed ->
    exists (qdcount o0 o1 o2 o3 : N),
      be16_at message 4 = Some qdcount /\
      questions_span message (N.to_nat qdcount) 12 o0 /\
      records_span message (List.length (p_answers parsed)) o0 o1 /\
      records_span message (List.length (p_authorities parsed)) o1 o2 /\
      records_span message (List.length (p_additionals parsed)) o2 o3.
Proof.
  intros fuel message parsed H.
  pose proof (parse_dns_response_Ret _ _ _ H) as (Hlen & _).
  unfold parse_dns_response in H.
  unbind_in H as header Hh. apply unpack_sized_Ret in Hh.
  destruct Hh as (-> & _).
  unbind_in H as o0 Hq.
  unbind_in H as [answers o1] Han.
  unbind_in H as [authorities o2] Hns.
  unbind_in H as [additionals o3] Har.
  inversion H; subst parsed; clear H.
  cbn [p_answers p_authorities p_additionals].
  apply parse_resource_records_sound in Han, Hns, Har.
  destruct Han as (-> & Han & _). destruct Hns as (-> & Hns & _).
  destruct Har as (-> & Har & _).
  apply skip_questions_span in Hq.
  eexists. exists o0, o1, o2, o3.
  split; [exact (header_field message 4 Hlen ltac:(lia)) | ].
  repeat split; assumption.
Qed.

Lemma response_sections_are_consecutive_witness :
  parse_dns_response 5 sample_referral = Ret sample_referral_parsed /\
  exists (qdcount o0 o1 o2 o3 : N),
    be16_at sample_referral 4 = Some qdcount /\
    questions_span sample_referral (N.to_nat qdcount) 12 o0 /\
    records_span sample_referral
      (List.length (p_answers sample_referral_parsed)) o0 o1 /\
    records_span sample_referral
      (List.length (p_authorities sample_referral_parsed)) o1 o2 /\
    records_span sample_referral
      (List.length (p_additionals sample_referral_parsed)) o2 o3.
Proof.
  split; [reflexivity | ].
  exact (response_sections_are_consecutive 5 sample_referral
           sample_referral_parsed eq_refl).
Defined.

Lemma slice_prefix (pre post : bytes) :
  slice (pre ++ post) 0 (N.of_nat (List.length pre)) = pre.
Proof.
  pose proof (slice_middle [] pre post) as H. simpl in H. exact H.
Qed.

(** X14.  A query reads back as a response without records: for a domain
    name whose labels are ASCII, not empty and shorter than 192 characters,
    [parse_dns_response] on the bytes that [build_dns_query] returns gives
    the transaction id, the flags 0x0100 and three empty sections. *)
Theorem query_parses_as_empty_response :
  forall (entropy : N) (domain_name : string),
    forallb plain_label (split_dot domain_name) = true ->
    exists (transaction_id : N) (query : bytes),
      build_dns_query entropy domain_name = Ret (transaction_id, query) /\
      exists n : nat,
        forall fuel : nat,
          (n <= fuel)%nat ->
          parse_dns_response fuel query
          = Ret (mk_parsed transaction_id 256 [] [] []).
Proof.
  intros entropy domain_name H.
  eexists. eexists.
  split; [apply build_dns_query_ok; apply plain_labels_encodable; exact H | ].
  set (tid := entropy mod 65536).
  assert (Htid : tid < 65536) by (apply N.mod_upper_bound; discriminate).
  assert (Hhi : tid / 256 <= 255)
    by (apply N.lt_succ_r; apply N.Div0.div_lt_upper_bound; exact Htid).
  assert (Hlo : tid mod 256 <= 255)
    by (pose proof (N.mod_upper_bound tid 256); lia).
  set (header := [byte_of_N (tid / 256); byte_of_N (tid mod 256);
                  x01; x00; x00; x01; x00; x00; x00; x00; x00; x00]).
  set (rest := (wire_labels (split_dot domain_name)
                  ++ [x00; x00; x01; x00; x01])%list).
  destruct (wire_name_decodes _ H header [x00; x01; x00; x01])
    as (Hlabels & _).
  change (N.of_nat (List.length header)) with 12 in Hlabels.
  change (wire_labels (split_dot domain_name) ++ x00 :: [x00; x01; x00; x01])%list
    with rest in Hlabels.
  destruct (parse_name_complete _ _ _ Hlabels) as (n & e & _ & Hrun).
  exists n. intros fuel Hfuel. unfold parse_dns_response.
  change 12 with (N.of_nat (List.length header)) at 1.
  rewrite slice_prefix. unfold unpack_sized.
  change (Nat.eqb (List.length header) 12) with true. cbn [bind].
  change (N.to_nat (be_uint (firstn 2 (skipn 4 header)))) with 1%nat.
  change (be_uint (firstn 2 (skipn 2 header))) with 256.
  change (be_uint (firstn 2 (skipn 6 header))) with 0.
  change (be_uint (firstn 2 (skipn 8 header))) with 0.
  change (be_uint (firstn 2 (skipn 10 header))) with 0.
  cbn [skip_questions]. rewrite (Hrun fuel Hfuel). cbn [bind].
  unfold parse_resource_records. cbn [N.to_nat parse_rr_loop bind].
  do 2 f_equal.
  change (be_uint (firstn 2 header))
    with ((0 * 256 + Byte.to_N (byte_of_N (tid / 256))) * 256
          + Byte.to_N (byte_of_N (tid mod 256))).
  rewrite (proj2 (byte_of_N_small _ Hhi)), (proj2 (byte_of_N_small _ Hlo)).
  pose proof (N.div_mod tid 256). lia.
Qed.

Lemma query_parses_as_empty_response_witness :
  forallb plain_label (split_dot "example.com") = true /\
  exists (transaction_id : N) (query : bytes),
    build_dns_query 7 "example.com" = Ret (transaction_id, query) /\
    exists n : nat,
      forall fuel : nat,
        (n <= fuel)%nat ->
        parse_dns_response fuel query
        = Ret (mk_parsed transaction_id 256 [] [] []).
Proof.
  split; [reflexivity | ].
  exact (query_parses_as_empty_response 7 "example.com" eq_refl).
Defined.

(** * Further properties of the selection functions *)

Lemma match_additional_In (ns : pyval) (additional_as : list rr) (ip : pyval) :
  match_additional ns additional_as = Some ip ->
  exists add, In add additional_as /\ ip = rr_rdata add.
Proof.
  induction additional_as as [ | a rest IH]; [discriminate | ].
  cbn [match_additional].
  destruct (pyval_eqb (VStr (rr_name a)) ns).
  - intros H. inversion H. exists a. split; [left; reflexivity | reflexivity].
  - intros H. destruct (IH H) as (add & Hin & Hip).
    exists add. split; [right; exact Hin | exact Hip].
Qed.

Lemma match_ns_names_In (ns_names : list pyval) (additional_as : list rr)
    (ip : pyval) :
  match_ns_names ns_names additional_as = Some ip ->
  exists add, In add additional_as /\ ip = rr_rdata add.
Proof.
  induction ns_names as [ | ns rest IH]; [discriminate | ].
  cbn [match_ns_names].
  destruct (match_additional ns additional_as) as [ip' | ] eqn:E.
  - intros H. inversion H; subst. exact (match_additional_In _ _ _ E).
  - exact IH.
Qed.

Lemma match_ns_names_no_records (ns_names : list pyval) :
  match_ns_names ns_names [] = None.
Proof. induction ns_names as [ | ns rest IH]; [reflexivity | exact IH]. Qed.

(** X15.  [choose_next_server] gives up exactly when the additional section
    has no record of type A, whatever the authority section holds; and
    whatever it returns is the rdata of a record of type A of the additional
    section, never a value taken from the answer or authority section. *)
Theorem next_server_comes_from_additional_a_records :
  forall parsed : parsed_response,
    (choose_next_server parsed = None <->
     forall r, In r (p_additionals parsed) -> rr_type r <> 1) /\
    (forall ip,
        choose_next_server parsed = Some ip ->
        exists add,
          In add (p_additionals parsed) /\ rr_type add = 1 /\
          ip = rr_rdata add).
Proof.
  intros parsed.
  assert (Hsome : forall ip,
             choose_next_server parsed = Some ip ->
             exists add,
               In add (p_additionals parsed) /\ rr_type add = 1 /\
               ip = rr_rdata add).
  { intros ip H. unfold choose_next_server in H.
    assert (Hadd : exists add,
               In add (filter (fun r => rr_type r =? 1) (p_additionals parsed))
               /\ ip = rr_rdata add).
    { destruct (match_ns_names _ _) as [ip' | ] eqn:E.
      - inversion H; subst. exact (match_ns_names_In _ _ _ E).
      - destruct (filter (fun r => rr_type r =? 1) (p_additionals parsed))
          as [ | first rest]; [discriminate H | ].
        inversion H. exists first. split; [left; reflexivity | reflexivity]. }
    destruct Hadd as (add & Hin & Hip). apply filter_In in Hin.
    destruct Hin as (Hin & Ht). apply N.eqb_eq in Ht.
    exists add. repeat split; assumption. }
  split; [ | exact Hsome]. split.
  - intros Hnone r Hin Ht.
    assert (Hf : In r (filter (fun r => rr_type r =? 1) (p_additionals parsed)))
      by (apply filter_In; split; [exact Hin | apply N.eqb_eq; exact Ht]).
    unfold choose_next_server in Hnone.
    destruct (match_ns_names _ _); [discriminate Hnone | ].
    destruct (filter (fun r => rr_type r =? 1) (p_additionals parsed));
      [destruct Hf | discriminate Hnone].
  - intros Hall.
    destruct (choose_next_server parsed) as [ip | ] eqn:E; [ | reflexivity].
    destruct (Hsome ip eq_refl) as (add & Hin & Ht & _).
    exfalso. exact (Hall add Hin Ht).
Qed.

Lemma next_server_comes_from_additional_a_records_witness :
  choose_next_server sample_referral_parsed = Some (VStr "10.0.0.2") /\
  exists add,
    In add (p_additionals sample_referral_parsed) /\ rr_type add = 1 /\
    VStr "10.0.0.2" = rr_rdata add.
Proof.
  split; [reflexivity | ].
  exact (proj2 (next_server_comes_from_additional_a_records
                  sample_referral_parsed) (VStr "10.0.0.2") eq_refl).
Defined.

(** X16.  [extract_answer_ips] returns the rdata of the answer records of
    type A, one for each, in section order, and nothing else; so it returns
    the empty list exactly when no answer record has type A. *)
Theorem extract_answer_ips_collects_a_records :
  forall parsed : parsed_response,
    extract_answer_ips parsed
    = map rr_rdata (filter (fun r => rr_type r =? 1) (p_answers parsed)) /\
    (extract_answer_ips parsed = [] <->
     forall r, In r (p_answers parsed) -> rr_type r <> 1) /\
    (List.length (extract_answer_ips parsed)
     <= List.length (p_answers parsed))%nat.
Proof.
  intros parsed. rewrite extract_answer_ips_filter.
  split; [reflexivity | ]. split.
  - split.
    + intros Hnil r Hin Ht.
      assert (Hf : In (rr_rdata r)
                      (map rr_rdata
                           (filter (fun r => rr_type r =? 1) (p_answers parsed)))).
      { apply in_map. apply filter_In.
        split; [exact Hin | apply N.eqb_eq; exact Ht]. }
      rewrite Hnil in Hf. destruct Hf.
    + intros Hall.
      destruct (filter (fun r => rr_type r =? 1) (p_answers parsed))
        as [ | r rest] eqn:E; [reflexivity | ].
      assert (Hin : In r (filter (fun r => rr_type r =? 1) (p_answers parsed)))
        by (rewrite E; left; reflexivity).
      apply filter_In in Hin. destruct Hin as (Hin & Ht). apply N.eqb_eq in Ht.
      exfalso. exact (Hall r Hin Ht).
  - rewrite length_map. apply filter_length_le.
Qed.

(** * Further properties of the resolution loop *)

Lemma split_after_all {A : Type} (P : A -> Prop) (a b pre post : list A)
    (x : A) :
  Forall (fun y => ~ P y) a -> P x ->
  (a ++ b)%list = (pre ++ x :: post)%list ->
  exists pre', pre = (a ++ pre')%list /\ b = (pre' ++ x :: post)%list.
Proof.
  intros Ha Hx. revert pre.
  induction Ha as [ | y a Hy Ha IH]; intros pre H; simpl in H.
  - exists pre. split; [reflexivity | exact H].
  - destruct pre as [ | p pre]; simpl in H; inversion H; subst.
    + contradiction.
    + destruct (IH pre H2) as (pre' & -> & Hb).
      exists pre'. split; [reflexivity | exact Hb].
Qed.

Lemma main_unfold (fuel pfuel : nat) (tr : transport)
    (domain_name root_dns_ip : string) (evs : list event) (o : outcome) :
  resolve fuel pfuel tr domain_name 0 (VStr root_dns_ip) = (evs, o) ->
  main fuel pfuel tr domain_name root_dns_ip
  = ((EvSetTimeout 5
        :: evs ++ match o with Stopped _ => [EvClose] | _ => [] end)%list, o).
Proof. intros H. unfold main. rewrite H. reflexivity. Qed.

(** X17.  The socket is closed exactly when the loop was left by one of its
    [break]s, and then as the very last thing the run does, once; a run
    that ends by an uncaught exception never closes it. *)
Theorem socket_is_closed_after_a_break_only :
  forall (fuel pfuel : nat) (tr : transport) (domain_name root_dns_ip : string)
         (events : list event) (o : outcome),
    main fuel pfuel tr domain_name root_dns_ip = (events, o) ->
    (forall s, o = Stopped s ->
               exists evs, events = (evs ++ [EvClose])%list /\
                           ~ In EvClose evs) /\
    (forall e, o = Uncaught e -> ~ In EvClose events).
Proof.
  intros fuel pfuel tr domain_name root_dns_ip events o H.
  destruct (resolve fuel pfuel tr domain_name 0 (VStr root_dns_ip))
    as (evs, o') eqn:Hres.
  rewrite (main_unfold _ _ _ _ _ _ _ Hres) in H.
  inversion H; subst events o'; clear H.
  destruct (resolve_trace _ _ _ _ _ _ _ _ Hres) as (Hloop & _).
  rewrite Forall_forall in Hloop.
  split.
  - intros s ->. exists (EvSetTimeout 5 :: evs). split; [reflexivity | ].
    intros [Hin | Hin]; [discriminate Hin | exact (Hloop _ Hin)].
  - intros e ->. rewrite app_nil_r.
    intros [Hin | Hin]; [discriminate Hin | exact (Hloop _ Hin)].
Qed.

Lemma socket_is_closed_after_a_break_only_witness :
  exists events,
    main 3 5 (always_replies sample_label_overrun) "example.com" "198.41.0.4"
    = (events, Uncaught IndexError) /\
    ~ In EvClose events.
Proof.
  eexists. split; [vm_compute; reflexivity | ].
  exact (proj2 (socket_is_closed_after_a_break_only 3 5
                  (always_replies sample_label_overrun) "example.com"
                  "198.41.0.4" _ _ eq_refl) IndexError eq_refl).
Defined.

Lemma iteration_sends (pfuel : nat) (tr : transport) (domain_name : string)
    (i : nat) (server : pyval) (evs : list event) (r : step_result) :
  iteration pfuel tr domain_name i server = (evs, r) ->
  evs = [EvPrintServer server] \/
  exists transaction_id query reply tail,
    build_dns_query (entropy_at tr i) domain_name
    = Ret (transaction_id, query) /\
    evs = EvPrintServer server :: EvSendTo query server 53
            :: EvRecvFrom 512 reply :: tail /\
    Forall (fun ev => ~ is_send ev) tail.
Proof.
  unfold iteration.
  destruct (build_dns_query (entropy_at tr i) domain_name)
    as [(tid, query) | e | ].
  - intros H.
    destruct (reply_at tr i) as [e | [ | datagram]];
      [inversion H; left; reflexivity | right; exists tid, query ..].
    + inversion H; subst. eexists. eexists.
      split; [reflexivity | ]. split; [reflexivity | ].
      repeat constructor; simpl; tauto.
    + destruct (parse_dns_response pfuel (firstn 512 datagram))
        as [parsed | e | ].
      * unfold decide in H.
        destruct (extract_answer_ips parsed);
          [destruct (choose_next_server parsed) | ];
          inversion H; subst; eexists; eexists;
          (split; [reflexivity | ]); (split; [reflexivity | ]);
          repeat constructor; simpl; tauto.
      * inversion H; subst. eexists. eexists.
        split; [reflexivity | ]. split; [reflexivity | ]. constructor.
      * inversion H; subst. eexists. eexists.
        split; [reflexivity | ]. split; [reflexivity | ]. constructor.
  - intros H. inversion H. left. reflexivity.
  - intros H. inversion H. left. reflexivity.
Qed.

Lemma sends_are_paired_step (pfuel : nat) (tr : transport)
    (domain_name : string) (i : nat) (server : pyval)
    (evs rest : list event) (r : step_result) :
  iteration pfuel tr domain_name i server = (evs, r) ->
  sends_are_paired domain_name rest ->
  sends_are_paired domain_name (evs ++ rest).
Proof.
  intros Hit Hrest pre query server' port post Hsplit.
  destruct (iteration_sends _ _ _ _ _ _ _ Hit)
    as [-> | (tid & q0 & reply & tail & Hq & -> & Htail)].
  - destruct pre as [ | p pre]; simpl in Hsplit; inversion Hsplit; subst.
    destruct (Hrest _ _ _ _ _ eq_refl) as (Hp & Hb & (pre' & ->) & Hr).
    split; [exact Hp | ]. split; [exact Hb | ]. split; [ | exact Hr].
    exists (EvPrintServer server :: pre'). reflexivity.
  - destruct pre as [ | p0 [ | p1 [ | p2 pre]]]; simpl in Hsplit;
      inversion Hsplit; subst.
    + split; [reflexivity | ]. split; [exists (entropy_at tr i), tid; exact Hq | ].
      split; [exists []; reflexivity | ].
      exists reply, (tail ++ rest)%list. reflexivity.
    + match goal with
      | H : (tail ++ rest)%list = _ |- _ =>
          apply (split_after_all is_send) in H;
            [ | exact Htail | exact I];
            destruct H as (pre' & -> & Hr)
      end.
      destruct (Hrest _ _ _ _ _ Hr) as (Hp & Hb & (pre'' & ->) & Hrecv).
      split; [exact Hp | ]. split; [exact Hb | ]. split; [ | exact Hrecv].
      exists (EvPrintServer server :: EvSendTo q0 server 53
                :: EvRecvFrom 512 reply :: tail ++ pre'')%list.
      simpl. rewrite <- app_assoc. reflexivity.
Qed.

Lemma resolve_sends_are_paired (pfuel : nat) (tr : transport)
    (domain_name : string) :
  forall (fuel i : nat) (server : pyval) (evs : list event) (o : outcome),
    resolve fuel pfuel tr domain_name i server = (evs, o) ->
    sends_are_paired domain_name evs.
Proof.
  induction fuel as [ | fuel IH]; intros i server evs o H.
  - simpl in H. inversion H; subst.
    intros [ | ? ?] ? ? ? ? Hsplit; discriminate Hsplit.
  - cbn [resolve] in H.
    destruct (iteration pfuel tr domain_name i server) as (evs0, r) eqn:Hit.
    assert (Hnil : sends_are_paired domain_name [])
      by (intros [ | ? ?] ? ? ? ? Hsplit; discriminate Hsplit).
    destruct r as [s | next_server | e | ].
    + inversion H; subst. rewrite <- (app_nil_r evs).
      exact (sends_are_paired_step _ _ _ _ _ _ _ _ Hit Hnil).
    + destruct (resolve fuel pfuel tr domain_name (S i) next_server)
        as (evs', o') eqn:Hrest.
      inversion H; subst.
      exact (sends_are_paired_step _ _ _ _ _ _ _ _ Hit (IH _ _ _ _ Hrest)).
    + inversion H; subst. rewrite <- (app_nil_r evs).
      exact (sends_are_paired_step _ _ _ _ _ _ _ _ Hit Hnil).
    + inversion H; subst. rewrite <- (app_nil_r evs).
      exact (sends_are_paired_step _ _ _ _ _ _ _ _ Hit Hnil).
Qed.

(** X18.  One query is outstanding at a time, and every query is the same
    question: each datagram that [main] sends goes to port 53 of the server
    announced on the line before it, is a query that [build_dns_query]
    gives for the domain name of the run, and is followed at once by the
    receive, before anything else is sent. *)
Theorem every_send_is_a_query_followed_by_a_receive :
  forall (fuel pfuel : nat) (tr : transport) (domain_name root_dns_ip : string)
         (events : list event) (o : outcome),
    main fuel pfuel tr domain_name root_dns_ip = (events, o) ->
    forall pre query server port post,
      events = (pre ++ EvSendTo query server port :: post)%list ->
      port = 53 /\
      (exists entropy transaction_id,
          build_dns_query entropy domain_name = Ret (transaction_id, query)) /\
      (exists pre', pre = (pre' ++ [EvPrintServer server])%list) /\
      (exists reply post', post = EvRecvFrom 512 reply :: post').
Proof.
  intros fuel pfuel tr domain_name root_dns_ip events o H.
  destruct (resolve fuel pfuel tr domain_name 0 (VStr root_dns_ip))
    as (evs, o') eqn:Hres.
  rewrite (main_unfold _ _ _ _ _ _ _ Hres) in H.
  inversion H; subst events o'; clear H.
  intros pre query server port post Hsplit.
  pose proof (resolve_sends_are_paired _ _ _ _ _ _ _ _ Hres) as Hpaired.
  destruct pre as [ | p pre]; [discriminate Hsplit | ].
  simpl in Hsplit. inversion Hsplit as [[Hp Hrest]]. clear Hsplit.
  assert (Hnot : ~ In (EvSendTo query server port)
                   (match o with Stopped _ => [EvClose] | _ => [] end)).
  { destruct o as [s | e | ]; simpl; intros Hin; try tauto.
    destruct Hin as [Hin | []]. discriminate Hin. }
  destruct (split_before_suffix _ _ _ _ _ Hnot Hrest) as (post' & Hevs & ->).
  destruct (Hpaired _ _ _ _ _ Hevs) as (Hport & Hb & (pre' & ->) & Hr).
  split; [exact Hport | ]. split; [exact Hb | ]. split.
  - exists (EvSetTimeout 5 :: pre'). reflexivity.
  - destruct Hr as (reply & post'' & ->).
    exists reply, (post'' ++ match o with Stopped _ => [EvClose] | _ => [] end)%list.
    reflexivity.
Qed.

Lemma every_send_is_a_query_followed_by_a_receive_witness :
  exists post,
    fst (main 3 5 (replies_once sample_referral) "example.com" "198.41.0.4")
    = ([EvSetTimeout 5; EvPrintServer (VStr "198.41.0.4")]
         ++ EvSendTo sample_query (VStr "198.41.0.4") 53 :: post)%list /\
    exists reply post', post = EvRecvFrom 512 reply :: post'.
Proof.
  eexists. split; [vm_compute; reflexivity | ].
  refine (proj2 (proj2 (proj2
    (every_send_is_a_query_followed_by_a_receive 3 5
       (replies_once sample_referral) "example.com" "198.41.0.4" _ _
       (surjective_pairing _)
       [EvSetTimeout 5; EvPrintServer (VStr "198.41.0.4")]
       sample_query (VStr "198.41.0.4") 53 _ _)))).
  vm_compute. reflexivity.
Defined.

(** X27.  A server value that the socket cannot use ends the run.  [sendto]
    is called outside the [try]: when it raises, at the first iteration or
    at a later one, the run ends there by that exception, uncaught, in none
    of the terminal states, after the line that names the server and
    before anything is sent or received; and the socket is not closed. *)
Theorem send_failure_ends_the_run_uncaught :
  forall (fuel pfuel : nat) (tr : transport) (domain_name : string) (i : nat)
         (server : pyval) (transaction_id : N) (query : bytes) (e : exn),
    build_dns_query (entropy_at tr i) domain_name
    = Ret (transaction_id, query) ->
    reply_at tr i = SendRaises e ->
    resolve (S fuel) pfuel tr domain_name i server
    = ([EvPrintServer server], Uncaught e) /\
    final_state (Uncaught e) = None /\
    (i = 0%nat ->
     forall root_dns_ip : string,
       main (S fuel) pfuel tr domain_name root_dns_ip
       = ([EvSetTimeout 5; EvPrintServer (VStr root_dns_ip)], Uncaught e)).
Proof.
  intros fuel pfuel tr domain_name i server tid query e Hq Hr.
  assert (Hres : forall server',
             resolve (S fuel) pfuel tr domain_name i server'
             = ([EvPrintServer server'], Uncaught e)).
  { intros server'. cbn [resolve]. unfold iteration. rewrite Hq, Hr.
    reflexivity. }
  split; [apply Hres | ]. split; [reflexivity | ].
  intros -> root_dns_ip. unfold main. rewrite Hres. reflexivity.
Qed.

Lemma send_failure_ends_the_run_uncaught_witness :
  main 3 5 (mk_transport (fun _ => 7) (fun _ => SendRaises OSError))
    "example.com" "255.255.255.255"
  = ([EvSetTimeout 5; EvPrintServer (VStr "255.255.255.255")],
     Uncaught OSError).
Proof.
  exact (proj2 (proj2
    (send_failure_ends_the_run_uncaught 2 5
       (mk_transport (fun _ => 7) (fun _ => SendRaises OSError))
       "example.com" 0 (VStr "255.255.255.255") 7 sample_query OSError
       eq_refl eq_refl)) eq_refl "255.255.255.255"%string).
Defined.

Lemma count_sends_app (a b : list event) :
  count_sends (a ++ b) = (count_sends a + count_sends b)%nat.
Proof. unfold count_sends. rewrite filter_app, length_app. reflexivity. Qed.

(** X20.  The loop has no bound and no cycle detection: as long as every
    query goes out and every reply is a referral, it goes on.  Within
    [fuel] iterations such a run has sent [fuel] queries and has not
    stopped. *)
Theorem referrals_never_stop_the_run :
  forall (pfuel : nat) (tr : transport) (domain_name : string),
    always_referred pfuel tr domain_name ->
    forall (fuel i : nat) (server : pyval),
      snd (resolve fuel pfuel tr domain_name i server) = Unfinished /\
      count_sends (fst (resolve fuel pfuel tr domain_name i server)) = fuel.
Proof.
  intros pfuel tr domain_name Href.
  induction fuel as [ | fuel IH]; intros i server; [split; reflexivity | ].
  destruct (Href i) as (query & datagram & parsed & ip
                          & Hrecv & Hparse & Hans & Hnext).
  cbn [resolve].
  rewrite (iteration_decoded _ _ _ _ _ _ _ _ Hrecv Hparse).
  unfold decide. rewrite Hans, Hnext. cbn [fst snd].
  specialize (IH (S i) ip).
  destruct (resolve fuel pfuel tr domain_name (S i) ip) as (evs', o).
  cbn [fst snd] in IH |- *. destruct IH as (-> & Hcount).
  split; [reflexivity | ].
  rewrite app_nil_r, count_sends_app, Hcount. reflexivity.
Qed.

Lemma referrals_never_stop_the_run_witness :
  always_referred 5 (always_replies sample_referral) "example.com" /\
  snd (resolve 40 5 (always_replies sample_referral) "example.com" 0
         (VStr "198.41.0.4")) = Unfinished /\
  count_sends (fst (resolve 40 5 (always_replies sample_referral)
                      "example.com" 0 (VStr "198.41.0.4"))) = 40%nat.
Proof.
  assert (H : always_referred 5 (always_replies sample_referral) "example.com").
  { intros i. exists sample_query, sample_referral, sample_referral_parsed,
                     (VStr "10.0.0.2").
    split; [split; [exists 7; reflexivity | reflexivity] | ].
    split; [reflexivity | ]. split; reflexivity. }
  split; [exact H | ].
  exact (referrals_never_stop_the_run 5 (always_replies sample_referral)
           "example.com" H 40 0 (VStr "198.41.0.4")).
Defined.

(** X21.  A domain name that cannot be encoded (a label of more than 255
    characters or with a character outside ASCII) ends the run by an
    uncaught exception before anything is sent: the timeout is set, the
    first server is announced, and that is all. *)
Theorem unencodable_name_ends_the_run_before_sending :
  forall (fuel pfuel : nat) (tr : transport) (domain_name root_dns_ip : string),
    forallb encodable_label (split_dot domain_name) = false ->
    exists e,
      main (S fuel) pfuel tr domain_name root_dns_ip
      = ([EvSetTimeout 5; EvPrintServer (VStr root_dns_ip)], Uncaught e).
Proof.
  intros fuel pfuel tr domain_name root_dns_ip H.
  destruct (build_dns_query_fails (entropy_at tr 0) domain_name H) as (e & He).
  exists e. unfold main. cbn [resolve]. unfold iteration.
  rewrite He. reflexivity.
Qed.

Lemma unencodable_name_ends_the_run_before_sending_witness :
  forallb encodable_label (split_dot (letters 256)) = false /\
  exists e,
    main 1 5 (always_replies sample_answer) (letters 256) "198.41.0.4"
    = ([EvSetTimeout 5; EvPrintServer (VStr "198.41.0.4")], Uncaught e).
Proof.
  assert (H : forallb encodable_label (split_dot (letters 256)) = false)
    by (vm_compute; reflexivity).
  split; [exact H | ].
  exact (unencodable_name_ends_the_run_before_sending 0 5
           (always_replies sample_answer) (letters 256) "198.41.0.4" H).
Defined.

Lemma build_dns_query_encode (entropy : N) (domain_name : string) :
  build_dns_query entropy domain_name
  = bind (encode_labels (split_dot domain_name) [])
      (fun w =>
         Ret (entropy mod 65536,
              ([byte_of_N (entropy mod 65536 / 256);
                byte_of_N ((entropy mod 65536) mod 256);
                x01; x00; x00; x01; x00; x00; x00; x00; x00; x00]
                 ++ (w ++ [x00]) ++ [x00; x01; x00; x01])%list)).
Proof.
  unfold build_dns_query, getrandbits. change (2 ^ 16) with 65536.
  cbn [pack_Hs].
  rewrite pack_H_small by (apply N.mod_upper_bound; discriminate).
  cbn [bind].
  change (pack_H 256) with (Ret [x01; x00] : result bytes).
  change (pack_H 1) with (Ret [x00; x01] : result bytes).
  change (pack_H 0) with (Ret [x00; x00] : result bytes).
  cbn [bind app].
  destruct (encode_labels (split_dot domain_name) []); reflexivity.
Qed.

Lemma build_dns_query_same_status (e1 e2 : N) (domain_name : string) :
  match build_dns_query e1 domain_name, build_dns_query e2 domain_name with
  | Ret _, Ret _ => True
  | Raise a, Raise b => a = b
  | OutOfFuel, OutOfFuel => True
  | _, _ => False
  end.
Proof.
  rewrite !build_dns_query_encode.
  destruct (encode_labels (split_dot domain_name) []); simpl; trivial.
Qed.

(** X19.  A referral is followed: when a reply decodes, holds no answer of
    type A and [choose_next_server] returns a value, the run goes on with
    the next iteration, which takes that value as its server.  The value is
    passed on as it is: the next iteration announces it, builds a query and
    hands both to [sendto].  When [sendto] raises on it (a value that the
    socket cannot use as an address), the run ends there by that exception,
    uncaught and with nothing sent; when [sendto] takes it, the query goes
    to port 53 of that value and the receive follows. *)
Theorem referral_is_followed :
  forall (fuel pfuel : nat) (tr : transport) (domain_name : string) (i : nat)
         (server : pyval) (query datagram : bytes) (parsed : parsed_response)
         (ip : pyval),
    receives tr domain_name i query datagram ->
    parse_dns_response pfuel (firstn 512 datagram) = Ret parsed ->
    extract_answer_ips parsed = [] ->
    choose_next_server parsed = Some ip ->
    resolve (S fuel) pfuel tr domain_name i server
    = (([EvPrintServer server; EvSendTo query server 53;
         EvRecvFrom 512 (RecvData datagram); EvPrintReply parsed]
          ++ fst (resolve fuel pfuel tr domain_name (S i) ip))%list,
       snd (resolve fuel pfuel tr domain_name (S i) ip)) /\
    exists (transaction_id : N) (next_query : bytes),
      build_dns_query (entropy_at tr (S i)) domain_name
      = Ret (transaction_id, next_query) /\
      (forall (fuel' : nat) (e : exn),
          reply_at tr (S i) = SendRaises e ->
          resolve (S fuel') pfuel tr domain_name (S i) ip
          = ([EvPrintServer ip], Uncaught e)) /\
      (forall (fuel' : nat) (received : recv_result),
          reply_at tr (S i) = Sent received ->
          exists rest,
            fst (resolve (S fuel') pfuel tr domain_name (S i) ip)
            = EvPrintServer ip :: EvSendTo next_query ip 53
                :: EvRecvFrom 512 received :: rest).
Proof.
  intros fuel pfuel tr domain_name i server query datagram parsed ip
         Hrecv Hparse Hans Hnext.
  split.
  - cbn [resolve].
    rewrite (iteration_decoded _ _ _ _ _ _ _ _ Hrecv Hparse).
    unfold decide. rewrite Hans, Hnext. cbn [fst snd].
    destruct (resolve fuel pfuel tr domain_name (S i) ip) as (evs', o).
    rewrite app_nil_r. reflexivity.
  - destruct Hrecv as ((tid & Hq) & _).
    pose proof (build_dns_query_same_status (entropy_at tr i)
                  (entropy_at tr (S i)) domain_name) as Hs.
    rewrite Hq in Hs.
    destruct (build_dns_query (entropy_at tr (S i)) domain_name)
      as [(tid', query') | e | ] eqn:Hq'; try contradiction.
    exists tid', query'. split; [reflexivity | ]. split.
    + intros fuel' e Hr. cbn [resolve]. unfold iteration.
      rewrite Hq', Hr. reflexivity.
    + intros fuel' received Hr. cbn [resolve]. unfold iteration.
      rewrite Hq', Hr. destruct received as [ | datagram'].
      * eexists. reflexivity.
      * destruct (parse_dns_response pfuel (firstn 512 datagram'))
          as [parsed' | e | ]; try (eexists; reflexivity).
        destruct (decide parsed') as (ev3, r).
        destruct r as [s | next | e | ]; try (eexists; reflexivity).
        destruct (resolve fuel' pfuel tr domain_name (S (S i)) next)
          as (evs', o).
        eexists. reflexivity.
Qed.

Lemma referral_is_followed_witness :
  receives (refuses_second_send sample_referral_raw) "example.com" 0
    sample_query sample_referral_raw /\
  parse_dns_response 5 (firstn 512 sample_referral_raw)
  = Ret sample_referral_raw_parsed /\
  extract_answer_ips sample_referral_raw_parsed = [] /\
  choose_next_server sample_referral_raw_parsed = Some (VBytes [x01; x02]) /\
  resolve 2 5 (refuses_second_send sample_referral_raw) "example.com" 0
    (VStr "198.41.0.4")
  = ([EvPrintServer (VStr "198.41.0.4");
      EvSendTo sample_query (VStr "198.41.0.4") 53;
      EvRecvFrom 512 (RecvData sample_referral_raw);
      EvPrintReply sample_referral_raw_parsed;
      EvPrintServer (VBytes [x01; x02])],
     Uncaught OSError).
Proof.
  assert (Hrecv : receives (refuses_second_send sample_referral_raw)
                    "example.com" 0 sample_query sample_referral_raw)
    by (split; [exists 7; reflexivity | reflexivity]).
  split; [exact Hrecv | ]. split; [reflexivity | ]. split; [reflexivity | ].
  split; [reflexivity | ].
  destruct (referral_is_followed 1 5 (refuses_second_send sample_referral_raw)
              "example.com" 0 (VStr "198.41.0.4") sample_query
              sample_referral_raw sample_referral_raw_parsed
              (VBytes [x01; x02]) Hrecv eq_refl eq_refl eq_refl)
    as (Hrun & tid & next_query & _ & Hraise & _).
  rewrite Hrun, (Hraise 0%nat OSError eq_refl). reflexivity.
Defined.

Lemma iteration_same_step (pfuel : nat) (tr1 tr2 : transport)
    (domain_name : string) (i : nat) (server : pyval) :
  reply_at tr1 i = reply_at tr2 i ->
  snd (iteration pfuel tr1 domain_name i server)
  = snd (iteration pfuel tr2 domain_name i server).
Proof.
  intros Hr. unfold iteration.
  pose proof (build_dns_query_same_status (entropy_at tr1 i) (entropy_at tr2 i)
                domain_name) as Hs.
  destruct (build_dns_query (entropy_at tr1 i) domain_name)
    as [(t1, q1) | a | ];
    destruct (build_dns_query (entropy_at tr2 i) domain_name)
      as [(t2, q2) | b | ]; try contradiction.
  - rewrite Hr.
    destruct (reply_at tr2 i) as [e | [ | datagram]];
      [reflexivity | reflexivity | ].
    destruct (parse_dns_response pfuel (firstn 512 datagram));
      try reflexivity.
    destruct (decide a). reflexivity.
  - subst b. reflexivity.
  - reflexivity.
Qed.

(** X22.  The transaction id plays no part in the run: with the same
    replies, two runs end the same way whatever ids their queries drew.  No
    reply is ever compared with the id of its query. *)
Theorem outcome_ignores_transaction_ids :
  forall (fuel pfuel : nat) (tr1 tr2 : transport)
         (domain_name root_dns_ip : string),
    (forall i, reply_at tr1 i = reply_at tr2 i) ->
    snd (main fuel pfuel tr1 domain_name root_dns_ip)
    = snd (main fuel pfuel tr2 domain_name root_dns_ip).
Proof.
  intros fuel pfuel tr1 tr2 domain_name root_dns_ip Hr.
  assert (Hres : forall fuel i server,
             snd (resolve fuel pfuel tr1 domain_name i server)
             = snd (resolve fuel pfuel tr2 domain_name i server)).
  { clear fuel. induction fuel as [ | fuel IH]; intros i server;
      [reflexivity | ].
    cbn [resolve].
    pose proof (iteration_same_step pfuel tr1 tr2 domain_name i server (Hr i))
      as Hstep.
    destruct (iteration pfuel tr1 domain_name i server) as (ev1, r1).
    destruct (iteration pfuel tr2 domain_name i server) as (ev2, r2).
    cbn [snd] in Hstep. subst r2.
    destruct r1 as [s | next | e | ]; try reflexivity.
    specialize (IH (S i) next).
    destruct (resolve fuel pfuel tr1 domain_name (S i) next) as (ev1', o1).
    destruct (resolve fuel pfuel tr2 domain_name (S i) next) as (ev2', o2).
    exact IH. }
  unfold main. specialize (Hres fuel 0%nat (VStr root_dns_ip)).
  destruct (resolve fuel pfuel tr1 domain_name 0 (VStr root_dns_ip))
    as (ev1, o1).
  destruct (resolve fuel pfuel tr2 domain_name 0 (VStr root_dns_ip))
    as (ev2, o2).
  exact Hres.
Qed.

Lemma outcome_ignores_transaction_ids_witness :
  snd (main 3 5 (always_replies sample_answer) "example.com" "198.41.0.4")
  = snd (main 3 5 (mk_transport (fun i => 1000 + N.of_nat i)
                     (fun _ => RecvData sample_answer))
           "example.com" "198.41.0.4").
Proof.
  apply (outcome_ignores_transaction_ids 3 5 (always_replies sample_answer)
           (mk_transport (fun i => 1000 + N.of_nat i)
              (fun _ => RecvData sample_answer))).
  intros i. reflexivity.
Defined.

(** X23.  A reply can hang the run: when a question name of the reply lies
    on a pointer loop, decoding never ends, so the run neither stops nor
    fails, whatever fuel is given to the decoder and to the loop. *)
Theorem pointer_loop_hangs_the_run :
  forall (fuel pfuel : nat) (tr : transport) (domain_name root_dns_ip : string)
         (query datagram : bytes) (qdcount : N) (P : N -> Prop),
    receives tr domain_name 0 query datagram ->
    (12 <= List.length (firstn 512 datagram))%nat ->
    be16_at (firstn 512 datagram) 4 = Some qdcount ->
    0 < qdcount ->
    pointer_cycle (firstn 512 datagram) P ->
    P 12 ->
    main (S fuel) pfuel tr domain_name root_dns_ip
    = ([EvSetTimeout 5; EvPrintServer (VStr root_dns_ip);
        EvSendTo query (VStr root_dns_ip) 53;
        EvRecvFrom 512 (RecvData datagram)],
       Unfinished).
Proof.
  intros fuel pfuel tr domain_name root_dns_ip query datagram qdcount P
         ((tid & Hq) & Hr) Hlen Hqd Hpos Hcycle HP.
  assert (Hparse : parse_dns_response pfuel (firstn 512 datagram) = OutOfFuel).
  { set (message := firstn 512 datagram) in *.
    unfold parse_dns_response, unpack_sized.
    rewrite slice_length_min.
    replace (Nat.eqb (Nat.min (N.to_nat 12 - N.to_nat 0)
                        (List.length message - N.to_nat 0)) 12)
      with true by (symmetry; apply Nat.eqb_eq; lia).
    cbn [bind].
    pose proof (header_field message 4 Hlen ltac:(lia)) as H4.
    change (N.of_nat 4) with 4 in H4.
    assert (Hq4 : be_uint (firstn 2 (skipn 4 (slice message 0 12))) = qdcount)
      by congruence.
    rewrite Hq4.
    destruct (N.to_nat qdcount) as [ | n] eqn:En; [lia | ].
    cbn [skip_questions].
    unfold parse_name.
    rewrite (parse_name_loop_cycle _ _ Hcycle pfuel 12 12 false [] HP).
    reflexivity. }
  unfold main. cbn [resolve]. unfold iteration.
  rewrite Hq, Hr, Hparse. reflexivity.
Qed.

Lemma pointer_loop_hangs_the_run_witness :
  receives (always_replies sample_pointer_loop) "example.com" 0 sample_query
    sample_pointer_loop /\
  pointer_cycle (firstn 512 sample_pointer_loop) (fun o => o = 12) /\
  main 3 1000 (always_replies sample_pointer_loop) "example.com" "198.41.0.4"
  = ([EvSetTimeout 5; EvPrintServer (VStr "198.41.0.4");
      EvSendTo sample_query (VStr "198.41.0.4") 53;
      EvRecvFrom 512 (RecvData sample_pointer_loop)],
     Unfinished).
Proof.
  assert (Hrecv : receives (always_replies sample_pointer_loop) "example.com"
                    0 sample_query sample_pointer_loop)
    by (split; [exists 7; reflexivity | reflexivity]).
  assert (Hcycle : pointer_cycle (firstn 512 sample_pointer_loop)
                     (fun o => o = 12)).
  { intros offset ->. exists 192, 12.
    split; [reflexivity | ]. split; [lia | ]. split; reflexivity. }
  split; [exact Hrecv | ]. split; [exact Hcycle | ].
  apply (pointer_loop_hangs_the_run 2 1000 (always_replies sample_pointer_loop)
           "example.com" "198.41.0.4" sample_query sample_pointer_loop 1
           (fun o => o = 12) Hrecv).
  - vm_compute. lia.
  - reflexivity.
  - lia.
  - exact Hcycle.
  - reflexivity.
Defined.

(** * Properties of the earlier encoder *)

(** ** The id *)

Lemma randbelow_draw (n : N) (draws : nat -> N) :
  forall (j fuel j0 : nat),
    (forall j' : nat, (j0 <= j' < j0 + j)%nat ->
                      n <= getrandbits (N.size n) (draws j')) ->
    getrandbits (N.size n) (draws (j0 + j)%nat) < n ->
    (j < fuel)%nat ->
    randbelow fuel n draws j0
    = Ret (getrandbits (N.size n) (draws (j0 + j)%nat)).
Proof.
  induction j as [ | j IH]; intros fuel j0 Hbefore Hat Hfuel;
    (destruct fuel as [ | fuel]; [lia | ]); cbn [randbelow].
  - rewrite Nat.add_0_r in Hat |- *.
    apply N.ltb_lt in Hat. rewrite Hat. reflexivity.
  - replace (getrandbits (N.size n) (draws j0) <? n) with false
      by (symmetry; apply N.ltb_ge; apply Hbefore; lia).
    replace (j0 + S j)%nat with (S j0 + j)%nat in Hat |- * by lia.
    apply IH; [ | exact Hat | lia].
    intros j' Hj'. apply Hbefore. lia.
Qed.

Lemma randint_id (fuel : nat) (draws : nat -> N) (j : nat) (tid : N) :
  id_drawn draws j tid -> (j < fuel)%nat ->
  randint fuel 0 65535 draws = Ret tid.
Proof.
  intros (Htid & Hlt & Hbefore) Hfuel. unfold randint.
  change (65535 + 1 - 0) with 65536. change (0 <? 65536) with true.
  cbv iota.
  rewrite (randbelow_draw 65536 draws j fuel 0).
  - cbn [bind]. change (N.size 65536) with 17.
    rewrite Nat.add_0_l, Htid. reflexivity.
  - intros j' Hj'. change (N.size 65536) with 17. apply Hbefore. lia.
  - change (N.size 65536) with 17. rewrite Nat.add_0_l, Htid. exact Hlt.
  - exact Hfuel.
Qed.


(** ** Code points *)

Lemma str_codes_cons (c : ascii) (s : string) :
  str_codes (String c s) = N_of_ascii c :: str_codes s.
Proof. reflexivity. Qed.

Lemma str_codes_length (s : string) :
  List.length (str_codes s) = String.length s.
Proof.
  induction s as [ | c r IH]; [reflexivity | ].
  rewrite str_codes_cons. simpl. rewrite IH. reflexivity.
Qed.

Lemma dot_code (c : ascii) : (N_of_ascii c =? 46) = Ascii.eqb c ".".
Proof.
  destruct (Ascii.eqb c ".") eqn:E.
  - apply Ascii.eqb_eq in E. subst c. reflexivity.
  - apply N.eqb_neq. intros H. apply Ascii.eqb_neq in E. apply E.
    rewrite <- (ascii_N_embedding c), H. reflexivity.
Qed.

Lemma split_codes_str (s : string) :
  split_codes (str_codes s) = map str_codes (split_dot s).
Proof.
  induction s as [ | c r IH]; [reflexivity | ].
  rewrite str_codes_cons. cbn [split_codes split_dot].
  rewrite dot_code, IH.
  destruct (Ascii.eqb c "."); [reflexivity | ].
  destruct (split_dot r) as [ | h t]; reflexivity.
Qed.

Lemma byte_of_N_ascii (c : ascii) : byte_of_N (N_of_ascii c) = byte_of_ascii c.
Proof.
  unfold byte_of_N. rewrite <- byte_of_ascii_via_N. reflexivity.
Qed.

Lemma utf8_ascii (s : string) :
  string_forallb is_ascii_char s = true ->
  encode_utf8 (str_codes s) = Ret (list_byte_of_string s).
Proof.
  intros H.
  assert (Hboth : existsb is_surrogate (str_codes s) = false /\
                  flat_map utf8_char (str_codes s) = list_byte_of_string s).
  { induction s as [ | c r IH]; [split; reflexivity | ].
    cbn [string_forallb] in H. apply andb_true_iff in H.
    destruct H as (Hc & Hr). destruct (IH Hr) as (IH1 & IH2).
    rewrite str_codes_cons, list_byte_of_string_cons.
    cbn [existsb flat_map]. rewrite IH1, IH2.
    unfold is_ascii_char in Hc. unfold utf8_char. rewrite Hc.
    rewrite byte_of_N_ascii. split; [ | reflexivity].
    rewrite orb_false_r. unfold is_surrogate.
    apply N.ltb_lt in Hc.
    replace (55296 <=? N_of_ascii c) with false
      by (symmetry; apply N.leb_gt; lia).
    reflexivity. }
  unfold encode_utf8. destruct Hboth as (-> & ->). reflexivity.
Qed.

Lemma packet_labels_ascii (parts : list string) :
  forallb encodable_label parts = true ->
  forall qname,
    packet_labels (map str_codes parts) qname = encode_labels parts qname.
Proof.
  induction parts as [ | part rest IH]; intros H qname; [reflexivity | ].
  cbn [forallb] in H. apply andb_true_iff in H. destruct H as (Hl & Hrest).
  apply encodable_label_true in Hl. destruct Hl as (Hlen & Hascii).
  cbn [map packet_labels encode_labels]. rewrite str_codes_length.
  rewrite pack_B_small by exact Hlen.
  cbn [bind]. unfold encode_ascii. rewrite Hascii.
  rewrite utf8_ascii by exact Hascii. cbn [bind]. apply IH. exact Hrest.
Qed.

(** ** The packet *)

Lemma build_query_packet_labels (fuel : nat) (draws : nat -> N) (j : nat)
    (tid : N) (domain : pystr) :
  id_drawn draws j tid -> (j < fuel)%nat ->
  build_query_packet fuel draws domain
  = bind (packet_labels (split_codes domain) [])
      (fun w =>
         Ret (([byte_of_N (tid / 256); byte_of_N (tid mod 256);
                x01; x00; x00; x01; x00; x00; x00; x00; x00; x00]
                 ++ (w ++ [x00]) ++ [x00; x01; x00; x01])%list,
              tid)).
Proof.
  intros Hid Hfuel. unfold build_query_packet.
  rewrite (randint_id _ _ _ _ Hid Hfuel). cbn [bind].
  destruct Hid as (_ & Hlt & _).
  cbn [pack_Hs]. rewrite pack_H_small by exact Hlt.
  cbn [bind].
  change (pack_H 256) with (Ret [x01; x00] : result bytes).
  change (pack_H 1) with (Ret [x00; x01] : result bytes).
  change (pack_H 0) with (Ret [x00; x00] : result bytes).
  cbn [bind app].
  destruct (packet_labels (split_codes domain) []); reflexivity.
Qed.

(** X24.  The two encoders agree on the names that [build_dns_query]
    accepts, up to the id.  For a domain name whose labels are ASCII and at
    most 255 characters long, once [randint] has drawn its id,
    [build_query_packet] of [dns.py] returns that id and, after the two
    bytes that hold it, the very bytes that [build_dns_query] returns after
    its own two id bytes; the pair is in the opposite order.  The two ids
    are drawn in different ways, and nothing relates them. *)
Theorem encoders_agree_on_ascii_names :
  forall (fuel : nat) (draws : nat -> N) (j : nat) (tid' entropy : N)
         (domain : string),
    forallb encodable_label (split_dot domain) = true ->
    id_drawn draws j tid' ->
    (j < fuel)%nat ->
    exists (tid : N) (packet : bytes),
      build_dns_query entropy domain = Ret (tid, packet) /\
      firstn 2 packet = [byte_of_N (tid / 256); byte_of_N (tid mod 256)] /\
      build_query_packet fuel draws (str_codes domain)
      = Ret (byte_of_N (tid' / 256) :: byte_of_N (tid' mod 256)
               :: skipn 2 packet,
             tid').
Proof.
  intros fuel draws j tid' entropy domain H Hid Hfuel.
  eexists. eexists.
  split; [apply build_dns_query_ok; exact H | ].
  split; [reflexivity | ].
  rewrite (build_query_packet_labels _ _ _ _ _ Hid Hfuel).
  rewrite split_codes_str, packet_labels_ascii, encode_labels_ok by exact H.
  cbn [bind app skipn]. rewrite <- app_assoc. reflexivity.
Qed.

Lemma encoders_agree_on_ascii_names_witness :
  forallb encodable_label (split_dot "cs.fiu.edu") = true /\
  id_drawn sample_draws 2 4660 /\
  exists (tid : N) (packet : bytes),
    build_dns_query 7 "cs.fiu.edu" = Ret (tid, packet) /\
    firstn 2 packet = [byte_of_N (tid / 256); byte_of_N (tid mod 256)] /\
    build_query_packet 3 sample_draws (str_codes "cs.fiu.edu")
    = Ret (byte_of_N (4660 / 256) :: byte_of_N (4660 mod 256)
             :: skipn 2 packet,
           4660).
Proof.
  assert (Hid : id_drawn sample_draws 2 4660).
  { split; [reflexivity | ]. split; [reflexivity | ].
    intros [ | [ | j']] Hj; [discriminate | discriminate | lia]. }
  split; [reflexivity | ]. split; [exact Hid | ].
  exact (encoders_agree_on_ascii_names 3 sample_draws 2 4660 7 "cs.fiu.edu"
           eq_refl Hid ltac:(lia)).
Defined.






(** * The encoder, the decoder and the loop together *)

(** X26.  A reply is not checked to be a response.  When the datagram that
    arrives is the query itself (for a domain name whose labels are ASCII,
    not empty and shorter than 192 characters, in a query of at most 512
    bytes), it decodes, holds no record, and the run stops with the report
    that no server was found. *)
Theorem echoed_query_stops_the_run :
  forall (tr : transport) (domain_name : string) (i : nat)
         (transaction_id : N) (query : bytes),
    forallb plain_label (split_dot domain_name) = true ->
    build_dns_query (entropy_at tr i) domain_name
    = Ret (transaction_id, query) ->
    (List.length query <= 512)%nat ->
    reply_at tr i = RecvData query ->
    exists n : nat,
      forall (fuel pfuel : nat) (server : pyval),
        (n <= pfuel)%nat ->
        resolve (S fuel) pfuel tr domain_name i server
        = ([EvPrintServer server; EvSendTo query server 53;
            EvRecvFrom 512 (RecvData query);
            EvPrintReply (mk_parsed transaction_id 256 [] [] []);
            EvPrint no_server_line],
           Stopped StopNoServer).
Proof.
  intros tr domain_name i transaction_id query Hplain Hq Hlen Hr.
  set (tid := entropy_at tr i mod 65536).
  assert (Htid : tid < 65536) by (apply N.mod_upper_bound; discriminate).
  assert (Hhi : tid / 256 <= 255)
    by (apply N.lt_succ_r; apply N.Div0.div_lt_upper_bound; exact Htid).
  assert (Hlo : tid mod 256 <= 255)
    by (pose proof (N.mod_upper_bound tid 256); lia).
  set (header := [byte_of_N (tid / 256); byte_of_N (tid mod 256);
                  x01; x00; x00; x01; x00; x00; x00; x00; x00; x00]).
  set (rest := (wire_labels (split_dot domain_name)
                  ++ [x00; x00; x01; x00; x01])%list).
  assert (Hquery : transaction_id = tid /\ query = (header ++ rest)%list).
  { rewrite build_dns_query_ok in Hq
      by (apply plain_labels_encodable; exact Hplain).
    inversion Hq. split; reflexivity. }
  destruct Hquery as (-> & Hquery).
  destruct (wire_name_decodes _ Hplain header [x00; x01; x00; x01])
    as (Hlabels & _).
  change (N.of_nat (List.length header)) with 12 in Hlabels.
  change (wire_labels (split_dot domain_name) ++ x00 :: [x00; x01; x00; x01])%list
    with rest in Hlabels.
  rewrite <- Hquery in Hlabels.
  destruct (parse_name_complete _ _ _ Hlabels) as (n & e & _ & Hrun).
  exists n. intros fuel pfuel server Hfuel.
  assert (Hparse : parse_dns_response pfuel (firstn 512 query)
                   = Ret (mk_parsed tid 256 [] [] [])).
  { rewrite firstn_all2 by exact Hlen.
    unfold parse_dns_response.
    assert (Hslice : slice query 0 12 = header).
    { rewrite Hquery. change 12 with (N.of_nat (List.length header)).
      apply slice_prefix. }
    rewrite Hslice. unfold unpack_sized.
    change (Nat.eqb (List.length header) 12) with true. cbn [bind].
    change (N.to_nat (be_uint (firstn 2 (skipn 4 header)))) with 1%nat.
    change (be_uint (firstn 2 (skipn 2 header))) with 256.
    change (be_uint (firstn 2 (skipn 6 header))) with 0.
    change (be_uint (firstn 2 (skipn 8 header))) with 0.
    change (be_uint (firstn 2 (skipn 10 header))) with 0.
    cbn [skip_questions]. rewrite (Hrun pfuel Hfuel). cbn [bind].
    unfold parse_resource_records. cbn [N.to_nat parse_rr_loop bind].
    do 2 f_equal.
    change (be_uint (firstn 2 header))
      with ((0 * 256 + Byte.to_N (byte_of_N (tid / 256))) * 256
            + Byte.to_N (byte_of_N (tid mod 256))).
    rewrite (proj2 (byte_of_N_small _ Hhi)), (proj2 (byte_of_N_small _ Hlo)).
    pose proof (N.div_mod tid 256). lia. }
  cbn [resolve].
  rewrite (iteration_decoded pfuel tr domain_name i server query query
             (mk_parsed tid 256 [] [] [])
             (conj (ex_intro _ tid Hq) Hr) Hparse).
  reflexivity.
Qed.

Lemma echoed_query_stops_the_run_witness :
  forallb plain_label (split_dot "example.com") = true /\
  build_dns_query (entropy_at (always_replies sample_query) 0) "example.com"
  = Ret (7, sample_query) /\
  (List.length sample_query <= 512)%nat /\
  reply_at (always_replies sample_query) 0 = RecvData sample_query /\
  exists n : nat,
    forall (fuel pfuel : nat) (server : pyval),
      (n <= pfuel)%nat ->
      resolve (S fuel) pfuel (always_replies sample_query) "example.com" 0
        server
      = ([EvPrintServer server; EvSendTo sample_query server 53;
          EvRecvFrom 512 (RecvData sample_query);
          EvPrintReply (mk_parsed 7 256 [] [] []);
          EvPrint no_server_line],
         Stopped StopNoServer).
Proof.
  assert (Hlen : (List.length sample_query <= 512)%nat) by (vm_compute; lia).
  split; [reflexivity | ]. split; [reflexivity | ]. split; [exact Hlen | ].
  split; [reflexivity | ].
  exact (echoed_query_stops_the_run (always_replies sample_query)
           "example.com" 0 7 sample_query eq_refl eq_refl Hlen eq_refl).
Defined.
